(** * data_cleaning.py: a shallow embedding of the cleaning pipeline

    The pandas DataFrame handled by [src/data_cleaning.py] is modelled as an
    ordered list of labelled, typed columns.  Every stage is a function from
    frames to results: [Ok] with the new frame, or [Err] with the exception
    the stage raises.

    Modelling choices, stated once:
    - text is ASCII ([String.string]); Python's [lower]/[upper], [\d], [\w]
      and [\b] are taken on ASCII characters;
    - a float64 value is a finite number, written as a rational ([Q], kept
      reduced), or an infinity; NaN is the null of a float column.  The
      rounding of a rational to float64 is a parameter of the development
      ([round_float] of class [Pandas]); overflow to an infinity is
      written out;
    - an Int64 value is an integer ([Z]); [astype('Int64')] checks the
      64-bit range;
    - [pd.to_numeric] is written out on plain decimal literals and on text
      that cannot be a number; what pandas makes of any other spelling
      (blanks around a number, the words for infinity, literals out of
      range) is a parameter of the development ([other_spellings] and
      [other_whole] of class [Pandas]).  A column of whole numbers within
      64 bits comes out as exact integers, any other column as float64;
    - [clean_column_names] is the function on a frame with text labels;
      [clean_column_names_of] is the function on any table;
    - a column has one dtype: object columns hold text or null only;
    - labels are text and may repeat, as pandas allows; selecting a
      repeated label yields a sub-frame, which no stage can use as a
      column: the model reports [NotASeries];
    - the two [print] calls of [main_cleaning_pipeline] are left out. *)

From Stdlib Require Import List String Ascii Bool Arith ZArith QArith Lia.
From Stdlib Require Import Qabs Qcanon Lqa Permutation Sorted.
Import ListNotations.

Local Close Scope Q_scope.
Local Open Scope nat_scope.
Local Open Scope list_scope.
Local Open Scope string_scope.

(* ================================================================== *)
(** ** Results and exceptions *)

Inductive error : Type :=
| KeyError (label : string)        (* df[label] with no such column *)
| AttributeError                   (* the .str accessor on a non-text column *)
| NotASeries (label : string)      (* df[label] selects several columns *)
| TypeError.                       (* a value that does not fit the dtype *)

Inductive result (A : Type) : Type :=
| Ok (a : A)
| Err (e : error).

Arguments Ok {A} a.
Arguments Err {A} e.

Definition bind {A B : Type} (r : result A) (k : A -> result B) : result B :=
  match r with
  | Ok a => k a
  | Err e => Err e
  end.

Notation "x <- r ;; k" := (bind r (fun x => k))
  (at level 61, r at next level, right associativity).

Definition raises {A : Type} (r : result A) : Prop :=
  exists e, r = Err e.

(* ================================================================== *)
(** ** Text primitives *)

Definition code (c : ascii) : nat := nat_of_ascii c.

Definition between (lo hi : nat) (c : ascii) : bool :=
  Nat.leb lo (code c) && Nat.leb (code c) hi.

Definition is_upper (c : ascii) : bool := between 65 90 c.
Definition is_lower (c : ascii) : bool := between 97 122 c.
Definition is_digit (c : ascii) : bool := between 48 57 c.

(** [\w] on ASCII: letters, digits and the underscore. *)
Definition is_word (c : ascii) : bool :=
  is_upper c || is_lower c || is_digit c || Nat.eqb (code c) 95.

Definition lower_char (c : ascii) : ascii :=
  if is_upper c then ascii_of_nat (code c + 32) else c.

Definition upper_char (c : ascii) : ascii :=
  if is_lower c then ascii_of_nat (code c - 32) else c.

Fixpoint smap (f : ascii -> ascii) (s : string) : string :=
  match s with
  | EmptyString => EmptyString
  | String c r => String (f c) (smap f r)
  end.

(** [str.lower()] and [str.upper()]. *)
Definition lower (s : string) : string := smap lower_char s.
Definition upper (s : string) : string := smap upper_char s.

(** [str.replace(' ', '_')]. *)
Definition replace_space (s : string) : string :=
  smap (fun c => if Ascii.eqb c " "%char then "_"%char else c) s.

Fixpoint mem_char (c : ascii) (set : string) : bool :=
  match set with
  | EmptyString => false
  | String d r => Ascii.eqb c d || mem_char c r
  end.

Fixpoint string_forall (p : ascii -> bool) (s : string) : bool :=
  match s with
  | EmptyString => true
  | String c r => p c && string_forall p r
  end.

(** The regular expression [^[set]] under [str.contains]: the first
    character exists and belongs to the class. *)
Definition starts_in (set : string) (s : string) : bool :=
  match s with
  | EmptyString => false
  | String c _ => mem_char c set
  end.

(** [\b] before position 0 of [s] when the previous character is [prev]. *)
Definition boundary_before (prev : option ascii) : bool :=
  match prev with
  | None => true
  | Some p => negb (is_word p)
  end.

(** [s] begins with [w] and the character after [w], if any, is not a
    word character. *)
Fixpoint word_here (w s : string) : bool :=
  match w, s with
  | EmptyString, EmptyString => true
  | EmptyString, String c _ => negb (is_word c)
  | String _ _, EmptyString => false
  | String a w', String c s' => Ascii.eqb a c && word_here w' s'
  end.

(** Search for [\bw\b] anywhere in [s]; [prev] is the character left of
    the current position. *)
Fixpoint search_word (w : string) (prev : option ascii) (s : string) : bool :=
  (boundary_before prev && word_here w s) ||
  match s with
  | EmptyString => false
  | String c r => search_word w (Some c) r
  end.

(** [str.contains(r'\bSports\b')]. *)
Definition contains_word (w s : string) : bool := search_word w None s.

(** [str.rstrip(chars)]: every trailing character of the set is removed. *)
Fixpoint rstrip (set : string) (s : string) : string :=
  match s with
  | EmptyString => EmptyString
  | String c r =>
      match rstrip set r with
      | EmptyString => if mem_char c set then EmptyString else String c EmptyString
      | r' => String c r'
      end
  end.

(** The longest prefix of digits, and what follows it. *)
Fixpoint span_digits (s : string) : string * string :=
  match s with
  | EmptyString => (EmptyString, EmptyString)
  | String c r =>
      if is_digit c
      then let (d, rest) := span_digits r in (String c d, rest)
      else (EmptyString, s)
  end.

Fixpoint all_digits (s : string) : bool :=
  match s with
  | EmptyString => true
  | String c r => is_digit c && all_digits r
  end.

(** The regular expression [/(\d+)/] matched at the head of [s]. *)
Definition token_here (s : string) : option string :=
  match s with
  | String "/"%char r =>
      match span_digits r with
      | (String d ds, String "/"%char _) => Some (String d ds)
      | _ => None
      end
  | _ => None
  end.

(** [str.extract(r'/(\d+)/')] on one cell: the group of the leftmost
    match, or null. *)
Fixpoint extract (s : string) : option string :=
  match token_here s with
  | Some d => Some d
  | None =>
      match s with
      | EmptyString => None
      | String _ r => extract r
      end
  end.

(* ================================================================== *)
(** ** Numbers *)

Definition digit_val (c : ascii) : Z := Z.of_nat (code c - 48).

Fixpoint digits_acc (acc : Z) (s : string) : Z :=
  match s with
  | EmptyString => acc
  | String c r => digits_acc (10 * acc + digit_val c)%Z r
  end.

(** Value of a string of decimal digits. *)
Definition digits_value (s : string) : Z := digits_acc 0 s.

Definition split_sign (s : string) : bool * string :=
  match s with
  | String "-"%char r => (true, r)
  | String "+"%char r => (false, r)
  | _ => (false, s)
  end.

Definition pow10 (e : Z) : Q :=
  if (0 <=? e)%Z then inject_Z (10 ^ e) else / inject_Z (10 ^ (- e)).

(** The exponent part: nothing, or [e]/[E], a sign and at least one digit. *)
Definition parse_exponent (s : string) : option Z :=
  match s with
  | EmptyString => Some 0%Z
  | String c r =>
      if Ascii.eqb c "e"%char || Ascii.eqb c "E"%char then
        let (neg, r1) := split_sign r in
        match span_digits r1 with
        | (String d ds, EmptyString) =>
            let v := digits_value (String d ds) in
            Some (if neg then (- v)%Z else v)
        | _ => None
        end
      else None
  end.

(** The value of a plain decimal literal: an optional sign, digits with
    an optional fraction (at least one digit in all) and an optional
    exponent.  Literals longer than 250 characters or with an exponent
    beyond 50 in magnitude are left out: their value may leave the range
    of float64. *)
Definition decimal_literal (s : string) : option Q :=
  let (neg, s1) := split_sign s in
  let (ip, s2) := span_digits s1 in
  let (fp, s3) :=
    match s2 with
    | String "."%char r => span_digits r
    | _ => (EmptyString, s2)
    end in
  match ip, fp with
  | EmptyString, EmptyString => None
  | _, _ =>
      match parse_exponent s3 with
      | None => None
      | Some e =>
          if Nat.leb (String.length s) 250 && Z.leb (Z.abs e) 50 then
            let m := digits_value (ip ++ fp) in
            let k := Z.of_nat (String.length fp) in
            let v := (inject_Z m * pow10 (e - k))%Q in
            Some (Qred (if neg then - v else v))
          else None
      end
  end.

(** ASCII white space, the separators 28 to 31 included. *)
Definition is_space (c : ascii) : bool :=
  Nat.eqb (code c) 32 || between 9 13 c || between 28 31 c.

(** The characters a spelling of a number can be made of: digits, signs,
    the point, the exponent mark, the underscore, white space and the
    letters of [inf], [infinity] and [nan]. *)
Definition numeral_char (c : ascii) : bool :=
  is_digit c || mem_char c "+-.eE_" || is_space c
  || mem_char c "infinityaINFINITYA".

(** The value of a literal spelled as a whole number: an optional sign
    and digits only, within the same length bound. *)
Definition whole_literal (s : string) : option Z :=
  let (neg, r) := split_sign s in
  match r with
  | EmptyString => None
  | _ =>
      if all_digits r && Nat.leb (String.length s) 250 then
        let v := digits_value r in
        Some (if neg then (- v)%Z else v)
      else None
  end.

(** A float64 value other than NaN. *)
Inductive float : Type :=
| Finite (q : Q)
| Inf (negative : bool).

(** Half an ulp above the largest float64: an exact result at or beyond
    it rounds to an infinity. *)
Definition float_overflow : Q :=
  inject_Z (Z.shiftl 1 1024 - Z.shiftl 1 970).

Definition fle_bool (a b : float) : bool :=
  match a, b with
  | Inf true, _ => true
  | _, Inf false => true
  | Finite x, Finite y => Qle_bool x y
  | _, _ => false
  end.

(** A float that is a whole number, as an integer. *)
Definition as_integer (q : Q) : option Z :=
  let r := Qred q in
  if Pos.eqb (Qden r) 1 then Some (Qnum r) else None.

Definition integer_of (x : float) : option Z :=
  match x with
  | Finite q => as_integer q
  | Inf _ => None
  end.

(** Insertion sort of float values, as used by the median. *)
Fixpoint insert_sorted (x : float) (l : list float) : list float :=
  match l with
  | [] => [x]
  | y :: r => if fle_bool x y then x :: l else y :: insert_sorted x r
  end.

Fixpoint sort_values (l : list float) : list float :=
  match l with
  | [] => []
  | x :: r => insert_sorted x (sort_values r)
  end.

(** The non-null cells of a column, in row order. *)
Fixpoint dropna {A : Type} (l : list (option A)) : list A :=
  match l with
  | [] => []
  | Some x :: r => x :: dropna r
  | None :: r => dropna r
  end.

(** The signed and the unsigned 64-bit range, and the range in which
    float64 holds every integer. *)
Definition int64_bound : Z := 2 ^ 63.
Definition uint64_bound : Z := 2 ^ 64.
Definition float_exact : Z := 2 ^ 53.

Definition in_int64 (z : Z) : bool :=
  Z.leb (- int64_bound) z && Z.ltb z int64_bound.

Definition in_uint64 (z : Z) : bool :=
  Z.leb 0 z && Z.ltb z uint64_bound.

(** What [pd.to_numeric] hands over: exact whole numbers (dtype int64,
    uint64 or Int64, the last with nulls) or float64 values. *)
Inductive numeric : Type :=
| Whole (cells : list (option Z))
| Real (cells : list (option float)).

(** What the library does beyond the cases written out here.
    [other_spellings]: the float [pd.to_numeric] parses from a text that
    is made of numeral characters but is not a plain decimal literal within
    bounds, [None] when it coerces the text to NaN.  [other_whole]: the
    integer it reads from such a text, [None] when it does not read it as
    a whole number.
    [round_float]: the float64 the library holds for a rational within the
    float64 range.
    Of the rounding the development uses that it keeps the sign, keeps a
    whole number up to 2^53, and does not take a number of 2^64 or more
    below 2^63; of the other spellings, that a text without a minus sign
    is not read as a negative number, and that a text read as a whole
    number within 64 bits is read as the float of that number. *)
Class Pandas : Type := {
  other_spellings : string -> option float;
  other_whole : string -> option Z;
  round_float : Q -> Q;
  other_spellings_sign :
    forall s q, mem_char "-"%char s = false ->
                other_spellings s = Some (Finite q) -> (0 <= q)%Q;
  other_whole_sign :
    forall s z, mem_char "-"%char s = false ->
                other_whole s = Some z -> (0 <= z)%Z;
  other_whole_float :
    forall s z, other_whole s = Some z ->
                in_int64 z || in_uint64 z = true ->
                other_spellings s
                = Some (Finite (Qred (round_float (inject_Z z))));
  round_float_sign :
    forall q, (0 <= q)%Q -> (0 <= round_float q)%Q;
  round_float_whole :
    forall z, (Z.abs z <= float_exact)%Z ->
              (round_float (inject_Z z) == inject_Z z)%Q;
  round_float_large :
    forall q, (inject_Z uint64_bound <= q)%Q ->
              (inject_Z int64_bound <= round_float q)%Q
}.

Definition none_is_not_some {A : Type} (x : A) (P : Prop)
  (H : None = Some x) : P :=
  match H in (_ = y) return (match y with None => True | Some _ => P end)
  with eq_refl => I end.

(** An instance for closed evaluations: no other spelling is a number and
    a decimal stands for the float64 nearest to it.  The closed examples
    of this file hold plain literals and text that cannot be a number. *)
#[export] Instance plain_pandas : Pandas := {|
  other_spellings := fun _ => None;
  other_whole := fun _ => None;
  round_float := fun q => q;
  other_spellings_sign := fun s q _ H => none_is_not_some _ _ H;
  other_whole_sign := fun s z _ H => none_is_not_some _ _ H;
  other_whole_float := fun s z H _ => none_is_not_some _ _ H;
  round_float_sign := fun q H => H;
  round_float_whole := fun z _ => Qeq_refl (inject_Z z);
  round_float_large :=
    fun q H =>
      Qle_trans _ _ _
        (Qle_bool_imp_le (inject_Z int64_bound) (inject_Z uint64_bound)
           (eq_refl true)) H
|}.

(* ================================================================== *)
(** ** Frames *)

Inductive column : Type :=
| ObjCol (cells : list (option string))   (* object dtype: text or null *)
| FloatCol (cells : list (option float))  (* float64, NaN as None *)
| IntCol (cells : list (option Z))        (* nullable Int64 *)
| BoolCol (cells : list bool).

Definition DataFrame : Type := list (string * column).

Definition columns (df : DataFrame) : list string := map fst df.

Definition nrows (c : column) : nat :=
  match c with
  | ObjCol l => List.length l
  | FloatCol l => List.length l
  | IntCol l => List.length l
  | BoolCol l => List.length l
  end.

(** Every column carrying the label. *)
Fixpoint select (label : string) (df : DataFrame) : list column :=
  match df with
  | [] => []
  | (n, c) :: r =>
      if String.eqb n label then c :: select label r else select label r
  end.

(** [df[label]] read as a Series. *)
Definition getcol (label : string) (df : DataFrame) : result column :=
  match select label df with
  | [] => Err (KeyError label)
  | [c] => Ok c
  | _ => Err (NotASeries label)
  end.

Fixpoint overwrite (label : string) (c : column) (df : DataFrame) : DataFrame :=
  match df with
  | [] => []
  | (n, c0) :: r =>
      (n, if String.eqb n label then c else c0) :: overwrite label c r
  end.

(** [df[label] = c]: the columns of that label are overwritten in place;
    a new label is appended on the right. *)
Definition setcol (label : string) (c : column) (df : DataFrame) : DataFrame :=
  match select label df with
  | [] => (df ++ [(label, c)])%list
  | _ => overwrite label c df
  end.

(** The [.str] accessor: text columns only. *)
Definition str_accessor (c : column) : result (list (option string)) :=
  match c with
  | ObjCol cells => Ok cells
  | _ => Err AttributeError
  end.

Definition getstr (label : string) (df : DataFrame)
  : result (list (option string)) :=
  c <- getcol label df ;; str_accessor c.

(** [df.loc[df[label].str.contains(pattern, na=False), label] = value]. *)
Definition assign_where (mask : string -> bool) (value : string)
  (cells : list (option string)) : list (option string) :=
  map (fun cell =>
         match cell with
         | Some s => if mask s then Some value else Some s
         | None => None
         end) cells.

Definition loc_assign (label : string) (mask : string -> bool)
  (value : string) (df : DataFrame) : result DataFrame :=
  cells <- getstr label df ;;
  Ok (setcol label (ObjCol (assign_where mask value cells)) df).

(* ================================================================== *)
(** ** Stage 1: clean_column_names *)

Definition rename_label (s : string) : string :=
  if String.eqb s "st" then "state"
  else if String.eqb s "income" then "customer_income"
  else s.

Definition map_labels (f : string -> string) (df : DataFrame) : DataFrame :=
  map (fun p => (f (fst p), snd p)) df.

(** [clean_column_names] on a frame whose labels are text, which is what
    a [DataFrame] is here: on such labels [df.columns.str] exists and
    nothing raises.  [clean_column_names_of], further down, is the
    function on any table. *)
Definition clean_column_names (df : DataFrame) : DataFrame :=
  let df := map_labels lower df in
  let df := map_labels replace_space df in
  map_labels rename_label df.

(* ================================================================== *)
(** ** Stage 2: standardize_gender *)

Definition standardize_gender (df : DataFrame) : result DataFrame :=
  df <- loc_assign "gender" (starts_in "Ff") "F" df ;;
  loc_assign "gender" (starts_in "Mm") "M" df.

(* ================================================================== *)
(** ** Stage 3: standardize_state *)

Definition state_mapping : list (string * string) :=
  [("AL", "ALABAMA"); ("AK", "ALASKA"); ("AZ", "ARIZONA"); ("AR", "ARKANSAS");
   ("CA", "CALIFORNIA"); ("CALI", "CALIFORNIA");
   ("CO", "COLORADO"); ("CT", "CONNECTICUT"); ("DE", "DELAWARE");
   ("FL", "FLORIDA"); ("GA", "GEORGIA");
   ("HI", "HAWAII"); ("ID", "IDAHO"); ("IL", "ILLINOIS"); ("IN", "INDIANA");
   ("IA", "IOWA");
   ("KS", "KANSAS"); ("KY", "KENTUCKY"); ("LA", "LOUISIANA"); ("ME", "MAINE");
   ("MD", "MARYLAND");
   ("MA", "MASSACHUSETTS"); ("MI", "MICHIGAN"); ("MN", "MINNESOTA");
   ("MS", "MISSISSIPPI"); ("MO", "MISSOURI");
   ("MT", "MONTANA"); ("NE", "NEBRASKA"); ("NV", "NEVADA");
   ("NH", "NEW HAMPSHIRE"); ("NJ", "NEW JERSEY");
   ("NM", "NEW MEXICO"); ("NY", "NEW YORK"); ("NC", "NORTH CAROLINA");
   ("ND", "NORTH DAKOTA"); ("OH", "OHIO");
   ("OK", "OKLAHOMA"); ("OR", "OREGON"); ("PA", "PENNSYLVANIA");
   ("RI", "RHODE ISLAND"); ("SC", "SOUTH CAROLINA");
   ("SD", "SOUTH DAKOTA"); ("TN", "TENNESSEE"); ("TX", "TEXAS"); ("UT", "UTAH");
   ("VT", "VERMONT");
   ("VA", "VIRGINIA"); ("WA", "WASHINGTON"); ("WV", "WEST VIRGINIA");
   ("WI", "WISCONSIN"); ("WY", "WYOMING")].

Fixpoint lookup (k : string) (m : list (string * string)) : option string :=
  match m with
  | [] => None
  | (k', v) :: r => if String.eqb k' k then Some v else lookup k r
  end.

(** [Series.replace(mapping)] on one cell: a cell equal to a key becomes
    the key's value, any other cell is kept. *)
Definition replace_cell (m : list (string * string)) (s : string) : string :=
  match lookup s m with
  | Some v => v
  | None => s
  end.

Definition standardize_state (df : DataFrame) : result DataFrame :=
  cells <- getstr "state" df ;;
  let uppered := map (option_map upper) cells in
  let replaced := map (option_map (replace_cell state_mapping)) uppered in
  Ok (setcol "state" (ObjCol replaced) df).

(* ================================================================== *)
(** ** Stage 4: standardize_education *)

Definition standardize_education (df : DataFrame) : result DataFrame :=
  loc_assign "education" (starts_in "Bb") "Bachelor" df.

(* ================================================================== *)
(** ** Stage 5: standardize_vehicle_class *)

Definition standardize_vehicle_class (df : DataFrame) : result DataFrame :=
  df <- loc_assign "vehicle_class" (starts_in "Lu") "Luxury" df ;;
  loc_assign "vehicle_class" (contains_word "Sports") "Luxury" df.

(* ================================================================== *)
(** ** Tables with any labels *)

(** A table as the loader hands it over: with text labels, or with the
    positional integer labels pandas gives a frame built without names
    ([pd.DataFrame()] has none at all).  Labels of mixed kinds are not
    modelled. *)
Inductive Table : Type :=
| TextTable (df : DataFrame)
| PositionalTable (cols : list column).

(** [clean_column_names] on any table: [df.columns.str] exists on text
    labels only. *)
Definition clean_column_names_of (t : Table) : result DataFrame :=
  match t with
  | TextTable df => Ok (clean_column_names df)
  | PositionalTable _ => Err AttributeError
  end.

Section Pipeline.

Context {pandas : Pandas}.

(* ================================================================== *)
(** ** Float arithmetic *)

(** The float64 of a rational within range. *)
Definition to_float64 (q : Q) : float := Finite (Qred (round_float q)).

(** The float64 of an exact result: an infinity at or beyond the overflow
    threshold. *)
Definition overflow (q : Q) : float :=
  if Qle_bool float_overflow (Qabs q)
  then Inf (Z.ltb (Qnum q) 0)
  else to_float64 q.

(** Float addition; [None] is NaN. *)
Definition fadd (a b : float) : option float :=
  match a, b with
  | Finite x, Finite y => Some (overflow (x + y))
  | Finite _, Inf n => Some (Inf n)
  | Inf n, Finite _ => Some (Inf n)
  | Inf n, Inf m => if Bool.eqb n m then Some (Inf n) else None
  end.

Definition fhalf (a : float) : float :=
  match a with
  | Finite q => to_float64 (q / 2)
  | Inf n => Inf n
  end.

Definition float_of_Z (z : Z) : float := to_float64 (inject_Z z).

(** [Series.median()], nulls skipped: the middle value of the sorted
    non-null cells, the mean of the two middle ones when their number is
    even, and NaN when there is none or when the two middle ones are
    infinities of opposite sign. *)
Definition median (cells : list (option float)) : option float :=
  let s := sort_values (dropna cells) in
  let n := List.length s in
  match n with
  | O => None
  | _ =>
      if Nat.odd n
      then Some (nth (n / 2) s (Finite 0))
      else option_map fhalf
             (fadd (nth (n / 2 - 1) s (Finite 0)) (nth (n / 2) s (Finite 0)))
  end.

(* ================================================================== *)
(** ** Stage 6: clean_and_convert_numerical *)

(** [pd.to_numeric(..., errors='coerce')] on one text, as a float: the
    empty text and a text holding a character no numeral has are NaN, a
    plain decimal literal is the float of its value, and any other text is
    what the library makes of it. *)
Definition to_numeric (s : string) : option float :=
  match s with
  | EmptyString => None
  | _ =>
      match decimal_literal s with
      | Some q => Some (to_float64 q)
      | None =>
          if string_forall numeral_char s then other_spellings s else None
      end
  end.

Definition to_numeric_cell (cell : option string) : option float :=
  match cell with
  | Some s => to_numeric s
  | None => None
  end.

(** The integer [pd.to_numeric] reads from a text it reads as a whole
    number: the value of a whole-number literal, or what the library
    makes of another spelling. *)
Definition whole_of (s : string) : option Z :=
  match s with
  | EmptyString => None
  | _ =>
      match whole_literal s with
      | Some z => Some z
      | None =>
          match decimal_literal s with
          | Some _ => None
          | None =>
              if string_forall numeral_char s then other_whole s else None
          end
      end
  end.

(** The values of a column in which every cell is read as a whole number;
    [None] when a cell is null or read otherwise. *)
Fixpoint whole_cells (cells : list (option string)) : option (list Z) :=
  match cells with
  | [] => Some []
  | Some s :: r =>
      match whole_of s, whole_cells r with
      | Some z, Some l => Some (z :: l)
      | _, _ => None
      end
  | None :: _ => None
  end.

(** [pd.to_numeric(column, errors='coerce')].  A text column of
    whole numbers that all fit int64, or all fit uint64, keeps their exact
    values; any other text column becomes float64, cell by cell.  A
    column of numbers is kept. *)
Definition to_numeric_col (c : column) : numeric :=
  match c with
  | ObjCol cells =>
      match whole_cells cells with
      | Some zs =>
          if forallb in_int64 zs || forallb in_uint64 zs
          then Whole (map Some zs)
          else Real (map to_numeric_cell cells)
      | None => Real (map to_numeric_cell cells)
      end
  | FloatCol cells => Real cells
  | IntCol cells => Whole cells
  | BoolCol cells => Whole (map (fun b : bool => Some (if b then 1 else 0)%Z) cells)
  end.

(** [.astype('float64')]: whole numbers are rounded, floats are kept. *)
Definition astype_float64 (n : numeric) : list (option float) :=
  match n with
  | Whole cells => map (option_map float_of_Z) cells
  | Real cells => cells
  end.

(** One value on its way to Int64: a whole number outside the 64-bit
    range cannot be cast, nor can a float that is not such a whole
    number. *)
Definition cast_whole (z : Z) : result Z :=
  if in_int64 z then Ok z else Err TypeError.

Definition cast_real (x : float) : result Z :=
  match integer_of x with
  | Some z => cast_whole z
  | None => Err TypeError
  end.

Fixpoint astype_cells {A : Type} (cast : A -> result Z)
  (cells : list (option A)) : result (list (option Z)) :=
  match cells with
  | [] => Ok []
  | None :: r => l <- astype_cells cast r ;; Ok (None :: l)
  | Some x :: r =>
      z <- cast x ;;
      l <- astype_cells cast r ;;
      Ok (Some z :: l)
  end.

(** [.astype('Int64')]: a null or NaN becomes the null, every other cell
    is cast, and the whole cast fails when one cell cannot be. *)
Definition astype_Int64 (n : numeric) : result (list (option Z)) :=
  match n with
  | Whole cells => astype_cells cast_whole cells
  | Real cells => astype_cells cast_real cells
  end.

Definition clean_and_convert_numerical (df : DataFrame) : result DataFrame :=
  clv <- getstr "customer_lifetime_value" df ;;
  let df := setcol "customer_lifetime_value"
              (ObjCol (map (option_map (rstrip "%")) clv)) df in
  clv <- getcol "customer_lifetime_value" df ;;
  let df := setcol "customer_lifetime_value"
              (FloatCol (astype_float64 (to_numeric_col clv))) df in
  noc <- getstr "number_of_open_complaints" df ;;
  let df := setcol "number_of_open_complaints"
              (ObjCol (map (fun cell => match cell with
                                        | Some s => extract s
                                        | None => None
                                        end) noc)) df in
  noc <- getcol "number_of_open_complaints" df ;;
  ints <- astype_Int64 (to_numeric_col noc) ;;
  Ok (setcol "number_of_open_complaints" (IntCol ints) df).

(* ================================================================== *)
(** ** Stage 7: handle_missing_values *)

Definition categorical_cols : list string :=
  ["customer"; "state"; "gender"; "education"; "policy_type"; "vehicle_class"].

Definition numerical_cols : list string :=
  ["total_claim_amount"; "monthly_premium_auto"; "customer_income";
   "customer_lifetime_value"].

Definition fill {A : Type} (v : A) (cells : list (option A)) : list (option A) :=
  map (fun cell => match cell with
                   | Some x => Some x
                   | None => Some v
                   end) cells.

(** [Series.isnull()]. *)
Definition isnull (c : column) : list bool :=
  match c with
  | ObjCol cells => map (fun x => match x with None => true | Some _ => false end) cells
  | FloatCol cells => map (fun x => match x with None => true | Some _ => false end) cells
  | IntCol cells => map (fun x => match x with None => true | Some _ => false end) cells
  | BoolCol cells => map (fun _ => false) cells
  end.

Definition has_null (c : column) : bool := existsb (fun b => b) (isnull c).

(** [column.fillna('Unknown')].  A numeric column with nulls would come
    out holding both text and numbers, which a typed column cannot hold:
    the model reports it as a [TypeError]. *)
Definition fillna_text (v : string) (c : column) : result column :=
  match c with
  | ObjCol cells => Ok (ObjCol (fill v cells))
  | _ => if has_null c then Err TypeError else Ok c
  end.

(** [fillna] with a float that may be NaN: filling with NaN changes
    nothing. *)
Definition fill_opt {A : Type} (v : option A) (cells : list (option A))
  : list (option A) :=
  match v with
  | Some x => fill x cells
  | None => cells
  end.

(** [column.fillna(column.median())].  The median of a text column is
    not defined; an Int64 column takes only a whole-number median. *)
Definition fillna_median (c : column) : result column :=
  match c with
  | FloatCol cells => Ok (FloatCol (fill_opt (median cells) cells))
  | IntCol cells =>
      match median (map (option_map float_of_Z) cells) with
      | None => Ok c
      | Some m =>
          if has_null c then
            match integer_of m with
            | Some z => Ok (IntCol (fill z cells))
            | None => Err TypeError
            end
          else Ok c
      end
  | BoolCol _ => Ok c
  | ObjCol _ => Err TypeError
  end.

(** One turn of a [for col in ...: df[col] = f(df[col])] loop. *)
Definition update_col (f : column -> result column) (label : string)
  (df : DataFrame) : result DataFrame :=
  c <- getcol label df ;;
  c' <- f c ;;
  Ok (setcol label c' df).

Fixpoint for_each (f : column -> result column) (labels : list string)
  (df : DataFrame) : result DataFrame :=
  match labels with
  | [] => Ok df
  | l :: r => df <- update_col f l df ;; for_each f r df
  end.

Definition handle_missing_values (df : DataFrame) : result DataFrame :=
  df <- for_each (fillna_text "Unknown") categorical_cols df ;;
  df <- for_each fillna_median numerical_cols df ;;
  noc <- getcol "number_of_open_complaints" df ;;
  Ok (setcol "complaints_missing" (BoolCol (isnull noc)) df).

(* ================================================================== *)
(** ** The pipeline *)

(** Stages 1 to 6, the frame handed to the missing-value filler. *)
Definition stages_1_to_6 (df : DataFrame) : result DataFrame :=
  let df := clean_column_names df in
  df <- standardize_gender df ;;
  df <- standardize_state df ;;
  df <- standardize_education df ;;
  df <- standardize_vehicle_class df ;;
  clean_and_convert_numerical df.

Definition main_cleaning_pipeline (df : DataFrame) : result DataFrame :=
  let df := clean_column_names df in
  df <- standardize_gender df ;;
  df <- standardize_state df ;;
  df <- standardize_education df ;;
  df <- standardize_vehicle_class df ;;
  df <- clean_and_convert_numerical df ;;
  handle_missing_values df.

(** The pipeline on any table: stage 1 is the one that needs text
    labels. *)
Definition main_cleaning_pipeline_of (t : Table) : result DataFrame :=
  df <- clean_column_names_of t ;;
  df <- standardize_gender df ;;
  df <- standardize_state df ;;
  df <- standardize_education df ;;
  df <- standardize_vehicle_class df ;;
  df <- clean_and_convert_numerical df ;;
  handle_missing_values df.

(* ================================================================== *)
(** ** Sample frames *)

(** The one-row frame of the end-to-end example; the columns the example
    leaves open are arguments. *)
Definition example_row (customer policy_type : string) (tca mpa income : Q)
  : DataFrame :=
  [("customer", ObjCol [Some customer]);
   ("state", ObjCol [Some "ca"]);
   ("gender", ObjCol [Some "female"]);
   ("education", ObjCol [Some "Bach of Science"]);
   ("customer_lifetime_value", ObjCol [Some "897.23%"]);
   ("customer_income", FloatCol [Some (Finite income)]);
   ("monthly_premium_auto", FloatCol [Some (Finite mpa)]);
   ("number_of_open_complaints", ObjCol [Some "1/5/00"]);
   ("policy_type", ObjCol [Some policy_type]);
   ("vehicle_class", ObjCol [Some "luxury car"]);
   ("total_claim_amount", FloatCol [Some (Finite tca)])].

(** A raw frame with the headers of the customer file, four rows. *)
Definition raw_frame : DataFrame :=
  [("Customer", ObjCol [Some "RB50392"; Some "QZ44356"; None; Some "AI49188"]);
   ("ST", ObjCol [Some "Washington"; Some "az"; Some "Cali"; None]);
   ("GENDER", ObjCol [None; Some "Femal"; Some "male"; Some "x"]);
   ("Education", ObjCol [Some "Master"; Some "Bachelors"; None; Some "bachelor"]);
   ("Customer Lifetime Value",
      ObjCol [None; Some "697953.59%"; Some "12.5%%"; Some "n/a"]);
   ("Income", FloatCol [Some (Finite 0); None; Some (Finite 48767); Some (Finite 36357)]);
   ("Monthly Premium Auto", FloatCol [Some (Finite 1000); Some (Finite 94); Some (Finite 108); None]);
   ("Number of Open Complaints",
      ObjCol [Some "1/0/00"; Some "bogus"; None; Some "1/2/00"]);
   ("Policy Type", ObjCol [Some "Personal Auto"; None; Some "Corporate Auto"; Some "x"]);
   ("Vehicle Class",
      ObjCol [Some "Four-Door Car"; Some "Sports Car"; Some "Luxury SUV"; None]);
   ("Total Claim Amount", FloatCol [Some (Finite (27 # 10)); Some (Finite 1131); None; Some (Finite 566)])].

(* ================================================================== *)
(** ** Vocabulary of the statements *)

(** [df'] has the labels of [df] in the same order, every column keeps its
    number of rows, and every column not labelled [l] is the same. *)
Definition same_except (l : string) (df df' : DataFrame) : Prop :=
  Forall2 (fun p q => fst p = fst q
                      /\ nrows (snd p) = nrows (snd q)
                      /\ (fst p <> l -> snd p = snd q)) df df'.

Definition assign (mask : string -> bool) (value s : string) : string :=
  if mask s then value else s.

(** [stage] reads the text column [l], fails when it cannot, and otherwise
    overwrites it with [f] applied to every non-null cell. *)
Definition text_stage (stage : DataFrame -> result DataFrame) (l : string)
  (f : string -> string) : Prop :=
  forall df,
    match getstr l df with
    | Ok cells => stage df = Ok (overwrite l (ObjCol (map (option_map f) cells)) df)
    | Err e => stage df = Err e
    end.

Definition gender_cell (s : string) : string :=
  assign (starts_in "Mm") "M" (assign (starts_in "Ff") "F" s).

Definition state_cell (s : string) : string :=
  replace_cell state_mapping (upper s).

Definition education_cell (s : string) : string :=
  assign (starts_in "Bb") "Bachelor" s.

Definition vehicle_cell (s : string) : string :=
  assign (contains_word "Sports") "Luxury" (assign (starts_in "Lu") "Luxury" s).

(** The first character of [v] exists and is one of [set]. *)
Definition first_char_in (set : list ascii) (v : string) : Prop :=
  exists c r, v = String c r /\ In c set.

Fixpoint last_char (prev : option ascii) (pre : string) : option ascii :=
  match pre with
  | EmptyString => prev
  | String c r => last_char (Some c) r
  end.

Definition boundary_after (post : string) : bool :=
  match post with
  | EmptyString => true
  | String c _ => negb (is_word c)
  end.

(** [w] occurs in [v] with no word character directly before or after. *)
Definition standalone_word (w v : string) : Prop :=
  exists pre post,
    v = pre ++ w ++ post
    /\ boundary_before (last_char None pre) = true
    /\ boundary_after post = true.

Definition state_codes : list string := map fst state_mapping.
Definition state_names : list string := map snd state_mapping.

(** The frame of an evaluated stage, for closed examples. *)
Definition the_frame (r : result DataFrame) : DataFrame :=
  match r with
  | Ok df => df
  | Err _ => []
  end.

Definition single_column_stages
  : list ((DataFrame -> result DataFrame) * string) :=
  [(standardize_gender, "gender");
   (standardize_state, "state");
   (standardize_education, "education");
   (standardize_vehicle_class, "vehicle_class")].

(** The rule relating a cell of [vehicle_class] before the stage to the
    cell after it, for a leading character class [set]. *)
Definition vehicle_rule (set : list ascii) (cell cell' : option string) : Prop :=
  match cell with
  | None => cell' = None
  | Some v =>
      (first_char_in set v \/ standalone_word "Sports" v ->
       cell' = Some "Luxury")
      /\ (~ (first_char_in set v \/ standalone_word "Sports" v) ->
          cell' = Some v)
  end.

Definition vehicle_sample : DataFrame :=
  [("customer", ObjCol [Some "A"; Some "B"; Some "C"; Some "D"; Some "E"; None]);
   ("vehicle_class",
      ObjCol [Some "Luxury SUV"; Some "Sports Car"; Some "upscale";
              Some "luxury car"; Some "Upscale"; None])].

(** The rule relating a cell of [state] before the stage to the cell after
    it. *)
Definition state_rule (cell cell' : option string) : Prop :=
  match cell with
  | None => cell' = None
  | Some v =>
      (forall full, In (upper v, full) state_mapping -> cell' = Some full)
      /\ (~ In (upper v) state_codes -> cell' = Some (upper v))
  end.

Definition two_upper_letters (k : string) : bool :=
  match k with
  | String a (String b EmptyString) => is_upper a && is_upper b
  | _ => false
  end.

Fixpoint percents (k : nat) : string :=
  match k with
  | O => EmptyString
  | S k' => String "%"%char (percents k')
  end.

Definition ends_with (c : ascii) (s : string) : Prop :=
  exists r, s = r ++ String c EmptyString.

(** [s] is [pre], a slash, the non-empty digit string [d], a slash and
    [post]: a match of [/(\d+)/] in [s] that starts after [pre]. *)
Definition token_match (s pre d post : string) : Prop :=
  s = pre ++ "/" ++ d ++ "/" ++ post
  /\ d <> ""
  /\ all_digits d = true.

Definition leftmost_token (s pre d post : string) : Prop :=
  token_match s pre d post
  /\ forall pre' d' post',
       token_match s pre' d' post' -> String.length pre <= String.length pre'.

Definition lifetime_cell (cell : option string) : option float :=
  match cell with
  | Some s => to_numeric (rstrip "%" s)
  | None => None
  end.

(** [str.extract] on a cell of the complaints column. *)
Definition extract_cell (cell : option string) : option string :=
  match cell with
  | Some s => extract s
  | None => None
  end.

(** The complaints column between [pd.to_numeric] and [astype]. *)
Definition token_numbers (noc : list (option string)) : numeric :=
  to_numeric_col (ObjCol (map extract_cell noc)).

(** Every digit token of the column has at most [n] digits. *)
Definition short_tokens (n : nat) (noc : list (option string)) : bool :=
  forallb (fun cell => match extract_cell cell with
                       | Some d => Nat.leb (String.length d) n
                       | None => true
                       end) noc.

(** The integer of a complaints cell: the value of its digit token. *)
Definition complaints_cell (cell : option string) : option Z :=
  match cell with
  | Some s => option_map digits_value (extract s)
  | None => None
  end.

(** The rule relating a text cell of [number_of_open_complaints] to the
    integer cell after the stage. *)
Definition complaints_rule (cell : option string) (cell' : option Z) : Prop :=
  match cell with
  | None => cell' = None
  | Some s =>
      (cell' = None /\ forall pre d post, ~ token_match s pre d post)
      \/ (exists pre d post,
            leftmost_token s pre d post /\ cell' = Some (digits_value d))
  end.

Definition CLV : string := "customer_lifetime_value".
Definition NOC : string := "number_of_open_complaints".

(** The rule relating a text cell of [customer_lifetime_value] to the
    float cell after the stage: what is parsed is the text without its
    trailing percent signs. *)
Definition lifetime_rule (cell : option string) (cell' : option float) : Prop :=
  match cell with
  | None => cell' = None
  | Some s =>
      exists body k,
        s = body ++ percents k
        /\ ~ ends_with "%"%char body
        /\ cell' = to_numeric body
  end.

Definition sample_clv : list (option string) :=
  [Some "12.5%%"; Some "897.23%"; Some "n/a"; None; Some "%"; Some "-3e2"].

Definition sample_noc : list (option string) :=
  [Some "1/5/00"; Some "bogus"; None; Some "1//2"; Some "a/007/";
   Some "/x/12/3/"].

Definition numeric_sample : DataFrame :=
  [("customer_lifetime_value", ObjCol sample_clv);
   ("number_of_open_complaints", ObjCol sample_noc)].

Definition no_null {A : Type} (cells : list (option A)) : bool :=
  forallb (fun x => match x with Some _ => true | None => false end) cells.

(** A column with a cell that is neither null nor an infinity. *)
Definition has_finite (c : column) : bool :=
  match c with
  | ObjCol cells =>
      existsb (fun x => match x with Some _ => true | None => false end) cells
  | FloatCol cells =>
      existsb (fun x => match x with
                        | Some (Finite _) => true
                        | _ => false
                        end) cells
  | IntCol cells =>
      existsb (fun x => match x with Some _ => true | None => false end) cells
  | BoolCol cells => negb (Nat.eqb (List.length cells) 0)
  end.

Definition FLAG : string := "complaints_missing".

Definition inb (l : string) (ls : list string) : bool :=
  existsb (String.eqb l) ls.

(** The input the filler is written for: text in the categorical columns,
    floats in the numerical ones, and a complaints column. *)
Definition is_text_col (r : result column) : bool :=
  match r with
  | Ok (ObjCol _) => true
  | _ => false
  end.

Definition is_float_col (r : result column) : bool :=
  match r with
  | Ok (FloatCol _) => true
  | _ => false
  end.

Definition is_ok {A : Type} (r : result A) : bool :=
  match r with
  | Ok _ => true
  | Err _ => false
  end.

Definition filler_ready (df : DataFrame) : bool :=
  forallb (fun l => is_text_col (getcol l df)) categorical_cols
  && forallb (fun l => is_float_col (getcol l df)) numerical_cols
  && is_ok (getcol NOC df).

(** The frame the filler receives when the pipeline runs on [raw_frame]. *)
Definition coerced_frame : DataFrame := the_frame (stages_1_to_6 raw_frame).

(** A frame with every required column in which no income is known. *)
Definition no_income_frame : DataFrame :=
  [("customer", ObjCol [Some "RB50392"; None]);
   ("state", ObjCol [Some "WASHINGTON"; Some "ARIZONA"]);
   ("gender", ObjCol [None; Some "F"]);
   ("education", ObjCol [Some "Master"; Some "Bachelor"]);
   ("customer_lifetime_value", FloatCol [Some (Finite 7000); None]);
   ("customer_income", FloatCol [None; None]);
   ("monthly_premium_auto", FloatCol [Some (Finite 94); Some (Finite 108)]);
   ("number_of_open_complaints", IntCol [Some 0%Z; None]);
   ("policy_type", ObjCol [Some "Personal Auto"; Some "Corporate Auto"]);
   ("vehicle_class", ObjCol [Some "Luxury"; Some "SUV"]);
   ("total_claim_amount", FloatCol [Some (Finite 2); Some (Finite 1131)])].

Definition space_char (c : ascii) : ascii :=
  if Ascii.eqb c " "%char then "_"%char else c.

(** A label after the first two steps of stage 1. *)
Definition plain_label (s : string) : string := replace_space (lower s).

Definition clean_label (s : string) : string := rename_label (plain_label s).

Definition idempotent_stages : list (DataFrame -> result DataFrame) :=
  [standardize_gender; standardize_state; standardize_education;
   standardize_vehicle_class; handle_missing_values].

(** The columns each stage reads by label. *)
Definition referenced_columns
  : list ((DataFrame -> result DataFrame) * list string) :=
  [(standardize_gender, ["gender"]);
   (standardize_state, ["state"]);
   (standardize_education, ["education"]);
   (standardize_vehicle_class, ["vehicle_class"]);
   (clean_and_convert_numerical,
      ["customer_lifetime_value"; "number_of_open_complaints"]);
   (handle_missing_values,
      (categorical_cols ++ numerical_cols
         ++ ["number_of_open_complaints"])%list)].

(* ================================================================== *)
(** ** Vocabulary of the further properties *)

(** A character a cleaned label may hold: no upper-case letter, no space. *)
Definition label_char (c : ascii) : bool :=
  negb (is_upper c) && negb (Ascii.eqb c " "%char).

(** The rule relating a cell of [gender] before stage 2 to the cell after
    it. *)
Definition gender_rule (cell cell' : option string) : Prop :=
  match cell with
  | None => cell' = None
  | Some v =>
      (first_char_in ["F"; "f"]%char v -> cell' = Some "F")
      /\ (first_char_in ["M"; "m"]%char v -> cell' = Some "M")
      /\ (~ first_char_in ["F"; "f"; "M"; "m"]%char v -> cell' = Some v)
  end.

(** The rule relating a cell of [education] before stage 4 to the cell
    after it. *)
Definition education_rule (cell cell' : option string) : Prop :=
  match cell with
  | None => cell' = None
  | Some v =>
      (first_char_in ["B"; "b"]%char v -> cell' = Some "Bachelor")
      /\ (~ first_char_in ["B"; "b"]%char v -> cell' = Some v)
  end.

(** [df'] has the labels of [df] in the same order, every column keeps its
    number of rows, and every column whose label is not in [ls] is the
    same. *)
Definition same_outside (ls : list string) (df df' : DataFrame) : Prop :=
  Forall2 (fun p q => fst p = fst q
                      /\ nrows (snd p) = nrows (snd q)
                      /\ (~ In (fst p) ls -> snd p = snd q)) df df'.

(** The columns the stages 2 to 6 read through the [.str] accessor. *)
Definition text_read_cols : list string :=
  ["gender"; "state"; "education"; "vehicle_class";
   "customer_lifetime_value"; "number_of_open_complaints"].

(** Every column some stage reads by label. *)
Definition required_cols : list string :=
  (categorical_cols ++ numerical_cols ++ ["number_of_open_complaints"])%list.

(** A raw frame the pipeline is written for: once the labels are cleaned,
    the text-read columns, the customer and the policy type are text and
    the three amounts are floats. *)
Definition pipeline_ready (df : DataFrame) : bool :=
  let d := clean_column_names df in
  forallb (fun l => is_text_col (getcol l d))
    (text_read_cols ++ ["customer"; "policy_type"])%list
  && forallb (fun l => is_float_col (getcol l d))
       ["total_claim_amount"; "monthly_premium_auto"; "customer_income"].

(** A cell of any column, whatever the dtype. *)
Inductive value : Type :=
| VText (s : string)
| VFloat (x : float)
| VInt (z : Z)
| VBool (b : bool).

Definition cells_of (c : column) : list (option value) :=
  match c with
  | ObjCol l => map (option_map VText) l
  | FloatCol l => map (option_map VFloat) l
  | IntCol l => map (option_map VInt) l
  | BoolCol l => map (fun b => Some (VBool b)) l
  end.

(** [c'] is as long as [c] and holds every non-null cell of [c] at its
    row. *)
Definition keeps_values (c c' : column) : Prop :=
  nrows c' = nrows c
  /\ forall i v, nth_error (cells_of c) i = Some (Some v) ->
                 nth_error (cells_of c') i = Some (Some v).

(** The four normalized text columns with the function each stage applies
    to a non-null cell. *)
Definition normalizers : list (string * (string -> string)) :=
  [("gender", gender_cell); ("state", state_cell);
   ("education", education_cell); ("vehicle_class", vehicle_cell)].

(** [raw_frame] with one more column, which no stage reads. *)
Definition wide_frame : DataFrame :=
  (raw_frame
     ++ [("Number of Policies", IntCol [Some 1%Z; None; Some 3%Z; Some 2%Z])])%list.

(** A frame whose complaints column holds a token beyond the 64-bit
    range. *)
Definition overflow_sample : DataFrame :=
  [("customer_lifetime_value", ObjCol [Some "897.23%"; Some "12.5"]);
   ("number_of_open_complaints",
      ObjCol [Some "1/99999999999999999999/00"; Some "1/5/00"])].

(* ================================================================== *)
(** * Properties *)

(** ** The definitions on the examples of the specification *)

(** ** Results *)

Lemma bind_ok {A B : Type} (r : result A) (k : A -> result B) (b : B) :
  bind r k = Ok b -> exists a, r = Ok a /\ k a = Ok b.
Proof.
  destruct r as [a | e]; simpl; intros H.
  - exists a; split; [reflexivity | exact H].
  - discriminate H.
Qed.

Lemma bind_raises {A B : Type} (r : result A) (k : A -> result B) :
  raises r -> raises (bind r k).
Proof.
  intros [e He]; rewrite He; exists e; reflexivity.
Qed.

Lemma result_cases {A : Type} (r : result A) :
  raises r \/ exists a, r = Ok a.
Proof.
  destruct r as [a | e]; [right; exists a | left; exists e]; reflexivity.
Qed.

Ltac invert_bind H :=
  let a := fresh "x" in
  let Ha := fresh "Hx" in
  apply bind_ok in H; destruct H as [a [Ha H]].

(** ** Selecting and assigning columns *)

Lemma select_app (l : string) (df1 df2 : DataFrame) :
  select l (df1 ++ df2)%list = (select l df1 ++ select l df2)%list.
Proof.
  induction df1 as [| [n c] r IH]; simpl; [reflexivity |].
  destruct (String.eqb n l); simpl; rewrite IH; reflexivity.
Qed.

Lemma select_overwrite_same (l : string) (c : column) (df : DataFrame) :
  select l (overwrite l c df) = map (fun _ => c) (select l df).
Proof.
  induction df as [| [n c0] r IH]; simpl; [reflexivity |].
  destruct (String.eqb n l); simpl; rewrite IH; reflexivity.
Qed.

Lemma select_overwrite_other (l l' : string) (c : column) (df : DataFrame) :
  l' <> l -> select l' (overwrite l c df) = select l' df.
Proof.
  intros Hne.
  induction df as [| [n c0] r IH]; simpl; [reflexivity |].
  destruct (String.eqb n l') eqn:E'; rewrite IH; [| reflexivity].
  apply String.eqb_eq in E'; subst n.
  destruct (String.eqb l' l) eqn:E; [| reflexivity].
  apply String.eqb_eq in E; contradiction.
Qed.

Lemma overwrite_absent (l : string) (c : column) (df : DataFrame) :
  select l df = [] -> overwrite l c df = df.
Proof.
  induction df as [| [n c0] r IH]; simpl; [reflexivity |].
  destruct (String.eqb n l); [discriminate |].
  intros H; rewrite (IH H); reflexivity.
Qed.

Lemma overwrite_fixed (l : string) (c : column) (df : DataFrame) :
  (forall c0, In c0 (select l df) -> c0 = c) -> overwrite l c df = df.
Proof.
  induction df as [| [n c0] r IH]; simpl; [reflexivity |].
  destruct (String.eqb n l); intros H.
  - rewrite IH by (intros; apply H; right; assumption).
    rewrite (H c0) by (left; reflexivity). reflexivity.
  - rewrite IH by assumption. reflexivity.
Qed.

Lemma overwrite_app (l : string) (c : column) (df1 df2 : DataFrame) :
  overwrite l c (df1 ++ df2)%list
  = (overwrite l c df1 ++ overwrite l c df2)%list.
Proof.
  induction df1 as [| [n c0] r IH]; simpl; [reflexivity |].
  rewrite IH; reflexivity.
Qed.

Lemma overwrite_twice (l : string) (c c' : column) (df : DataFrame) :
  overwrite l c (overwrite l c' df) = overwrite l c df.
Proof.
  induction df as [| [n c0] r IH]; simpl; [reflexivity |].
  rewrite IH. destruct (String.eqb n l); reflexivity.
Qed.

Lemma columns_overwrite (l : string) (c : column) (df : DataFrame) :
  columns (overwrite l c df) = columns df.
Proof.
  unfold columns.
  induction df as [| [n c0] r IH]; simpl; [reflexivity |].
  rewrite IH; reflexivity.
Qed.

Lemma select_nil_iff (l : string) (df : DataFrame) :
  select l df = [] <-> ~ In l (columns df).
Proof.
  induction df as [| [n c] r IH]; simpl.
  - split; [intros _ [] | reflexivity].
  - destruct (String.eqb n l) eqn:E.
    + apply String.eqb_eq in E. split; [discriminate | intros H; exfalso; auto].
    + apply String.eqb_neq in E. rewrite IH. tauto.
Qed.

Lemma getcol_ok_select (l : string) (df : DataFrame) (c : column) :
  getcol l df = Ok c <-> select l df = [c].
Proof.
  unfold getcol. destruct (select l df) as [| c0 [| c1 r]]; split; intros H;
    try discriminate H; congruence.
Qed.

Lemma getcol_absent (l : string) (df : DataFrame) :
  select l df = [] -> getcol l df = Err (KeyError l).
Proof.
  unfold getcol; intros ->; reflexivity.
Qed.

Lemma select_setcol_other (l l' : string) (c : column) (df : DataFrame) :
  l' <> l -> select l' (setcol l c df) = select l' df.
Proof.
  intros Hne. unfold setcol.
  destruct (select l df) eqn:E.
  - rewrite select_app. simpl.
    destruct (String.eqb l l') eqn:E'.
    + apply String.eqb_eq in E'; congruence.
    + apply app_nil_r.
  - apply select_overwrite_other; assumption.
Qed.

Lemma getcol_setcol_other (l l' : string) (c : column) (df : DataFrame) :
  l' <> l -> getcol l' (setcol l c df) = getcol l' df.
Proof.
  intros Hne. unfold getcol. rewrite select_setcol_other by assumption.
  reflexivity.
Qed.

Lemma setcol_present (l : string) (c c0 : column) (df : DataFrame) :
  getcol l df = Ok c0 -> setcol l c df = overwrite l c df.
Proof.
  intros H. apply getcol_ok_select in H. unfold setcol. rewrite H. reflexivity.
Qed.

Lemma getcol_setcol_same (l : string) (c c0 : column) (df : DataFrame) :
  getcol l df = Ok c0 -> getcol l (setcol l c df) = Ok c.
Proof.
  intros H. rewrite (setcol_present _ _ _ _ H).
  apply getcol_ok_select in H. apply getcol_ok_select.
  rewrite select_overwrite_same, H. reflexivity.
Qed.

Lemma setcol_getcol_id (l : string) (c : column) (df : DataFrame) :
  getcol l df = Ok c -> setcol l c df = df.
Proof.
  intros H. rewrite (setcol_present _ _ _ _ H).
  apply getcol_ok_select in H. apply overwrite_fixed.
  rewrite H. intros c0 [<- | []]. reflexivity.
Qed.

Lemma select_setcol_same (l : string) (c : column) (df : DataFrame) :
  exists k, select l (setcol l c df) = repeat c (S k).
Proof.
  unfold setcol. destruct (select l df) as [| c0 r] eqn:E.
  - exists 0. rewrite select_app, E. simpl. rewrite String.eqb_refl. reflexivity.
  - exists (List.length r). rewrite select_overwrite_same, E. simpl.
    f_equal. clear E. induction r; simpl; congruence.
Qed.

Lemma setcol_idem (l : string) (c : column) (df : DataFrame) :
  setcol l c (setcol l c df) = setcol l c df.
Proof.
  destruct (select_setcol_same l c df) as [k Hk].
  unfold setcol at 1. rewrite Hk. simpl.
  unfold setcol. destruct (select l df) eqn:E.
  - rewrite overwrite_app, (overwrite_absent _ _ _ E). simpl.
    rewrite String.eqb_refl. reflexivity.
  - apply overwrite_twice.
Qed.

Lemma columns_setcol_present (l : string) (c c0 : column) (df : DataFrame) :
  getcol l df = Ok c0 -> columns (setcol l c df) = columns df.
Proof.
  intros H. rewrite (setcol_present _ _ _ _ H). apply columns_overwrite.
Qed.

(** ** The frame condition of a single-column assignment *)

Lemma same_except_overwrite (l : string) (c : column) (df : DataFrame) :
  (forall c0, In c0 (select l df) -> nrows c0 = nrows c) ->
  same_except l df (overwrite l c df).
Proof.
  unfold same_except.
  induction df as [| [n c0] r IH]; simpl; intros H; constructor.
  - simpl. destruct (String.eqb n l) eqn:E.
    + apply String.eqb_eq in E.
      repeat split; [| intros Hn; contradiction].
      apply H. left; reflexivity.
    + repeat split.
  - apply IH. intros c1 Hin. apply H.
    destruct (String.eqb n l); [right |]; assumption.
Qed.

Lemma same_except_columns (l : string) (df df' : DataFrame) :
  same_except l df df' -> columns df' = columns df.
Proof.
  unfold columns. induction 1 as [| p q r r' [Hn _] _ IH]; simpl; congruence.
Qed.

Lemma same_except_select (l l' : string) (df df' : DataFrame) :
  same_except l df df' -> l' <> l -> select l' df' = select l' df.
Proof.
  intros H Hne.
  induction H as [| [n c] [n' c'] r r' [Hn [_ Hc]] _ IH]; simpl in *;
    [reflexivity |].
  subst n'. destruct (String.eqb n l') eqn:E; [| exact IH].
  apply String.eqb_eq in E. subst n. rewrite (Hc Hne), IH. reflexivity.
Qed.

(** ** Text stages: a stage that rewrites one text column cell by cell *)

Lemma assign_where_map (mask : string -> bool) (value : string)
  (cells : list (option string)) :
  assign_where mask value cells = map (option_map (assign mask value)) cells.
Proof.
  unfold assign_where, assign. apply map_ext.
  intros [s |]; simpl; [destruct (mask s) |]; reflexivity.
Qed.

Lemma map_option_map_comp {A B C : Type} (f : A -> B) (g : B -> C)
  (cells : list (option A)) :
  map (option_map g) (map (option_map f) cells)
  = map (option_map (fun s => g (f s))) cells.
Proof.
  rewrite map_map. apply map_ext. intros [s |]; reflexivity.
Qed.

Lemma map_option_map_fixed {A : Type} (f : A -> A) (cells : list (option A)) :
  (forall s, f (f s) = f s) ->
  map (option_map f) (map (option_map f) cells) = map (option_map f) cells.
Proof.
  intros Hf. rewrite map_option_map_comp. apply map_ext.
  intros [s |]; simpl; [rewrite Hf |]; reflexivity.
Qed.

Lemma getstr_ok (l : string) (df : DataFrame) (cells : list (option string)) :
  getstr l df = Ok cells <-> getcol l df = Ok (ObjCol cells).
Proof.
  unfold getstr. destruct (getcol l df) as [[] |]; simpl; split; intros H;
    try discriminate H; congruence.
Qed.

Lemma loc_assign_text_stage (l : string) (mask : string -> bool) (v : string) :
  text_stage (loc_assign l mask v) l (assign mask v).
Proof.
  intros df. unfold loc_assign.
  destruct (getstr l df) as [cells | e] eqn:E; simpl; [| reflexivity].
  apply getstr_ok in E.
  rewrite (setcol_present _ _ _ _ E), assign_where_map. reflexivity.
Qed.

Lemma getstr_overwrite (l : string) (cells cells' : list (option string))
  (df : DataFrame) :
  getstr l df = Ok cells ->
  getstr l (overwrite l (ObjCol cells') df) = Ok cells'.
Proof.
  intros H. apply getstr_ok in H. apply getstr_ok.
  rewrite <- (setcol_present _ _ _ _ H).
  apply (getcol_setcol_same _ _ _ _ H).
Qed.

Lemma text_stage_seq (s1 s2 : DataFrame -> result DataFrame) (l : string)
  (f g : string -> string) :
  text_stage s1 l f -> text_stage s2 l g ->
  text_stage (fun df => bind (s1 df) s2) l (fun s => g (f s)).
Proof.
  intros H1 H2 df. specialize (H1 df).
  destruct (getstr l df) as [cells | e] eqn:E.
  - rewrite H1. simpl.
    specialize (H2 (overwrite l (ObjCol (map (option_map f) cells)) df)).
    rewrite (getstr_overwrite _ _ _ _ E) in H2. rewrite H2.
    rewrite overwrite_twice, map_option_map_comp. reflexivity.
  - rewrite H1. reflexivity.
Qed.

Lemma text_stage_frame stage l f (df df' : DataFrame) :
  text_stage stage l f -> stage df = Ok df' -> same_except l df df'.
Proof.
  intros Hs H. specialize (Hs df).
  destruct (getstr l df) as [cells | e] eqn:E; [| congruence].
  rewrite Hs in H. injection H as <-.
  apply same_except_overwrite.
  apply getstr_ok, getcol_ok_select in E. rewrite E.
  intros c0 [<- | []]. simpl. rewrite length_map. reflexivity.
Qed.

Lemma text_stage_column stage l f (df df' : DataFrame) :
  text_stage stage l f -> stage df = Ok df' ->
  exists cells, getcol l df = Ok (ObjCol cells)
                /\ getcol l df' = Ok (ObjCol (map (option_map f) cells)).
Proof.
  intros Hs H. specialize (Hs df).
  destruct (getstr l df) as [cells | e] eqn:E; [| congruence].
  rewrite Hs in H. injection H as <-.
  exists cells. split; [apply getstr_ok; exact E |].
  apply getstr_ok. apply (getstr_overwrite _ _ _ _ E).
Qed.

Lemma text_stage_idempotent stage l f (df df' : DataFrame) :
  text_stage stage l f -> (forall s, f (f s) = f s) ->
  stage df = Ok df' -> stage df' = Ok df'.
Proof.
  intros Hs Hf H. pose proof (Hs df) as H0.
  destruct (getstr l df) as [cells | e] eqn:E; [| congruence].
  rewrite H0 in H. injection H as <-.
  specialize (Hs (overwrite l (ObjCol (map (option_map f) cells)) df)).
  rewrite (getstr_overwrite _ _ _ _ E) in Hs. rewrite Hs.
  rewrite overwrite_twice, (map_option_map_fixed _ _ Hf). reflexivity.
Qed.

Lemma text_stage_missing stage l f (df : DataFrame) :
  text_stage stage l f -> ~ In l (columns df) -> stage df = Err (KeyError l).
Proof.
  intros Hs H. specialize (Hs df). apply select_nil_iff in H.
  unfold getstr in Hs. rewrite (getcol_absent _ _ H) in Hs. exact Hs.
Qed.

(** The four single-column normalizers as text stages. *)

Lemma standardize_gender_stage :
  text_stage standardize_gender "gender" gender_cell.
Proof.
  apply (text_stage_seq _ _ _ _ _
           (loc_assign_text_stage "gender" (starts_in "Ff") "F")
           (loc_assign_text_stage "gender" (starts_in "Mm") "M")).
Qed.

Lemma standardize_state_stage :
  text_stage standardize_state "state" state_cell.
Proof.
  intros df. unfold standardize_state.
  destruct (getstr "state" df) as [cells | e] eqn:E; simpl; [| reflexivity].
  apply getstr_ok in E.
  rewrite (setcol_present _ _ _ _ E), map_option_map_comp. reflexivity.
Qed.

Lemma standardize_education_stage :
  text_stage standardize_education "education" education_cell.
Proof.
  apply loc_assign_text_stage.
Qed.

Lemma standardize_vehicle_class_stage :
  text_stage standardize_vehicle_class "vehicle_class" vehicle_cell.
Proof.
  apply (text_stage_seq _ _ _ _ _
           (loc_assign_text_stage "vehicle_class" (starts_in "Lu") "Luxury")
           (loc_assign_text_stage "vehicle_class" (contains_word "Sports")
              "Luxury")).
Qed.

(** ** What the patterns match *)

Lemma mem_char_in (c : ascii) (set : string) :
  mem_char c set = true <-> In c (list_ascii_of_string set).
Proof.
  induction set as [| d r IH]; simpl.
  - split; [discriminate | intros []].
  - rewrite orb_true_iff, IH, Ascii.eqb_eq. split; intros [H | H]; auto.
Qed.

Lemma starts_in_spec (set v : string) :
  starts_in set v = true <-> first_char_in (list_ascii_of_string set) v.
Proof.
  unfold first_char_in. destruct v as [| c r]; simpl.
  - split; [discriminate | intros [c [r [H _]]]; discriminate H].
  - rewrite mem_char_in. split.
    + intros H. exists c, r. auto.
    + intros [c' [r' [H Hin]]]. injection H as -> ->. exact Hin.
Qed.

Lemma word_here_spec (w s : string) :
  word_here w s = true <->
  exists post, s = w ++ post /\ boundary_after post = true.
Proof.
  revert s. induction w as [| a w IH]; intros s; simpl.
  - destruct s as [| c r]; simpl.
    + split; [intros _; exists ""; auto | reflexivity].
    + split.
      * intros H. exists (String c r). auto.
      * intros [post [E H]]. simpl in E. subst post. exact H.
  - destruct s as [| c r].
    + split; [discriminate | intros [post [H _]]; discriminate H].
    + rewrite andb_true_iff, Ascii.eqb_eq, IH. split.
      * intros [-> [post [-> H]]]. exists post. auto.
      * intros [post [H Hb]]. injection H as -> ->. split; [reflexivity |].
        exists post. auto.
Qed.

Lemma search_word_spec (w : string) (prev : option ascii) (s : string) :
  search_word w prev s = true <->
  exists pre post,
    s = pre ++ w ++ post
    /\ boundary_before (last_char prev pre) = true
    /\ boundary_after post = true.
Proof.
  revert prev. induction s as [| c r IH]; intros prev.
  - cbn [search_word]. rewrite orb_false_r, andb_true_iff, word_here_spec.
    split.
    + intros [Hb [post [H Ha]]]. exists "", post. auto.
    + intros [pre [post [H [Hb Ha]]]].
      destruct pre as [| p pre]; [| discriminate H].
      split; [exact Hb | exists post; auto].
  - cbn [search_word]. rewrite orb_true_iff, andb_true_iff, word_here_spec, IH.
    split.
    + intros [[Hb [post [H Ha]]] | [pre [post [H [Hb Ha]]]]].
      * exists "", post. auto.
      * exists (String c pre), post. simpl. rewrite H. auto.
    + intros [pre [post [H [Hb Ha]]]].
      destruct pre as [| p pre]; simpl in H.
      * left. split; [exact Hb | exists post; auto].
      * right. injection H as -> ->. exists pre, post. auto.
Qed.

Lemma contains_word_spec (w v : string) :
  contains_word w v = true <-> standalone_word w v.
Proof.
  apply search_word_spec.
Qed.

(** ** The cell functions are fixed points of themselves *)

Lemma gender_cell_fixed (s : string) : gender_cell (gender_cell s) = gender_cell s.
Proof.
  unfold gender_cell, assign.
  destruct (starts_in "Ff" s) eqn:F; [reflexivity |].
  destruct (starts_in "Mm" s) eqn:M; [reflexivity |].
  rewrite F, M. reflexivity.
Qed.

Lemma education_cell_fixed (s : string) :
  education_cell (education_cell s) = education_cell s.
Proof.
  unfold education_cell, assign.
  destruct (starts_in "Bb" s) eqn:B; [reflexivity |].
  rewrite B. reflexivity.
Qed.

Lemma vehicle_cell_fixed (s : string) :
  vehicle_cell (vehicle_cell s) = vehicle_cell s.
Proof.
  unfold vehicle_cell, assign.
  destruct (starts_in "Lu" s) eqn:L; [reflexivity |].
  destruct (contains_word "Sports" s) eqn:W; [reflexivity |].
  rewrite L, W. reflexivity.
Qed.

Lemma vehicle_cell_cases (s : string) :
  vehicle_cell s
  = if starts_in "Lu" s || contains_word "Sports" s then "Luxury" else s.
Proof.
  unfold vehicle_cell, assign.
  destruct (starts_in "Lu" s); [reflexivity |].
  destruct (contains_word "Sports" s); reflexivity.
Qed.

(** ** The abbreviation map *)

Lemma lookup_in (k v : string) (m : list (string * string)) :
  lookup k m = Some v -> In (k, v) m.
Proof.
  induction m as [| [k' v'] r IH]; simpl; [discriminate |].
  destruct (String.eqb k' k) eqn:E.
  - apply String.eqb_eq in E. intros H. injection H as ->. subst. auto.
  - auto.
Qed.

Lemma lookup_none (k : string) (m : list (string * string)) :
  lookup k m = None <-> ~ In k (map fst m).
Proof.
  induction m as [| [k' v'] r IH]; simpl.
  - split; [intros _ [] | reflexivity].
  - destruct (String.eqb k' k) eqn:E.
    + apply String.eqb_eq in E. split; [discriminate | intros H; exfalso; auto].
    + apply String.eqb_neq in E. rewrite IH. tauto.
Qed.

Lemma in_lookup (k v : string) (m : list (string * string)) :
  NoDup (map fst m) -> In (k, v) m -> lookup k m = Some v.
Proof.
  induction m as [| [k' v'] r IH]; simpl; [intros _ [] |].
  intros Hnd [H | H].
  - injection H as -> ->. rewrite String.eqb_refl. reflexivity.
  - inversion Hnd as [| ? ? Hnotin Hnd']; subst.
    destruct (String.eqb k' k) eqn:E.
    + apply String.eqb_eq in E. subst k'. exfalso. apply Hnotin.
      apply (in_map fst) in H. exact H.
    + auto.
  Qed.

Lemma state_codes_nodup : NoDup state_codes.
Proof.
  assert (H : nodup string_dec state_codes = state_codes)
    by (vm_compute; reflexivity).
  rewrite <- H. apply NoDup_nodup.
Qed.

(** Every full name is upper case already and is not itself a code. *)
Lemma state_names_stable :
  forall v, In v state_names ->
            upper v = v /\ lookup v state_mapping = None.
Proof.
  apply Forall_forall. unfold state_names.
  repeat constructor.
Qed.

Lemma upper_char_fixed (c : ascii) : upper_char (upper_char c) = upper_char c.
Proof.
  destruct c as [[] [] [] [] [] [] [] []]; reflexivity.
Qed.

Lemma upper_fixed (s : string) : upper (upper s) = upper s.
Proof.
  unfold upper. induction s as [| c r IH]; simpl; [reflexivity |].
  rewrite upper_char_fixed, IH. reflexivity.
Qed.

Lemma state_cell_fixed (s : string) : state_cell (state_cell s) = state_cell s.
Proof.
  unfold state_cell, replace_cell.
  destruct (lookup (upper s) state_mapping) as [v |] eqn:E.
  - apply lookup_in in E. apply (in_map snd) in E. simpl in E.
    destruct (state_names_stable v E) as [Hu Hl]. rewrite Hu, Hl. reflexivity.
  - rewrite upper_fixed, E. reflexivity.
Qed.

(* ================================================================== *)
(** * The single-column normalizers *)

Lemma single_column_stages_text stage l :
  In (stage, l) single_column_stages -> exists f, text_stage stage l f.
Proof.
  simpl. intros [H | [H | [H | [H | []]]]]; injection H as <- <-.
  - exists gender_cell. apply standardize_gender_stage.
  - exists state_cell. apply standardize_state_stage.
  - exists education_cell. apply standardize_education_stage.
  - exists vehicle_cell. apply standardize_vehicle_class_stage.
Qed.

(** C10.  Each of the gender, state, education and vehicle-class
    normalizers, when it returns, returns a frame with the same column
    labels in the same order and the same number of rows in every column,
    in which every column other than the stage's own is unchanged cell for
    cell. *)
Theorem single_column_stage_frame stage l (df df' : DataFrame) :
  In (stage, l) single_column_stages ->
  stage df = Ok df' ->
  same_except l df df'
  /\ columns df' = columns df
  /\ (forall l', l' <> l -> select l' df' = select l' df)
  /\ (forall l' c, l' <> l -> (getcol l' df' = Ok c <-> getcol l' df = Ok c)).
Proof.
  intros Hin H.
  destruct (single_column_stages_text _ _ Hin) as [f Hf].
  pose proof (text_stage_frame _ _ _ _ _ Hf H) as Hs.
  split; [exact Hs |].
  split; [apply (same_except_columns _ _ _ Hs) |].
  split; [intros l' Hne; apply (same_except_select _ _ _ _ Hs Hne) |].
  intros l' c Hne. unfold getcol.
  rewrite (same_except_select _ _ _ _ Hs Hne). reflexivity.
Qed.

(* ================================================================== *)
(** * Stage 5: the vehicle-class rule *)

Lemma vehicle_cell_rule (cell : option string) :
  vehicle_rule ["L"; "u"]%char cell (option_map vehicle_cell cell).
Proof.
  destruct cell as [v |]; simpl; [| reflexivity].
  rewrite vehicle_cell_cases.
  pose proof (starts_in_spec "Lu" v) as HL.
  pose proof (contains_word_spec "Sports" v) as HW.
  simpl in HL.
  destruct (starts_in "Lu" v); simpl.
  - split; [reflexivity |]. intros Hn. exfalso. apply Hn. left. apply HL.
    reflexivity.
  - destruct (contains_word "Sports" v).
    + split; [reflexivity |]. intros Hn. exfalso. apply Hn. right. apply HW.
      reflexivity.
    + split; [| reflexivity].
      intros [H | H]; [apply HL in H | apply HW in H]; discriminate H.
Qed.

(** C2, as the code has it.  On a frame whose [vehicle_class] column is
    text, the vehicle-class stage returns, and in the returned column a
    null stays null, a value whose first character is [L] or [u] or that
    contains the standalone word [Sports] is [Luxury], and every other
    value is unchanged. *)
Theorem vehicle_class_rule (df : DataFrame) (cells : list (option string)) :
  getcol "vehicle_class" df = Ok (ObjCol cells) ->
  exists df' cells',
    standardize_vehicle_class df = Ok df'
    /\ getcol "vehicle_class" df' = Ok (ObjCol cells')
    /\ Forall2 (vehicle_rule ["L"; "u"]%char) cells cells'.
Proof.
  intros H.
  pose proof (standardize_vehicle_class_stage df) as Hs.
  apply getstr_ok in H. rewrite H in Hs.
  eexists. exists (map (option_map vehicle_cell) cells).
  split; [exact Hs |].
  split; [apply getstr_ok; apply (getstr_overwrite _ _ _ _ H) |].
  clear. induction cells as [| cell r IH]; simpl; constructor;
    [apply vehicle_cell_rule | exact IH].
Qed.

(* ================================================================== *)
(** * Stage 3: the state rule *)

Lemma state_cell_rule (cell : option string) :
  state_rule cell (option_map state_cell cell).
Proof.
  destruct cell as [v |]; [| reflexivity].
  unfold state_rule, option_map, state_cell, replace_cell. split.
  - intros full Hin.
    rewrite (in_lookup _ _ _ state_codes_nodup Hin). reflexivity.
  - intros Hn. apply (proj2 (lookup_none _ _)) in Hn. rewrite Hn. reflexivity.
Qed.

(** C8.  The abbreviation map has 51 distinct keys: 50 codes of two
    upper-case letters and [CALI], which maps to [CALIFORNIA].  On a frame
    whose [state] column is text the state stage returns, and in the
    returned column a null stays null, a value whose upper-cased form is a
    key becomes the key's full name, and any other value becomes its
    upper-cased form. *)
Theorem state_normalizer_rule :
  (List.length state_mapping = 51
   /\ NoDup state_codes
   /\ List.length (filter two_upper_letters state_codes) = 50
   /\ filter (fun k => negb (two_upper_letters k)) state_codes = ["CALI"]
   /\ lookup "CALI" state_mapping = Some "CALIFORNIA")
  /\ forall (df : DataFrame) (cells : list (option string)),
       getcol "state" df = Ok (ObjCol cells) ->
       exists df' cells',
         standardize_state df = Ok df'
         /\ getcol "state" df' = Ok (ObjCol cells')
         /\ Forall2 state_rule cells cells'.
Proof.
  split.
  - split; [reflexivity |]. split; [apply state_codes_nodup |].
    repeat split.
  - intros df cells H.
    pose proof (standardize_state_stage df) as Hs.
    apply getstr_ok in H. rewrite H in Hs.
    eexists. exists (map (option_map state_cell) cells).
    split; [exact Hs |].
    split; [apply getstr_ok; apply (getstr_overwrite _ _ _ _ H) |].
    clear. induction cells as [| cell r IH]; simpl; constructor;
      [apply state_cell_rule | exact IH].
Qed.

(* ================================================================== *)
(** * Stage 6: numeric coercion *)

(** ** Stripping the percent signs *)

Lemma ends_with_nil (c : ascii) : ~ ends_with c "".
Proof.
  intros [[| a r] H]; discriminate H.
Qed.

Lemma ends_with_cons (c a b : ascii) (s : string) :
  ends_with c (String a (String b s)) -> ends_with c (String b s).
Proof.
  intros [[| x r] H]; simpl in H; [discriminate H |].
  injection H as _ H. exists r. exact H.
Qed.

Lemma ends_with_single (c a : ascii) : ends_with c (String a "") -> a = c.
Proof.
  intros [[| x r] H]; simpl in H.
  - congruence.
  - injection H as _ H. destruct r; discriminate H.
Qed.

Lemma mem_char_percent (c : ascii) :
  mem_char c "%" = true <-> c = "%"%char.
Proof.
  simpl. rewrite orb_false_r. apply Ascii.eqb_eq.
Qed.

(** [rstrip('%')] removes the whole run of percent signs at the end and
    nothing else. *)
Lemma rstrip_percent_spec (s : string) :
  exists k, s = rstrip "%" s ++ percents k
            /\ ~ ends_with "%"%char (rstrip "%" s).
Proof.
  induction s as [| c r [k [Hk Hn]]].
  - exists 0. split; [reflexivity | apply ends_with_nil].
  - cbn [rstrip]. destruct (rstrip "%" r) as [| a r'] eqn:E.
    + destruct (mem_char c "%") eqn:M.
      * apply mem_char_percent in M. subst c. exists (S k).
        split; [simpl in *; congruence | apply ends_with_nil].
      * exists k. split; [simpl in *; congruence |].
        intros H. apply ends_with_single in H.
        apply mem_char_percent in H. congruence.
    + exists k. split; [simpl in *; congruence |].
      intros H. apply Hn. apply (ends_with_cons _ _ _ _ H).
Qed.

(** ** The slash-delimited token *)

Lemma span_digits_spec (s d rest : string) :
  span_digits s = (d, rest) -> s = d ++ rest /\ all_digits d = true.
Proof.
  revert d rest. induction s as [| c r IH]; simpl; intros d rest H.
  - injection H as <- <-. auto.
  - destruct (is_digit c) eqn:D.
    + destruct (span_digits r) as [d0 rest0]. injection H as <- <-.
      destruct (IH d0 rest0 eq_refl) as [-> Hd]. simpl. rewrite D. auto.
    + injection H as <- <-. auto.
Qed.

Lemma span_digits_app (d rest : string) :
  all_digits d = true ->
  match rest with
  | EmptyString => True
  | String c _ => is_digit c = false
  end ->
  span_digits (d ++ rest) = (d, rest).
Proof.
  intros Hd Hr. induction d as [| c r IH]; simpl in *.
  - destruct rest as [| c r]; simpl; [reflexivity |]. rewrite Hr. reflexivity.
  - apply andb_true_iff in Hd. destruct Hd as [Hc Hd].
    rewrite Hc, (IH Hd). reflexivity.
Qed.

Lemma token_here_sound (s d : string) :
  token_here s = Some d -> exists post, token_match s "" d post.
Proof.
  unfold token_here, token_match.
  destruct s as [| c r]; [discriminate |].
  destruct (Ascii.eqb c "/") eqn:C.
  - apply Ascii.eqb_eq in C. subst c.
    destruct (span_digits r) as [d0 rest] eqn:E.
    apply span_digits_spec in E. destruct E as [-> Hd].
    destruct d0 as [| a d0]; [discriminate |].
    destruct rest as [| b post]; [discriminate |].
    destruct (Ascii.eqb b "/") eqn:B.
    + apply Ascii.eqb_eq in B. subst b. intros H. injection H as <-.
      exists post. simpl. repeat split; [discriminate | exact Hd].
    + intros H. exfalso. revert H B.
      destruct b as [[] [] [] [] [] [] [] []]; simpl; discriminate.
  - intros H. exfalso. revert H C.
    destruct c as [[] [] [] [] [] [] [] []]; simpl; discriminate.
Qed.

Lemma token_here_complete (s d post : string) :
  token_match s "" d post -> token_here s = Some d.
Proof.
  intros [-> [Hne Hd]]. simpl.
  rewrite (span_digits_app d (String "/" post) Hd eq_refl).
  destruct d as [| a d]; [contradiction |]. reflexivity.
Qed.

Lemma extract_some (s d : string) :
  extract s = Some d -> exists pre post, leftmost_token s pre d post.
Proof.
  induction s as [| c r IH]; cbn [extract];
    destruct (token_here _) as [d0 |] eqn:T; try discriminate.
  - intros H. injection H as ->. apply token_here_sound in T.
    destruct T as [post T]. exists "", post. split; [exact T |].
    intros; simpl; lia.
  - intros H. destruct (IH H) as [pre [post [[Hs Hd] Hmin]]].
    exists (String c pre), post. split.
    + split; [simpl; rewrite Hs; reflexivity | exact Hd].
    + intros pre' d' post' [Hs' Hd'].
      destruct pre' as [| c' pre'].
      * rewrite (token_here_complete _ d' post') in T by (split; assumption).
        discriminate T.
      * simpl in Hs'. injection Hs' as -> Hs'. simpl.
        apply le_n_S. apply (Hmin pre' d' post'). split; assumption.
Qed.

Lemma extract_none (s : string) :
  extract s = None -> forall pre d post, ~ token_match s pre d post.
Proof.
  induction s as [| c r IH]; cbn [extract];
    destruct (token_here _) as [d0 |] eqn:T; try discriminate;
    intros H pre d post [Hs Hd].
  - destruct pre; discriminate Hs.
  - destruct pre as [| c' pre].
    + rewrite (token_here_complete _ d post) in T by (split; assumption).
      discriminate T.
    + simpl in Hs. injection Hs as -> Hs.
      apply (IH H pre d post). split; assumption.
Qed.

(** ** Digit strings as numbers *)

Lemma split_sign_digit (c : ascii) (r : string) :
  is_digit c = true -> split_sign (String c r) = (false, String c r).
Proof.
  destruct c as [[] [] [] [] [] [] [] []]; intros H; try reflexivity;
    vm_compute in H; discriminate H.
Qed.

Lemma append_empty_r (s : string) : s ++ "" = s.
Proof.
  induction s as [| c r IH]; simpl; [| rewrite IH]; reflexivity.
Qed.

Lemma Qred_signed (neg : bool) (m : Z) :
  Qred (if neg then - (inject_Z m * pow10 (0 - 0))
        else inject_Z m * pow10 (0 - 0))%Q
  = inject_Z (if neg then - m else m)%Z.
Proof.
  assert (E : (inject_Z m * pow10 (0 - 0))%Q = inject_Z m)
    by (unfold pow10, inject_Z, Qmult; cbn [Qnum Qden Z.sub Z.opp Z.add
          Z.leb Z.compare Z.pow Z.pow_pos Pos.iter Z.mul Pos.mul];
        rewrite Z.mul_1_r; reflexivity).
  rewrite E. destruct neg.
  - change (- inject_Z m)%Q with (inject_Z (- m)).
    apply Qred_identity. apply Z.gcd_1_r.
  - apply Qred_identity. apply Z.gcd_1_r.
Qed.

(** A whole-number literal is a plain decimal literal of the same value. *)
Lemma whole_literal_decimal (s : string) (z : Z) :
  whole_literal s = Some z -> decimal_literal s = Some (inject_Z z).
Proof.
  unfold whole_literal, decimal_literal.
  destruct (split_sign s) as [neg r].
  destruct r as [| c r']; [discriminate |].
  destruct (all_digits (String c r')) eqn:Hd; [| discriminate].
  destruct (Nat.leb (String.length s) 250) eqn:Hl; [| discriminate].
  cbn [andb]. intros H. injection H as <-.
  pose proof (span_digits_app (String c r') "" Hd I) as Hs.
  rewrite append_empty_r in Hs. rewrite Hs.
  cbn [parse_exponent].
  cbn [Z.abs Z.leb Z.compare andb String.length Z.of_nat].
  rewrite append_empty_r, Qred_signed. reflexivity.
Qed.

Lemma whole_literal_nonempty (s : string) (z : Z) :
  whole_literal s = Some z -> s <> "".
Proof.
  intros H ->. discriminate H.
Qed.

Lemma to_numeric_whole_literal (s : string) (z : Z) :
  whole_literal s = Some z -> to_numeric s = Some (float_of_Z z).
Proof.
  intros H. unfold to_numeric. rewrite (whole_literal_decimal s z H).
  destruct s; [discriminate H | reflexivity].
Qed.

(** A text read as a whole number within 64 bits is, as a float, the
    float of that number. *)
Lemma to_numeric_whole (s : string) (z : Z) :
  whole_of s = Some z -> in_int64 z || in_uint64 z = true ->
  to_numeric s = Some (float_of_Z z).
Proof.
  unfold whole_of. destruct s as [| c r]; [discriminate |].
  destruct (whole_literal (String c r)) as [z0 |] eqn:W.
  - intros H _. injection H as <-. apply (to_numeric_whole_literal _ z0 W).
  - unfold to_numeric.
    destruct (decimal_literal (String c r)); [discriminate |].
    destruct (string_forall numeral_char (String c r)); [| discriminate].
    intros H R. apply (other_whole_float _ z H R).
Qed.

(** A digit token within the length bound is a whole-number literal. *)
Lemma whole_literal_digits (d : string) :
  d <> "" -> all_digits d = true -> String.length d <= 250 ->
  whole_literal d = Some (digits_value d).
Proof.
  intros Hne Hd Hl. destruct d as [| c r]; [contradiction |].
  pose proof Hd as Hc. simpl in Hc. apply andb_true_iff in Hc.
  destruct Hc as [Hc _].
  unfold whole_literal. rewrite (split_sign_digit _ _ Hc), Hd.
  rewrite (proj2 (Nat.leb_le _ _) Hl). reflexivity.
Qed.

Lemma whole_of_digits (d : string) :
  d <> "" -> all_digits d = true -> String.length d <= 250 ->
  whole_of d = Some (digits_value d).
Proof.
  intros Hne Hd Hl. unfold whole_of.
  rewrite (whole_literal_digits d Hne Hd Hl).
  destruct d; [contradiction | reflexivity].
Qed.

Lemma to_numeric_digits (d : string) :
  d <> "" -> all_digits d = true -> String.length d <= 250 ->
  to_numeric d = Some (float_of_Z (digits_value d)).
Proof.
  intros Hne Hd Hl.
  apply to_numeric_whole_literal, (whole_literal_digits d Hne Hd Hl).
Qed.

Lemma as_integer_inject (z : Z) : as_integer (inject_Z z) = Some z.
Proof.
  unfold as_integer.
  rewrite (Qred_identity (inject_Z z)) by apply Z.gcd_1_r. reflexivity.
Qed.

(** A whole number up to 2^53 is the integer of its float. *)
Lemma integer_of_Z (z : Z) :
  (Z.abs z <= float_exact)%Z -> integer_of (float_of_Z z) = Some z.
Proof.
  intros H. unfold integer_of, float_of_Z, to_float64.
  rewrite (Qred_complete _ _ (round_float_whole z H)).
  rewrite (Qred_identity (inject_Z z)) by apply Z.gcd_1_r.
  apply as_integer_inject.
Qed.

Lemma as_integer_le (a : Z) (q : Q) (z : Z) :
  (inject_Z a <= q)%Q -> as_integer q = Some z -> (a <= z)%Z.
Proof.
  unfold as_integer. intros Hq H.
  destruct (Pos.eqb (Qden (Qred q)) 1) eqn:D; [| discriminate H].
  injection H as <-. apply Pos.eqb_eq in D.
  assert (Hr : (inject_Z a <= Qred q)%Q) by (rewrite Qred_correct; exact Hq).
  unfold Qle in Hr. rewrite D in Hr. simpl in Hr. lia.
Qed.

Lemma digits_acc_nonneg (s : string) (acc : Z) :
  (0 <= acc)%Z -> (0 <= digits_acc acc s)%Z.
Proof.
  revert acc. induction s as [| c r IH]; cbn [digits_acc]; intros acc H;
    [exact H |].
  apply IH. pose proof (Zle_0_nat (code c - 48)). unfold digit_val. lia.
Qed.

Lemma digits_value_nonneg (d : string) : (0 <= digits_value d)%Z.
Proof.
  apply digits_acc_nonneg. lia.
Qed.

Lemma digit_val_bound (c : ascii) : is_digit c = true -> (digit_val c <= 9)%Z.
Proof.
  unfold is_digit, between, digit_val. rewrite andb_true_iff.
  intros [_ H]. apply Nat.leb_le in H. lia.
Qed.

Lemma digits_acc_bound (s : string) (acc : Z) :
  all_digits s = true -> (0 <= acc)%Z ->
  (digits_acc acc s < (acc + 1) * 10 ^ Z.of_nat (String.length s))%Z.
Proof.
  revert acc. induction s as [| c r IH]; intros acc Hd Ha.
  - cbn [digits_acc String.length Z.of_nat]. rewrite Z.pow_0_r. lia.
  - cbn [digits_acc]. simpl in Hd. apply andb_true_iff in Hd.
    destruct Hd as [Hc Hd].
    pose proof (digit_val_bound c Hc) as Hb.
    pose proof (Zle_0_nat (code c - 48)) as Hz. fold (digit_val c) in Hz.
    eapply Z.lt_le_trans; [apply IH; [exact Hd | lia] |].
    change (String.length (String c r)) with (S (String.length r)).
    rewrite Nat2Z.inj_succ, Z.pow_succ_r by lia.
    assert (Hp : (0 < 10 ^ Z.of_nat (String.length r))%Z)
      by (apply Z.pow_pos_nonneg; lia).
    nia.
Qed.

Lemma pow10_mono (n m : nat) :
  n <= m -> (10 ^ Z.of_nat n <= 10 ^ Z.of_nat m)%Z.
Proof.
  intros H. apply Z.pow_le_mono_r; lia.
Qed.

(** A token of at most 15 digits is below 2^53. *)
Lemma digits_value_small (d : string) :
  all_digits d = true -> String.length d <= 15 ->
  (0 <= digits_value d < float_exact)%Z.
Proof.
  intros Hd Hl. unfold digits_value. split.
  - apply digits_acc_nonneg. lia.
  - pose proof (digits_acc_bound d 0 Hd (Z.le_refl 0)) as Hb.
    pose proof (pow10_mono _ _ Hl) as Hm.
    assert (H15 : (10 ^ Z.of_nat 15 < float_exact)%Z) by reflexivity.
    lia.
Qed.

Lemma to_float64_nonneg (v q : Q) :
  (0 <= v)%Q -> to_float64 v = Finite q -> (0 <= q)%Q.
Proof.
  unfold to_float64. intros Hv H. injection H as <-.
  rewrite Qred_correct. apply round_float_sign, Hv.
Qed.

Lemma digits_no_minus (d : string) :
  all_digits d = true -> mem_char "-"%char d = false.
Proof.
  induction d as [| c r IH]; intros Hd; [reflexivity |].
  simpl in Hd. apply andb_true_iff in Hd. destruct Hd as [Hc Hd].
  cbn [mem_char]. rewrite (IH Hd), orb_false_r.
  destruct c as [[] [] [] [] [] [] [] []]; try reflexivity;
    vm_compute in Hc; discriminate Hc.
Qed.

(** The integer read from a digit token is not negative. *)
Lemma whole_of_token_nonneg (d : string) (z : Z) :
  all_digits d = true -> whole_of d = Some z -> (0 <= z)%Z.
Proof.
  intros Hd. unfold whole_of. destruct d as [| c r]; [discriminate |].
  destruct (whole_literal (String c r)) as [z0 |] eqn:W.
  - intros H. injection H as <-.
    pose proof Hd as Hc. simpl in Hc. apply andb_true_iff in Hc.
    destruct Hc as [Hc _].
    unfold whole_literal in W. rewrite (split_sign_digit _ _ Hc), Hd in W.
    destruct (Nat.leb (String.length (String c r)) 250); [| discriminate W].
    injection W as <-. apply digits_value_nonneg.
  - destruct (decimal_literal (String c r)); [discriminate |].
    destruct (string_forall numeral_char (String c r)); [| discriminate].
    apply other_whole_sign, digits_no_minus, Hd.
Qed.

(** The float of a digit token is not negative, whatever its length. *)
Lemma to_numeric_token_nonneg (d : string) (q : Q) :
  all_digits d = true -> to_numeric d = Some (Finite q) -> (0 <= q)%Q.
Proof.
  intros Hd H.
  pose proof (digits_no_minus d Hd) as Hm.
  unfold to_numeric in H. destruct d as [| c r]; [discriminate H |].
  destruct (decimal_literal (String c r)) as [v |] eqn:E.
  - apply (to_float64_nonneg v q); [| congruence].
    destruct (le_dec (String.length (String c r)) 250) as [Hl | Hl].
    + assert (Hne : String c r <> "") by discriminate.
      rewrite (whole_literal_decimal _ _ (whole_literal_digits _ Hne Hd Hl))
        in E.
      injection E as <-. unfold Qle, inject_Z. simpl.
      pose proof (digits_value_nonneg (String c r)). lia.
    + exfalso. revert E. unfold decimal_literal.
      destruct (split_sign _) as [neg s1].
      destruct (span_digits s1) as [ip s2].
      destruct (match s2 with
                | String "."%char r0 => span_digits r0
                | _ => ("", s2)
                end) as [fp s3].
      apply Nat.leb_nle in Hl. rewrite Hl.
      destruct ip, fp; try discriminate;
        destruct (parse_exponent s3); discriminate.
  - destruct (string_forall numeral_char (String c r)); [| discriminate H].
    apply (other_spellings_sign _ _ Hm H).
Qed.

(** ** The cast to Int64 *)

Lemma cast_whole_ok (z z' : Z) :
  cast_whole z = Ok z' -> z' = z /\ in_int64 z = true.
Proof.
  unfold cast_whole. destruct (in_int64 z); [| discriminate].
  intros H. injection H as <-. auto.
Qed.

Lemma cast_real_ok (x : float) (z : Z) :
  cast_real x = Ok z -> integer_of x = Some z /\ in_int64 z = true.
Proof.
  unfold cast_real. destruct (integer_of x) as [z0 |]; [| discriminate].
  intros H. destruct (cast_whole_ok _ _ H) as [-> R]. auto.
Qed.

Lemma cast_whole_error (z : Z) (e : error) :
  cast_whole z = Err e -> e = TypeError.
Proof.
  unfold cast_whole. destruct (in_int64 z); congruence.
Qed.

Lemma cast_real_error (x : float) (e : error) :
  cast_real x = Err e -> e = TypeError.
Proof.
  unfold cast_real. destruct (integer_of x); [apply cast_whole_error |].
  congruence.
Qed.

Lemma in_int64_small (z : Z) :
  (0 <= z < float_exact)%Z -> in_int64 z = true.
Proof.
  intros [H0 H1]. unfold in_int64, int64_bound. unfold float_exact in H1.
  apply andb_true_iff. split; [apply Z.leb_le | apply Z.ltb_lt]; lia.
Qed.

Lemma cast_whole_small (z : Z) :
  (0 <= z < float_exact)%Z -> cast_whole z = Ok z.
Proof.
  intros H. unfold cast_whole. rewrite (in_int64_small z H). reflexivity.
Qed.

Lemma cast_real_small (z : Z) :
  (0 <= z < float_exact)%Z -> cast_real (float_of_Z z) = Ok z.
Proof.
  intros H. unfold cast_real.
  rewrite integer_of_Z by (rewrite Z.abs_eq; lia).
  apply cast_whole_small, H.
Qed.

Lemma astype_cells_length {A : Type} (cast : A -> result Z)
  (cells : list (option A)) (ints : list (option Z)) :
  astype_cells cast cells = Ok ints -> List.length ints = List.length cells.
Proof.
  revert ints. induction cells as [| [x |] r IH]; cbn [astype_cells];
    intros ints H.
  - injection H as <-. reflexivity.
  - invert_bind H. invert_bind H. injection H as <-.
    simpl. rewrite (IH _ Hx0). reflexivity.
  - invert_bind H. injection H as <-. simpl. rewrite (IH _ Hx). reflexivity.
Qed.

(** Every cell of a cast that returns has been cast, and every integer of
    the result is the cast of a cell. *)
Lemma astype_cells_in {A : Type} (cast : A -> result Z)
  (cells : list (option A)) (ints : list (option Z)) (x : A) :
  astype_cells cast cells = Ok ints -> In (Some x) cells ->
  exists z, cast x = Ok z.
Proof.
  revert ints. induction cells as [| [y |] r IH]; cbn [astype_cells];
    intros ints H Hin.
  - destruct Hin.
  - invert_bind H. invert_bind H.
    destruct Hin as [E | Hin].
    + injection E as ->. exists x0. exact Hx.
    + apply (IH _ Hx0 Hin).
  - invert_bind H. destruct Hin as [E | Hin]; [discriminate E |].
    apply (IH _ Hx Hin).
Qed.

Lemma astype_cells_out {A : Type} (cast : A -> result Z)
  (cells : list (option A)) (ints : list (option Z)) (z : Z) :
  astype_cells cast cells = Ok ints -> In (Some z) ints ->
  exists x, In (Some x) cells /\ cast x = Ok z.
Proof.
  revert ints. induction cells as [| [y |] r IH]; cbn [astype_cells];
    intros ints H Hin.
  - injection H as <-. destruct Hin.
  - invert_bind H. invert_bind H. injection H as <-.
    destruct Hin as [E | Hin].
    + injection E as <-. exists y. split; [left; reflexivity | exact Hx].
    + destruct (IH _ Hx0 Hin) as [x' [Hx' Hc]].
      exists x'. split; [right; exact Hx' | exact Hc].
  - invert_bind H. injection H as <-.
    destruct Hin as [E | Hin]; [discriminate E |].
    destruct (IH _ Hx Hin) as [x' [Hx' Hc]].
    exists x'. split; [right; exact Hx' | exact Hc].
Qed.

Lemma astype_cells_error {A : Type} (cast : A -> result Z)
  (cells : list (option A)) (e : error) :
  (forall x e, cast x = Err e -> e = TypeError) ->
  astype_cells cast cells = Err e -> e = TypeError.
Proof.
  intros Hc. induction cells as [| [x |] r IH]; cbn [astype_cells].
  - discriminate.
  - destruct (cast x) as [z | e0] eqn:C; cbn [bind].
    + destruct (astype_cells cast r); cbn [bind]; [discriminate | auto].
    + intros H. injection H as <-. apply (Hc x e0 C).
  - destruct (astype_cells cast r); cbn [bind]; [discriminate | auto].
Qed.

Lemma astype_Int64_error (n : numeric) (e : error) :
  astype_Int64 n = Err e -> e = TypeError.
Proof.
  destruct n as [cells | cells]; cbn [astype_Int64]; apply astype_cells_error.
  - apply cast_whole_error.
  - apply cast_real_error.
Qed.

(** ** [pd.to_numeric] on a text column *)

Lemma whole_cells_length (cells : list (option string)) (zs : list Z) :
  whole_cells cells = Some zs -> List.length zs = List.length cells.
Proof.
  revert zs. induction cells as [| [s |] r IH]; cbn [whole_cells]; intros zs H.
  - injection H as <-. reflexivity.
  - destruct (whole_of s) as [z |]; [| discriminate H].
    destruct (whole_cells r) as [l |]; [| discriminate H].
    injection H as <-. simpl. rewrite (IH l eq_refl). reflexivity.
  - discriminate H.
Qed.

Lemma whole_cells_in (cells : list (option string)) (zs : list Z) (z : Z) :
  whole_cells cells = Some zs -> In z zs ->
  exists s, In (Some s) cells /\ whole_of s = Some z.
Proof.
  revert zs. induction cells as [| [s |] r IH]; cbn [whole_cells];
    intros zs H Hin.
  - injection H as <-. destruct Hin.
  - destruct (whole_of s) as [z0 |] eqn:W; [| discriminate H].
    destruct (whole_cells r) as [l |]; [| discriminate H].
    injection H as <-. destruct Hin as [-> | Hin].
    + exists s. split; [left; reflexivity | exact W].
    + destruct (IH l eq_refl Hin) as [s' [Hs' Hw]].
      exists s'. split; [right; exact Hs' | exact Hw].
  - discriminate H.
Qed.

Lemma whole_cells_all (cells : list (option string)) (zs : list Z)
  (s : string) :
  whole_cells cells = Some zs -> In (Some s) cells ->
  exists z, In z zs /\ whole_of s = Some z.
Proof.
  revert zs. induction cells as [| [s0 |] r IH]; cbn [whole_cells];
    intros zs H Hin.
  - destruct Hin.
  - destruct (whole_of s0) as [z0 |] eqn:W; [| discriminate H].
    destruct (whole_cells r) as [l |]; [| discriminate H].
    injection H as <-. destruct Hin as [E | Hin].
    + injection E as ->. exists z0. split; [left; reflexivity | exact W].
    + destruct (IH l eq_refl Hin) as [z [Hz Hw]].
      exists z. split; [right; exact Hz | exact Hw].
  - discriminate H.
Qed.

Lemma whole_cells_floats (cells : list (option string)) (zs : list Z) :
  whole_cells cells = Some zs ->
  (forall z, In z zs -> in_int64 z || in_uint64 z = true) ->
  map (option_map float_of_Z) (map Some zs) = map to_numeric_cell cells.
Proof.
  revert zs. induction cells as [| [s |] r IH]; cbn [whole_cells];
    intros zs H R.
  - injection H as <-. reflexivity.
  - destruct (whole_of s) as [z |] eqn:W; [| discriminate H].
    destruct (whole_cells r) as [l |]; [| discriminate H].
    injection H as <-. cbn [map option_map to_numeric_cell].
    rewrite (to_numeric_whole s z W (R z (or_introl eq_refl))).
    rewrite (IH l eq_refl (fun z0 H0 => R z0 (or_intror H0))). reflexivity.
  - discriminate H.
Qed.

Lemma forallb_either {A : Type} (f g : A -> bool) (l : list A) (x : A) :
  forallb f l || forallb g l = true -> In x l -> f x || g x = true.
Proof.
  intros H Hin. apply orb_true_iff in H. apply orb_true_iff.
  destruct H as [H | H]; rewrite forallb_forall in H; auto.
Qed.

(** The two ways a text column comes out of [pd.to_numeric]. *)
Lemma to_numeric_col_text (cells : list (option string)) :
  (exists zs, whole_cells cells = Some zs
              /\ forallb in_int64 zs || forallb in_uint64 zs = true
              /\ to_numeric_col (ObjCol cells) = Whole (map Some zs))
  \/ to_numeric_col (ObjCol cells) = Real (map to_numeric_cell cells).
Proof.
  cbn [to_numeric_col]. destruct (whole_cells cells) as [zs |]; [| auto].
  destruct (forallb in_int64 zs || forallb in_uint64 zs) eqn:B; [| auto].
  left. exists zs. auto.
Qed.

(** As float64 a text column is parsed cell by cell. *)
Lemma astype_float64_text (cells : list (option string)) :
  astype_float64 (to_numeric_col (ObjCol cells)) = map to_numeric_cell cells.
Proof.
  destruct (to_numeric_col_text cells) as [[zs [W [B ->]]] | ->].
  - apply (whole_cells_floats _ _ W).
    intros z Hz. apply (forallb_either _ _ _ _ B Hz).
  - reflexivity.
Qed.

Lemma astype_Int64_text_length (cells : list (option string))
  (ints : list (option Z)) :
  astype_Int64 (to_numeric_col (ObjCol cells)) = Ok ints ->
  List.length ints = List.length cells.
Proof.
  destruct (to_numeric_col_text cells) as [[zs [W [_ ->]]] | ->];
    cbn [astype_Int64]; intros H; apply astype_cells_length in H;
    rewrite H, length_map; [apply (whole_cells_length _ _ W) | reflexivity].
Qed.

(** The integers cast from a column of digit tokens are not negative. *)
Lemma astype_Int64_tokens_nonneg (cells : list (option string))
  (ints : list (option Z)) :
  (forall d, In (Some d) cells -> all_digits d = true) ->
  astype_Int64 (to_numeric_col (ObjCol cells)) = Ok ints ->
  forall z, In (Some z) ints -> (0 <= z)%Z.
Proof.
  intros Hd.
  destruct (to_numeric_col_text cells) as [[zs [W [_ ->]]] | ->];
    cbn [astype_Int64]; intros H z Hz;
    destruct (astype_cells_out _ _ _ _ H Hz) as [x [Hx Hc]].
  - apply cast_whole_ok in Hc. destruct Hc as [-> _].
    apply in_map_iff in Hx. destruct Hx as [z' [E Hin]]. injection E as ->.
    destruct (whole_cells_in _ _ _ W Hin) as [s [Hs Hw]].
    apply (whole_of_token_nonneg s x (Hd s Hs) Hw).
  - apply cast_real_ok in Hc. destruct Hc as [Hi _].
    apply in_map_iff in Hx. destruct Hx as [[s |] [E Hin]];
      [| discriminate E].
    cbn [to_numeric_cell] in E.
    destruct x as [q | n]; [| discriminate Hi].
    apply (as_integer_le 0 q z); [| exact Hi].
    apply (to_numeric_token_nonneg s q (Hd s Hin) E).
Qed.

(** A column of digit tokens of at most 15 digits is cast to their
    values. *)
Lemma astype_Int64_short_tokens (cells : list (option string)) :
  (forall d, In (Some d) cells ->
             d <> "" /\ all_digits d = true /\ String.length d <= 15) ->
  astype_Int64 (to_numeric_col (ObjCol cells))
  = Ok (map (option_map digits_value) cells).
Proof.
  intros Hd.
  destruct (to_numeric_col_text cells) as [[zs [W [_ ->]]] | ->];
    cbn [astype_Int64].
  - revert zs W. induction cells as [| [s |] r IH]; cbn [whole_cells];
      intros zs W.
    + injection W as <-. reflexivity.
    + destruct (Hd s (or_introl eq_refl)) as [Hne [Hs Hl]].
      rewrite (whole_of_digits s Hne Hs ltac:(lia)) in W.
      destruct (whole_cells r) as [l |]; [| discriminate W].
      injection W as <-.
      cbn [map astype_cells option_map].
      rewrite (cast_whole_small _ (digits_value_small s Hs Hl)). cbn [bind].
      rewrite (IH (fun d H => Hd d (or_intror H)) l eq_refl). reflexivity.
    + discriminate W.
  - induction cells as [| [s |] r IH]; cbn [map astype_cells option_map
                                             to_numeric_cell].
    + reflexivity.
    + destruct (Hd s (or_introl eq_refl)) as [Hne [Hs Hl]].
      rewrite (to_numeric_digits s Hne Hs ltac:(lia)).
      rewrite (cast_real_small _ (digits_value_small s Hs Hl)). cbn [bind].
      rewrite (IH (fun d H => Hd d (or_intror H))). reflexivity.
    + rewrite (IH (fun d H => Hd d (or_intror H))). reflexivity.
Qed.

Lemma in_uint64_bound (z : Z) : in_uint64 z = true -> (z < uint64_bound)%Z.
Proof.
  unfold in_uint64. rewrite andb_true_iff. intros [_ H].
  apply Z.ltb_lt. exact H.
Qed.

Lemma in_int64_bound (z : Z) : in_int64 z = true -> (z < int64_bound)%Z.
Proof.
  unfold in_int64. rewrite andb_true_iff. intros [_ H].
  apply Z.ltb_lt. exact H.
Qed.

(** A digit token of 2^64 or more cannot be cast. *)
Lemma astype_Int64_large_token (cells : list (option string)) (d : string) :
  In (Some d) cells -> d <> "" -> all_digits d = true ->
  String.length d <= 250 -> (uint64_bound <= digits_value d)%Z ->
  astype_Int64 (to_numeric_col (ObjCol cells)) = Err TypeError.
Proof.
  intros Hin Hne Hd Hl Hbig.
  pose proof (whole_of_digits d Hne Hd Hl) as Hw.
  destruct (astype_Int64 (to_numeric_col (ObjCol cells))) as [ints | e] eqn:E;
    [exfalso | rewrite (astype_Int64_error _ _ E); reflexivity].
  destruct (to_numeric_col_text cells) as [[zs [W [B R]]] | R];
    rewrite R in E; cbn [astype_Int64] in E.
  - destruct (whole_cells_all _ _ _ W Hin) as [z [Hz Hw']].
    rewrite Hw in Hw'. injection Hw' as <-.
    apply orb_true_iff in B. destruct B as [B | B];
      rewrite forallb_forall in B; specialize (B _ Hz).
    + apply in_int64_bound in B. unfold int64_bound, uint64_bound in *. lia.
    + apply in_uint64_bound in B. lia.
  - assert (Hf : In (Some (float_of_Z (digits_value d)))
                   (map to_numeric_cell cells)).
    { apply in_map_iff. exists (Some d). split; [| exact Hin].
      apply (to_numeric_digits d Hne Hd Hl). }
    destruct (astype_cells_in _ _ _ _ E Hf) as [z Hz].
    apply cast_real_ok in Hz. destruct Hz as [Hi Hr].
    apply in_int64_bound in Hr.
    assert (Hge : (int64_bound <= z)%Z); [| lia].
    apply (as_integer_le int64_bound
             (Qred (round_float (inject_Z (digits_value d)))) z);
      [| exact Hi].
    rewrite Qred_correct. apply round_float_large.
    rewrite <- Zle_Qle. exact Hbig.
Qed.

(** ** The stage on text columns *)

Lemma extract_digits (s d : string) :
  extract s = Some d -> d <> "" /\ all_digits d = true.
Proof.
  intros H. destruct (extract_some _ _ H) as [pre [post [[_ Hd] _]]]. exact Hd.
Qed.

Lemma getcol_overwrite_other (l l' : string) (c : column) (df : DataFrame) :
  l' <> l -> getcol l' (overwrite l c df) = getcol l' df.
Proof.
  intros H. unfold getcol. rewrite (select_overwrite_other _ _ _ _ H).
  reflexivity.
Qed.

Lemma getcol_overwrite_same (l : string) (c c0 : column) (df : DataFrame) :
  getcol l df = Ok c0 -> getcol l (overwrite l c df) = Ok c.
Proof.
  intros H. rewrite <- (setcol_present _ _ _ _ H).
  apply (getcol_setcol_same _ _ _ _ H).
Qed.

Lemma CLV_NOC : NOC <> CLV.
Proof. discriminate. Qed.

Lemma clean_and_convert_numerical_inv (df df' : DataFrame) :
  clean_and_convert_numerical df = Ok df' ->
  exists clv noc,
    getcol CLV df = Ok (ObjCol clv) /\ getcol NOC df = Ok (ObjCol noc).
Proof.
  unfold clean_and_convert_numerical. fold CLV NOC. intros H.
  invert_bind H. invert_bind H. invert_bind H.
  apply getstr_ok in Hx, Hx1.
  exists x, x1. split; [exact Hx |].
  rewrite !(getcol_setcol_other _ _ _ _ CLV_NOC) in Hx1. exact Hx1.
Qed.

(** The stage on two text columns: the outcome is that of the cast. *)
Lemma clean_and_convert_numerical_eq (df : DataFrame)
  (clv noc : list (option string)) :
  getcol CLV df = Ok (ObjCol clv) ->
  getcol NOC df = Ok (ObjCol noc) ->
  clean_and_convert_numerical df
  = bind (astype_Int64 (token_numbers noc))
      (fun ints =>
         Ok (overwrite NOC (IntCol ints)
               (overwrite CLV (FloatCol (map lifetime_cell clv)) df))).
Proof.
  intros Hc Hn. unfold clean_and_convert_numerical. fold CLV NOC.
  rewrite (proj2 (getstr_ok _ _ _) Hc). cbn [bind].
  rewrite (setcol_present _ _ _ _ Hc).
  pose proof (getcol_overwrite_same CLV
                (ObjCol (map (option_map (rstrip "%")) clv)) _ _ Hc) as H1.
  rewrite H1. cbn [bind].
  rewrite (setcol_present _ _ _ _ H1), overwrite_twice.
  rewrite astype_float64_text, map_map.
  replace (map _ clv) with (map lifetime_cell clv)
    by (apply map_ext; intros [s |]; reflexivity).
  set (df1 := overwrite CLV (FloatCol (map lifetime_cell clv)) df).
  assert (H2 : getcol NOC df1 = Ok (ObjCol noc))
    by (unfold df1; rewrite (getcol_overwrite_other _ _ _ _ CLV_NOC); exact Hn).
  rewrite (proj2 (getstr_ok _ _ _) H2). cbn [bind].
  rewrite (setcol_present _ _ _ _ H2).
  fold extract_cell.
  pose proof (getcol_overwrite_same NOC (ObjCol (map extract_cell noc))
                _ _ H2) as H3.
  rewrite H3. cbn [bind]. fold (token_numbers noc).
  destruct (astype_Int64 (token_numbers noc)) as [ints | e]; cbn [bind];
    [| reflexivity].
  rewrite (setcol_present _ _ _ _ H3), overwrite_twice. reflexivity.
Qed.

Lemma clean_and_convert_numerical_columns (df df' : DataFrame)
  (clv noc : list (option string)) :
  getcol CLV df = Ok (ObjCol clv) ->
  getcol NOC df = Ok (ObjCol noc) ->
  clean_and_convert_numerical df = Ok df' ->
  exists ints,
    astype_Int64 (token_numbers noc) = Ok ints
    /\ df' = overwrite NOC (IntCol ints)
               (overwrite CLV (FloatCol (map lifetime_cell clv)) df)
    /\ getcol CLV df' = Ok (FloatCol (map lifetime_cell clv))
    /\ getcol NOC df' = Ok (IntCol ints).
Proof.
  intros Hc Hn H.
  rewrite (clean_and_convert_numerical_eq _ _ _ Hc Hn) in H.
  invert_bind H. injection H as <-. exists x.
  split; [exact Hx |]. split; [reflexivity |]. split.
  - assert (Hne : CLV <> NOC) by discriminate.
    rewrite (getcol_overwrite_other _ _ _ _ Hne).
    apply (getcol_overwrite_same _ _ _ _ Hc).
  - apply (getcol_overwrite_same NOC _ (ObjCol noc)).
    rewrite (getcol_overwrite_other _ _ _ _ CLV_NOC). exact Hn.
Qed.

(** What [str.extract] leaves in the complaints column: digit tokens. *)
Lemma extract_cell_digits (noc : list (option string)) (d : string) :
  In (Some d) (map extract_cell noc) -> d <> "" /\ all_digits d = true.
Proof.
  intros H. apply in_map_iff in H. destruct H as [[s |] [E _]];
    [| discriminate E].
  apply (extract_digits s d E).
Qed.

Lemma token_numbers_length (noc : list (option string))
  (ints : list (option Z)) :
  astype_Int64 (token_numbers noc) = Ok ints ->
  List.length ints = List.length noc.
Proof.
  intros H. apply astype_Int64_text_length in H.
  rewrite H. apply length_map.
Qed.

Lemma token_numbers_nonneg (noc : list (option string))
  (ints : list (option Z)) :
  astype_Int64 (token_numbers noc) = Ok ints ->
  forall z, In (Some z) ints -> (0 <= z)%Z.
Proof.
  apply astype_Int64_tokens_nonneg.
  intros d Hd. apply (extract_cell_digits noc d Hd).
Qed.

(** With tokens of at most 15 digits the cast returns their values. *)
Lemma astype_short_tokens (noc : list (option string)) :
  short_tokens 15 noc = true ->
  astype_Int64 (token_numbers noc) = Ok (map complaints_cell noc).
Proof.
  intros Hs. unfold token_numbers.
  rewrite astype_Int64_short_tokens, map_map.
  - f_equal. apply map_ext. intros [s |]; reflexivity.
  - intros d Hd. destruct (extract_cell_digits noc d Hd) as [Hne Hdig].
    split; [exact Hne |]. split; [exact Hdig |].
    apply in_map_iff in Hd. destruct Hd as [cell [E Hin]].
    unfold short_tokens in Hs. rewrite forallb_forall in Hs.
    specialize (Hs cell Hin). rewrite E in Hs. apply Nat.leb_le. exact Hs.
Qed.

Lemma complaints_cell_rule (noc : list (option string)) :
  Forall2 complaints_rule noc (map complaints_cell noc).
Proof.
  induction noc as [| [s |] r IH]; simpl; constructor; try exact IH.
  - destruct (extract s) as [d |] eqn:E; simpl.
    + right. destruct (extract_some _ _ E) as [pre [post H]].
      exists pre, d, post. auto.
    + left. split; [reflexivity | apply (extract_none _ E)].
  - reflexivity.
Qed.

Lemma lifetime_cell_rule (clv : list (option string)) :
  Forall2 lifetime_rule clv (map lifetime_cell clv).
Proof.
  induction clv as [| [s |] r IH]; simpl; constructor; try exact IH.
  - destruct (rstrip_percent_spec s) as [k [Hk Hn]].
    exists (rstrip "%" s), k. auto.
  - reflexivity.
Qed.

(** C4, where the code breaks it.  On a frame whose two columns are text,
    a complaints cell whose digit token (of at most 250 digits) is 2^64 or
    more makes the numeric-coercion stage raise [TypeError]: the token
    parses, and the cast to Int64 rejects the number. *)
Theorem numeric_coercion_raises_on_overflow (df : DataFrame)
  (clv noc : list (option string)) (s d : string) :
  getcol "customer_lifetime_value" df = Ok (ObjCol clv) ->
  getcol "number_of_open_complaints" df = Ok (ObjCol noc) ->
  In (Some s) noc ->
  extract s = Some d ->
  String.length d <= 250 ->
  (2 ^ 64 <= digits_value d)%Z ->
  clean_and_convert_numerical df = Err TypeError.
Proof.
  intros Hc Hn Hin Hx Hl Hbig.
  rewrite (clean_and_convert_numerical_eq _ _ _ Hc Hn).
  destruct (extract_digits _ _ Hx) as [Hne Hd].
  unfold token_numbers.
  rewrite (astype_Int64_large_token _ d); try assumption; [reflexivity |].
  apply in_map_iff. exists (Some s). split; [exact Hx | exact Hin].
Qed.

(** C5, as the code has it.  Whenever the numeric-coercion stage returns,
    the lifetime-value column it read was text and is now a float column,
    and each float cell is parsed from the text without its whole run of
    trailing percent signs: the text is a body that does not end in a
    percent sign followed by any number of percent signs, and the cell is
    what [pd.to_numeric] makes of the body, null when the body does not
    parse. *)
Theorem lifetime_value_strips_every_percent (df df' : DataFrame) :
  clean_and_convert_numerical df = Ok df' ->
  exists clv clv',
    getcol "customer_lifetime_value" df = Ok (ObjCol clv)
    /\ getcol "customer_lifetime_value" df' = Ok (FloatCol clv')
    /\ Forall2 lifetime_rule clv clv'.
Proof.
  intros H.
  destruct (clean_and_convert_numerical_inv _ _ H) as [clv [noc [Hc Hn]]].
  destruct (clean_and_convert_numerical_columns _ _ _ _ Hc Hn H)
    as [ints [_ [_ [H1 _]]]].
  exists clv, (map lifetime_cell clv).
  split; [exact Hc |]. split; [exact H1 | apply lifetime_cell_rule].
Qed.

(* ================================================================== *)
(** * Stage 7: filling the missing values *)

(** ** Cells *)

Lemma fill_fill {A : Type} (v w : A) (cells : list (option A)) :
  fill w (fill v cells) = fill v cells.
Proof.
  unfold fill. rewrite map_map. apply map_ext. intros [x |]; reflexivity.
Qed.

Lemma no_null_fill {A : Type} (v : A) (cells : list (option A)) :
  no_null (fill v cells) = true.
Proof.
  induction cells as [| [x |] r IH]; simpl; auto.
Qed.

Lemma fill_no_null {A : Type} (v : A) (cells : list (option A)) :
  no_null cells = true -> fill v cells = cells.
Proof.
  induction cells as [| [x |] r IH]; simpl; intros H;
    [reflexivity | rewrite (IH H); reflexivity | discriminate H].
Qed.

Lemma has_null_no_null {A : Type} (cells : list (option A)) :
  existsb (fun b : bool => b)
    (map (fun x => match x with None => true | Some _ => false end) cells)
  = negb (no_null cells).
Proof.
  induction cells as [| [x |] r IH]; simpl; auto.
Qed.

Lemma has_null_bool (cells : list bool) : has_null (BoolCol cells) = false.
Proof.
  unfold has_null. simpl. induction cells; simpl; auto.
Qed.

Lemma length_insert_sorted (x : float) (l : list float) :
  List.length (insert_sorted x l) = S (List.length l).
Proof.
  induction l as [| y r IH]; simpl; [reflexivity |].
  destruct (fle_bool x y); simpl; [| rewrite IH]; reflexivity.
Qed.

Lemma length_sort_values (l : list float) :
  List.length (sort_values l) = List.length l.
Proof.
  induction l as [| x r IH]; simpl; [reflexivity |].
  rewrite length_insert_sorted, IH. reflexivity.
Qed.

(** The sorted values are the values, in non-decreasing order. *)
Lemma insert_sorted_perm (x : float) (l : list float) :
  Permutation (x :: l) (insert_sorted x l).
Proof.
  induction l as [| y r IH]; simpl; [apply Permutation_refl |].
  destruct (fle_bool x y); [apply Permutation_refl |].
  apply perm_trans with (y :: x :: r); [apply perm_swap |].
  apply perm_skip. exact IH.
Qed.

Lemma sort_values_perm (l : list float) : Permutation l (sort_values l).
Proof.
  induction l as [| x r IH]; simpl; [apply perm_nil |].
  apply perm_trans with (x :: sort_values r);
    [apply perm_skip; exact IH | apply insert_sorted_perm].
Qed.

Lemma sort_values_in (l : list float) (x : float) :
  In x (sort_values l) -> In x l.
Proof.
  apply Permutation_in. apply Permutation_sym. apply sort_values_perm.
Qed.

Lemma fle_bool_total (x y : float) :
  fle_bool x y = false -> fle_bool y x = true.
Proof.
  destruct x as [p | []], y as [q | []]; simpl; try discriminate;
    try reflexivity.
  intros H. apply Qle_bool_iff. apply Qnot_lt_le. intros Hlt.
  apply Qlt_le_weak in Hlt. apply Qle_bool_iff in Hlt. congruence.
Qed.

Lemma insert_sorted_sorted (x : float) (l : list float) :
  Sorted (fun a b => fle_bool a b = true) l ->
  Sorted (fun a b => fle_bool a b = true) (insert_sorted x l).
Proof.
  induction 1 as [| y r Hs IH Hh]; simpl.
  - repeat constructor.
  - destruct (fle_bool x y) eqn:E.
    + repeat constructor; assumption.
    + pose proof (fle_bool_total _ _ E) as Hyx.
      constructor; [exact IH |].
      destruct r as [| z r']; simpl.
      * constructor. exact Hyx.
      * destruct (fle_bool x z); constructor; [exact Hyx |].
        inversion Hh; assumption.
Qed.

Lemma sort_values_sorted (l : list float) :
  Sorted (fun a b => fle_bool a b = true) (sort_values l).
Proof.
  induction l as [| x r IH]; simpl; [constructor |].
  apply insert_sorted_sorted. exact IH.
Qed.

Lemma in_dropna {A : Type} (x : A) (cells : list (option A)) :
  In x (dropna cells) <-> In (Some x) cells.
Proof.
  induction cells as [| [y |] r IH]; simpl.
  - tauto.
  - rewrite IH. split; intros [H | H]; auto; left; congruence.
  - rewrite IH. split; [auto | intros [H | H]; [discriminate H | exact H]].
Qed.

(** The sum of two floats is NaN only for infinities of opposite sign. *)
Lemma fadd_nan (a b : float) :
  fadd a b = None ->
  (a = Inf false /\ b = Inf true) \/ (a = Inf true /\ b = Inf false).
Proof.
  destruct a as [p | []], b as [q | []]; simpl; try discriminate; auto.
Qed.

(** A column has a median as soon as it has a non-null cell and does not
    hold infinities of both signs. *)
Lemma median_defined (cells : list (option float)) :
  dropna cells <> [] ->
  ~ (In (Some (Inf false)) cells /\ In (Some (Inf true)) cells) ->
  exists m, median cells = Some m.
Proof.
  intros H Hinf. unfold median.
  pose proof (length_sort_values (dropna cells)) as L.
  pose proof (sort_values_in (dropna cells)) as Hin.
  remember (sort_values (dropna cells)) as s eqn:Hs. clear Hs.
  destruct (dropna cells) as [| x r] eqn:D; [contradiction |].
  rewrite <- D in Hin. clear D.
  destruct (List.length s) as [| n] eqn:Ls; [discriminate L |].
  assert (Hhalf : S n / 2 < List.length s)
    by (rewrite Ls; apply Nat.div_lt; lia).
  destruct (Nat.odd (S n)); [eexists; reflexivity |].
  destruct (fadd (nth (S n / 2 - 1) s (Finite 0)) (nth (S n / 2) s (Finite 0)))
    as [m |] eqn:F; [eexists; reflexivity |].
  exfalso. apply Hinf.
  assert (Ha : In (Some (nth (S n / 2 - 1) s (Finite 0))) cells)
    by (apply in_dropna, Hin, nth_In; lia).
  assert (Hb : In (Some (nth (S n / 2) s (Finite 0))) cells)
    by (apply in_dropna, Hin, nth_In; exact Hhalf).
  destruct (fadd_nan _ _ F) as [[Ea Eb] | [Ea Eb]];
    rewrite Ea in Ha; rewrite Eb in Hb; auto.
Qed.

Lemma fle_bool_trans (a b c : float) :
  fle_bool a b = true -> fle_bool b c = true -> fle_bool a c = true.
Proof.
  destruct a as [p | []], b as [q | []], c as [r | []]; simpl;
    try discriminate; try reflexivity.
  rewrite !Qle_bool_iff. apply Qle_trans.
Qed.

Lemma sort_values_strongly_sorted (l : list float) :
  StronglySorted (fun a b => fle_bool a b = true) (sort_values l).
Proof.
  apply Sorted_StronglySorted; [| apply sort_values_sorted].
  intros a b c. apply fle_bool_trans.
Qed.

Lemma strongly_sorted_nth {A : Type} (R : A -> A -> Prop) (l : list A)
  (d : A) (i j : nat) :
  StronglySorted R l -> i < j -> j < List.length l ->
  R (nth i l d) (nth j l d).
Proof.
  intros Hs. revert i j. induction Hs as [| x r Hr IH Hx]; intros i j Hij Hj.
  - simpl in Hj. lia.
  - destruct j as [| j]; [lia |]. simpl in Hj.
    destruct i as [| i]; simpl.
    + rewrite Forall_forall in Hx. apply Hx, nth_In. lia.
    + apply IH; lia.
Qed.

(** A column with a finite value has a median. *)
Lemma median_finite (cells : list (option float)) (q : Q) :
  In (Some (Finite q)) cells -> exists m, median cells = Some m.
Proof.
  intros Hq. apply in_dropna in Hq.
  apply (Permutation_in _ (sort_values_perm (dropna cells))) in Hq.
  pose proof (sort_values_strongly_sorted (dropna cells)) as Hs.
  unfold median.
  remember (sort_values (dropna cells)) as s eqn:Es. clear Es.
  destruct (List.length s) as [| n] eqn:Ls;
    [destruct s; [destruct Hq | discriminate Ls] |].
  rewrite <- Ls.
  destruct (Nat.odd (List.length s)) eqn:Odd; [eexists; reflexivity |].
  assert (Hev : Nat.even (List.length s) = true)
    by (rewrite <- Nat.negb_odd, Odd; reflexivity).
  apply Nat.even_spec in Hev. destruct Hev as [k Hk].
  assert (Hk0 : 0 < k) by lia.
  assert (Hh : List.length s / 2 = k)
    by (rewrite Hk, Nat.mul_comm; apply Nat.div_mul; lia).
  rewrite Hh.
  destruct (fadd (nth (k - 1) s (Finite 0)) (nth k s (Finite 0)))
    as [m |] eqn:F; [eexists; reflexivity |].
  exfalso.
  destruct (In_nth _ _ (Finite 0) Hq) as [i [Hi Ei]].
  pose proof (fun a b => strongly_sorted_nth _ s (Finite 0) a b Hs) as Hn.
  destruct (fadd_nan _ _ F) as [[Ea Eb] | [Ea Eb]].
  - specialize (Hn (k - 1) k ltac:(lia) ltac:(lia)).
    rewrite Ea, Eb in Hn. discriminate Hn.
  - destruct (Nat.lt_trichotomy i (k - 1)) as [Lt | [Eq | Gt]].
    + specialize (Hn i (k - 1) Lt ltac:(lia)).
      rewrite Ei, Ea in Hn. discriminate Hn.
    + subst i. congruence.
    + destruct (Nat.eq_dec i k) as [-> | Ne]; [congruence |].
      specialize (Hn k i ltac:(lia) Hi).
      rewrite Ei, Eb in Hn. discriminate Hn.
Qed.

Lemma median_all_null (cells : list (option float)) :
  dropna cells = [] -> median cells = None.
Proof.
  unfold median. intros ->. reflexivity.
Qed.

(** ** The two fills on one column *)

Lemma fillna_text_result (v : string) (c c' : column) :
  fillna_text v c = Ok c' ->
  has_null c' = false
  /\ (forall cells, c = ObjCol cells -> c' = ObjCol (fill v cells))
  /\ fillna_text v c' = Ok c'.
Proof.
  destruct c as [cells | cells | cells | cells]; simpl.
  - intros H. injection H as <-. split; [| split].
    + unfold has_null. simpl. rewrite has_null_no_null, no_null_fill.
      reflexivity.
    + intros cells0 H. injection H as <-. reflexivity.
    + simpl. rewrite fill_fill. reflexivity.
  - destruct (has_null (FloatCol cells)) eqn:E; [discriminate |].
    intros H. injection H as <-. repeat split; [exact E | discriminate |].
    simpl. rewrite E. reflexivity.
  - destruct (has_null (IntCol cells)) eqn:E; [discriminate |].
    intros H. injection H as <-. repeat split; [exact E | discriminate |].
    simpl. rewrite E. reflexivity.
  - destruct (has_null (BoolCol cells)) eqn:E; [discriminate |].
    intros H. injection H as <-. repeat split; [exact E | discriminate |].
    simpl. rewrite E. reflexivity.
Qed.

Lemma fill_opt_fixed {A : Type} (v w : option A) (cells : list (option A)) :
  fill_opt w (fill_opt v cells) = fill_opt v cells
  \/ (v = None /\ fill_opt v cells = cells).
Proof.
  destruct v as [x |]; [left | right; auto].
  destruct w as [y |]; simpl; [apply fill_fill | reflexivity].
Qed.

Lemma fillna_median_float (cells : list (option float)) :
  fillna_median (FloatCol (fill_opt (median cells) cells))
  = Ok (FloatCol (fill_opt (median cells) cells)).
Proof.
  simpl.
  destruct (fill_opt_fixed (median cells)
              (median (fill_opt (median cells) cells)) cells) as [H | [H1 H2]].
  - rewrite H. reflexivity.
  - rewrite H2, H1. reflexivity.
Qed.

Lemma fillna_median_no_null (c : column) :
  has_null c = false -> c <> ObjCol match c with ObjCol l => l | _ => [] end ->
  fillna_median c = Ok c.
Proof.
  destruct c as [cells | cells | cells | cells]; intros Hn Hc.
  - exfalso. apply Hc. reflexivity.
  - unfold has_null in Hn. simpl in Hn. rewrite has_null_no_null in Hn.
    apply negb_false_iff in Hn. simpl.
    destruct (median cells); simpl; [rewrite (fill_no_null _ _ Hn) |];
      reflexivity.
  - simpl. rewrite Hn. destruct (median _); reflexivity.
  - reflexivity.
Qed.

Lemma fillna_median_result (c c' : column) :
  fillna_median c = Ok c' ->
  (forall cells, c = FloatCol cells ->
                 c' = FloatCol (fill_opt (median cells) cells))
  /\ fillna_median c' = Ok c'.
Proof.
  destruct c as [cells | cells | cells | cells].
  - discriminate.
  - simpl. intros H. injection H as <-. split.
    + intros cells0 H. injection H as <-. reflexivity.
    + apply fillna_median_float.
  - cbn [fillna_median].
    destruct (median (map (option_map float_of_Z) cells)) as [m |] eqn:M.
    + destruct (has_null (IntCol cells)) eqn:N.
      * destruct (integer_of m) as [z |]; [| discriminate].
        intros H. injection H as <-.
        assert (Hn : has_null (IntCol (fill z cells)) = false)
          by (unfold has_null; simpl;
              rewrite has_null_no_null, no_null_fill; reflexivity).
        split; [discriminate |].
        apply fillna_median_no_null; [exact Hn | discriminate].
      * intros H. injection H as <-.
        split; [discriminate |].
        apply fillna_median_no_null; [exact N | discriminate].
    + intros H. injection H as <-. split; [discriminate |].
      cbn [fillna_median]. rewrite M. reflexivity.
  - simpl. intros H. injection H as <-.
    split; [discriminate | reflexivity].
Qed.

(** ** The loops over the column lists *)

Section ForEach.

Variable f : column -> result column.

Lemma update_col_ok (l : string) (df df' : DataFrame) :
  update_col f l df = Ok df' ->
  exists c c', getcol l df = Ok c /\ f c = Ok c' /\ df' = overwrite l c' df.
Proof.
  unfold update_col. intros H.
  invert_bind H. invert_bind H. injection H as <-.
  exists x, x0. rewrite (setcol_present _ _ _ _ Hx). auto.
Qed.

Lemma for_each_select (ls : list string) (l : string) (df df' : DataFrame) :
  for_each f ls df = Ok df' -> ~ In l ls -> select l df' = select l df.
Proof.
  revert df. induction ls as [| a r IH]; simpl; intros df H Hn.
  - injection H as <-. reflexivity.
  - invert_bind H. apply update_col_ok in Hx.
    destruct Hx as [c [c' [_ [_ ->]]]].
    rewrite (IH _ H) by tauto.
    apply select_overwrite_other. intros ->. tauto.
Qed.

Lemma for_each_columns (ls : list string) (df df' : DataFrame) :
  for_each f ls df = Ok df' -> columns df' = columns df.
Proof.
  revert df. induction ls as [| a r IH]; simpl; intros df H.
  - injection H as <-. reflexivity.
  - invert_bind H. apply update_col_ok in Hx.
    destruct Hx as [c [c' [_ [_ ->]]]].
    rewrite (IH _ H). apply columns_overwrite.
Qed.

Lemma for_each_result (ls : list string) (df df' : DataFrame) :
  NoDup ls -> for_each f ls df = Ok df' ->
  forall l, In l ls ->
    exists c c', getcol l df = Ok c /\ f c = Ok c' /\ getcol l df' = Ok c'.
Proof.
  revert df. induction ls as [| a r IH]; simpl; intros df Hnd H l Hin;
    [contradiction |].
  inversion Hnd as [| ? ? Ha Hr]; subst.
  invert_bind H. apply update_col_ok in Hx.
  destruct Hx as [c [c' [Hc [Hf ->]]]].
  destruct Hin as [<- | Hin].
  - exists c, c'. split; [exact Hc |]. split; [exact Hf |].
    unfold getcol. rewrite (for_each_select _ _ _ _ H Ha).
    apply (getcol_overwrite_same _ _ _ _ Hc).
  - destruct (IH _ Hr H l Hin) as [d [d' [Hd [Hfd Hd']]]].
    exists d, d'. split; [| auto].
    rewrite getcol_overwrite_other in Hd; [exact Hd |].
    intros ->. contradiction.
Qed.

Lemma for_each_fixed (ls : list string) (df : DataFrame) :
  (forall l, In l ls -> exists c, getcol l df = Ok c /\ f c = Ok c) ->
  for_each f ls df = Ok df.
Proof.
  induction ls as [| a r IH]; simpl; intros H; [reflexivity |].
  destruct (H a (or_introl eq_refl)) as [c [Hc Hf]].
  unfold update_col. rewrite Hc. simpl. rewrite Hf. simpl.
  rewrite (setcol_getcol_id _ _ _ Hc). apply IH.
  intros l Hl. apply H. right. exact Hl.
Qed.

Lemma for_each_missing (ls : list string) (l : string) (df : DataFrame) :
  In l ls -> ~ In l (columns df) -> raises (for_each f ls df).
Proof.
  revert df. induction ls as [| a r IH]; simpl; intros df Hin Hn;
    [contradiction |].
  destruct (update_col f a df) as [df1 | e] eqn:E;
    [| exists e; reflexivity].
  simpl. apply update_col_ok in E. destruct E as [c [c' [Hc [_ ->]]]].
  destruct Hin as [-> | Hin].
  - apply select_nil_iff in Hn. rewrite (getcol_absent _ _ Hn) in Hc.
    discriminate Hc.
  - apply IH; [exact Hin |]. rewrite columns_overwrite. exact Hn.
Qed.

End ForEach.

Lemma handle_missing_values_steps (df df' : DataFrame) :
  handle_missing_values df = Ok df' ->
  exists df1 df2 noc,
    for_each (fillna_text "Unknown") categorical_cols df = Ok df1
    /\ for_each fillna_median numerical_cols df1 = Ok df2
    /\ getcol NOC df2 = Ok noc
    /\ df' = setcol FLAG (BoolCol (isnull noc)) df2.
Proof.
  unfold handle_missing_values. intros H.
  invert_bind H. invert_bind H. invert_bind H. injection H as <-.
  exists x, x0, x1. auto.
Qed.

Lemma categorical_nodup : NoDup categorical_cols.
Proof.
  assert (H : nodup string_dec categorical_cols = categorical_cols)
    by reflexivity.
  rewrite <- H. apply NoDup_nodup.
Qed.

Lemma numerical_nodup : NoDup numerical_cols.
Proof.
  assert (H : nodup string_dec numerical_cols = numerical_cols)
    by reflexivity.
  rewrite <- H. apply NoDup_nodup.
Qed.

Lemma inb_false (l : string) (ls : list string) :
  inb l ls = false -> ~ In l ls.
Proof.
  unfold inb. intros H Hin.
  assert (E : existsb (String.eqb l) ls = true)
    by (apply existsb_exists; exists l; split;
        [exact Hin | apply String.eqb_refl]).
  congruence.
Qed.

(** The labels the filler reads are pairwise apart: a categorical label is
    neither numerical, nor the complaints label, nor the flag. *)
Lemma categorical_apart (l : string) :
  In l categorical_cols ->
  ~ In l numerical_cols /\ l <> NOC /\ l <> FLAG.
Proof.
  revert l. apply Forall_forall.
  repeat (constructor;
          [split; [apply inb_false; reflexivity | split; discriminate] |]).
  constructor.
Qed.

Lemma numerical_apart (l : string) :
  In l numerical_cols ->
  ~ In l categorical_cols /\ l <> NOC /\ l <> FLAG.
Proof.
  revert l. apply Forall_forall.
  repeat (constructor;
          [split; [apply inb_false; reflexivity | split; discriminate] |]).
  constructor.
Qed.

Lemma NOC_apart :
  ~ In NOC categorical_cols /\ ~ In NOC numerical_cols /\ NOC <> FLAG.
Proof.
  split; [apply inb_false; reflexivity |].
  split; [apply inb_false; reflexivity | discriminate].
Qed.

(** What the filler does to each column it reads. *)
Lemma handle_missing_values_columns (df df' : DataFrame) :
  handle_missing_values df = Ok df' ->
  (forall l, In l categorical_cols ->
     exists c c', getcol l df = Ok c /\ fillna_text "Unknown" c = Ok c'
                  /\ getcol l df' = Ok c')
  /\ (forall l, In l numerical_cols ->
        exists c c', getcol l df = Ok c /\ fillna_median c = Ok c'
                     /\ getcol l df' = Ok c')
  /\ (exists noc, getcol NOC df = Ok noc /\ getcol NOC df' = Ok noc
                  /\ exists k, select FLAG df'
                               = repeat (BoolCol (isnull noc)) (S k)).
Proof.
  intros H. apply handle_missing_values_steps in H.
  destruct H as [df1 [df2 [noc [H1 [H2 [Hn ->]]]]]].
  split; [| split].
  - intros l Hl. destruct (categorical_apart l Hl) as [Hnum [_ Hflag]].
    destruct (for_each_result _ _ _ _ categorical_nodup H1 l Hl)
      as [c [c' [Hc [Hf Hc']]]].
    exists c, c'. split; [exact Hc |]. split; [exact Hf |].
    rewrite (getcol_setcol_other _ _ _ _ Hflag). unfold getcol.
    rewrite (for_each_select _ _ _ _ _ H2 Hnum). exact Hc'.
  - intros l Hl. destruct (numerical_apart l Hl) as [Hcat [_ Hflag]].
    destruct (for_each_result _ _ _ _ numerical_nodup H2 l Hl)
      as [c [c' [Hc [Hf Hc']]]].
    exists c, c'. split; [| split; [exact Hf |]].
    + unfold getcol in *. rewrite <- (for_each_select _ _ _ _ _ H1 Hcat).
      exact Hc.
    + rewrite (getcol_setcol_other _ _ _ _ Hflag). exact Hc'.
  - destruct NOC_apart as [Hcat [Hnum Hflag]].
    exists noc. split; [| split].
    + unfold getcol in *.
      rewrite <- (for_each_select _ _ _ _ _ H1 Hcat),
        <- (for_each_select _ _ _ _ _ H2 Hnum). exact Hn.
    + rewrite (getcol_setcol_other _ _ _ _ Hflag). exact Hn.
    + apply select_setcol_same.
Qed.

Lemma for_each_ok (f : column -> result column) (ls : list string)
  (df : DataFrame) :
  NoDup ls ->
  (forall l, In l ls -> exists c c', getcol l df = Ok c /\ f c = Ok c') ->
  exists df', for_each f ls df = Ok df'.
Proof.
  revert df. induction ls as [| a r IH]; simpl; intros df Hnd H.
  - exists df. reflexivity.
  - inversion Hnd as [| ? ? Ha Hr]; subst.
    destruct (H a (or_introl eq_refl)) as [c [c' [Hc Hf]]].
    unfold update_col. rewrite Hc. simpl. rewrite Hf. simpl.
    apply (IH _ Hr). intros l Hl.
    destruct (H l (or_intror Hl)) as [d [d' [Hd Hfd]]].
    exists d, d'. split; [| exact Hfd].
    rewrite (setcol_present _ _ _ _ Hc), getcol_overwrite_other;
      [exact Hd | intros ->; contradiction].
Qed.

Lemma handle_missing_values_ok (df : DataFrame) :
  filler_ready df = true -> exists df', handle_missing_values df = Ok df'.
Proof.
  unfold filler_ready. rewrite !andb_true_iff, !forallb_forall.
  intros [[Hcat Hnum] Hnoc].
  destruct (for_each_ok (fillna_text "Unknown") categorical_cols df
              categorical_nodup) as [df1 H1].
  { intros l Hl. specialize (Hcat l Hl).
    destruct (getcol l df) as [[cells | | |] |]; try discriminate Hcat.
    eexists. eexists. split; reflexivity. }
  destruct (for_each_ok fillna_median numerical_cols df1 numerical_nodup)
    as [df2 H2].
  { intros l Hl. specialize (Hnum l Hl).
    destruct (numerical_apart l Hl) as [Hc _].
    unfold getcol in *. rewrite (for_each_select _ _ _ _ _ H1 Hc).
    destruct (select l df) as [| [| cells | |] [|]]; try discriminate Hnum.
    eexists. eexists. split; reflexivity. }
  destruct NOC_apart as [Hc [Hn _]].
  unfold handle_missing_values. rewrite H1. cbn [bind]. rewrite H2.
  cbn [bind]. fold NOC. unfold getcol in *.
  rewrite (for_each_select _ _ _ _ _ H2 Hn), (for_each_select _ _ _ _ _ H1 Hc).
  destruct (select NOC df) as [| c [|]]; try discriminate Hnoc.
  eexists. reflexivity.
Qed.

(** C7, as the code has it.  On a frame with text in the six categorical
    columns, floats in the four numerical columns and a complaints column,
    the filler returns.  In the returned frame each categorical column is
    the input column with [Unknown] in place of every null, and has no
    null; each numerical column is the input column with every null
    replaced by the median of the column's non-null cells, and it has no
    null when the input column holds a finite value, and when it holds a
    non-null value and not infinities of both signs. *)
Theorem filler_replaces_nulls (df : DataFrame) :
  filler_ready df = true ->
  exists df',
    handle_missing_values df = Ok df'
    /\ (forall l cells,
          In l categorical_cols -> getcol l df = Ok (ObjCol cells) ->
          getcol l df' = Ok (ObjCol (fill "Unknown" cells))
          /\ no_null (fill "Unknown" cells) = true)
    /\ (forall l cells,
          In l numerical_cols -> getcol l df = Ok (FloatCol cells) ->
          getcol l df' = Ok (FloatCol (fill_opt (median cells) cells))
          /\ (forall q, In (Some (Finite q)) cells ->
              no_null (fill_opt (median cells) cells) = true)
          /\ (dropna cells <> [] ->
              ~ (In (Some (Inf false)) cells /\ In (Some (Inf true)) cells) ->
              no_null (fill_opt (median cells) cells) = true)).
Proof.
  intros Hr. destruct (handle_missing_values_ok df Hr) as [df' H].
  exists df'. split; [exact H |].
  destruct (handle_missing_values_columns _ _ H) as [Hcat [Hnum _]].
  split.
  - intros l cells Hl Hc.
    destruct (Hcat l Hl) as [c [c' [Hc0 [Hf Hc']]]].
    rewrite Hc in Hc0. injection Hc0 as <-.
    simpl in Hf. injection Hf as <-.
    split; [exact Hc' | apply no_null_fill].
  - intros l cells Hl Hc.
    destruct (Hnum l Hl) as [c [c' [Hc0 [Hf Hc']]]].
    rewrite Hc in Hc0. injection Hc0 as <-.
    simpl in Hf. injection Hf as <-.
    split; [exact Hc' |]. split.
    + intros q Hq. destruct (median_finite cells q Hq) as [m ->].
      apply no_null_fill.
    + intros Hd Hi. destruct (median_defined cells Hd Hi) as [m ->].
      apply no_null_fill.
Qed.

(* ================================================================== *)
(** * The complaints flag *)

Lemma in_select (l : string) (c : column) (df : DataFrame) :
  In (l, c) df <-> In c (select l df).
Proof.
  induction df as [| [n c0] r IH]; simpl; [tauto |].
  destruct (String.eqb n l) eqn:E.
  - apply String.eqb_eq in E. subst n. simpl. rewrite <- IH.
    split; intros [H | H]; auto; left; congruence.
  - apply String.eqb_neq in E. rewrite <- IH.
    split; [intros [H | H]; [congruence | exact H] | auto].
Qed.

Lemma pipeline_steps (df df' : DataFrame) :
  main_cleaning_pipeline df = Ok df' ->
  exists df6, stages_1_to_6 df = Ok df6 /\ handle_missing_values df6 = Ok df'.
Proof.
  unfold main_cleaning_pipeline, stages_1_to_6. intros H.
  do 5 invert_bind H.
  rewrite Hx. cbn [bind]. rewrite Hx0. cbn [bind]. rewrite Hx1. cbn [bind].
  rewrite Hx2. cbn [bind]. exists x3. auto.
Qed.

(** C6.  When the pipeline returns [df'], the frame [df6] that stage 6
    handed to the filler has an integer complaints column; [df'] has the
    same complaints column, unfilled; [df'] has a [complaints_missing]
    column, every column of that label is the same boolean column, of the
    length of the complaints column, and its row [i] is true exactly when
    row [i] of the complaints column of [df6] is null. *)
Theorem complaints_flag_matches_nulls (df df' : DataFrame) :
  main_cleaning_pipeline df = Ok df' ->
  exists df6 ints flags,
    stages_1_to_6 df = Ok df6
    /\ getcol "number_of_open_complaints" df6 = Ok (IntCol ints)
    /\ getcol "number_of_open_complaints" df' = Ok (IntCol ints)
    /\ In "complaints_missing" (columns df')
    /\ (forall c, In ("complaints_missing", c) df' -> c = BoolCol flags)
    /\ List.length flags = List.length ints
    /\ forall i, nth_error flags i = Some true <-> nth_error ints i = Some None.
Proof.
  intros H. destruct (pipeline_steps _ _ H) as [df6 [H6 H7]].
  assert (Hs : exists d, clean_and_convert_numerical d = Ok df6).
  { unfold stages_1_to_6 in H6. do 4 invert_bind H6. exists x2. exact H6. }
  destruct Hs as [d Hd].
  destruct (clean_and_convert_numerical_inv _ _ Hd) as [clv [noc [Hc Hn]]].
  destruct (clean_and_convert_numerical_columns _ _ _ _ Hc Hn Hd)
    as [ints [_ [_ [_ Hi]]]].
  destruct (handle_missing_values_columns _ _ H7)
    as [_ [_ [col [Hcol [Hcol' [k Hk]]]]]].
  rewrite Hi in Hcol. injection Hcol as <-.
  exists df6, ints, (isnull (IntCol ints)).
  split; [exact H6 |]. split; [exact Hi |]. split; [exact Hcol' |].
  split; [| split; [| split]].
  - destruct (in_dec string_dec FLAG (columns df')) as [Hin | Hout];
      [exact Hin |].
    apply select_nil_iff in Hout. rewrite Hout in Hk. discriminate Hk.
  - intros c Hin. apply in_select in Hin. fold FLAG in Hin. rewrite Hk in Hin.
    apply repeat_spec in Hin. exact Hin.
  - simpl. apply length_map.
  - intros i. simpl. rewrite nth_error_map.
    destruct (nth_error ints i) as [[z |] |]; simpl;
      split; intros E; try discriminate E; reflexivity.
Qed.

(* ================================================================== *)
(** * Applying a stage twice *)

(** ** Stage 1 *)

Lemma lower_after_norm (c : ascii) :
  lower_char (space_char (lower_char c)) = space_char (lower_char c).
Proof.
  destruct c as [[] [] [] [] [] [] [] []]; reflexivity.
Qed.

Lemma space_after_norm (c : ascii) :
  space_char (space_char c) = space_char c.
Proof.
  destruct c as [[] [] [] [] [] [] [] []]; reflexivity.
Qed.

Lemma plain_label_fixed (s : string) : plain_label (plain_label s) = plain_label s.
Proof.
  unfold plain_label, replace_space, lower. fold space_char.
  induction s as [| c r IH]; simpl; [reflexivity |].
  rewrite lower_after_norm, space_after_norm. f_equal. exact IH.
Qed.

Lemma clean_label_fixed (s : string) : clean_label (clean_label s) = clean_label s.
Proof.
  unfold clean_label at 2 3. unfold rename_label.
  destruct (String.eqb (plain_label s) "st") eqn:E1; [reflexivity |].
  destruct (String.eqb (plain_label s) "income") eqn:E2; [reflexivity |].
  unfold clean_label, rename_label. rewrite plain_label_fixed, E1, E2.
  reflexivity.
Qed.

Lemma clean_column_names_labels (df : DataFrame) :
  clean_column_names df = map_labels clean_label df.
Proof.
  unfold clean_column_names, map_labels. rewrite !map_map.
  apply map_ext. intros [n c]. reflexivity.
Qed.

Lemma clean_column_names_fixed (df : DataFrame) :
  clean_column_names (clean_column_names df) = clean_column_names df.
Proof.
  rewrite !clean_column_names_labels. unfold map_labels. rewrite map_map.
  apply map_ext. intros [n c]. simpl. rewrite clean_label_fixed. reflexivity.
Qed.

(** ** Stage 7 *)

Lemma handle_missing_values_fixed (df df' : DataFrame) :
  handle_missing_values df = Ok df' -> handle_missing_values df' = Ok df'.
Proof.
  intros H.
  destruct (handle_missing_values_columns _ _ H)
    as [Hcat [Hnum [noc [_ [Hn [k Hk]]]]]].
  unfold handle_missing_values.
  rewrite for_each_fixed.
  - cbn [bind]. rewrite for_each_fixed.
    + cbn [bind]. fold NOC FLAG. rewrite Hn. cbn [bind]. f_equal.
      unfold setcol. rewrite Hk. cbn [repeat]. apply overwrite_fixed.
      rewrite Hk. intros c Hc. apply repeat_spec in Hc. exact Hc.
    + intros l Hl. destruct (Hnum l Hl) as [c [c' [_ [Hf Hc']]]].
      exists c'. split; [exact Hc' |].
      apply (fillna_median_result _ _ Hf).
  - intros l Hl. destruct (Hcat l Hl) as [c [c' [_ [Hf Hc']]]].
    exists c'. split; [exact Hc' |].
    apply (fillna_text_result _ _ _ Hf).
Qed.

(** ** Stage 6 *)

Lemma clean_and_convert_numerical_again (df df' : DataFrame) :
  clean_and_convert_numerical df = Ok df' ->
  clean_and_convert_numerical df' = Err AttributeError.
Proof.
  intros H.
  destruct (clean_and_convert_numerical_inv _ _ H) as [clv [noc [Hc Hn]]].
  destruct (clean_and_convert_numerical_columns _ _ _ _ Hc Hn H)
    as [ints [_ [_ [Hf _]]]].
  unfold clean_and_convert_numerical, getstr. fold CLV. rewrite Hf.
  reflexivity.
Qed.

(** C3, as the code has it.  Running the column-name normalizer twice
    gives the frame that running it once gives.  The gender, state,
    education and vehicle-class normalizers and the missing-value filler,
    applied to a frame they returned, return that frame again.  The
    numeric coercer does not: applied to a frame it returned, it raises,
    because the two columns it reads are no longer text. *)
Theorem stages_applied_twice :
  (forall df, clean_column_names (clean_column_names df) = clean_column_names df)
  /\ (forall stage df df',
        In stage idempotent_stages -> stage df = Ok df' -> stage df' = Ok df')
  /\ (forall df df',
        clean_and_convert_numerical df = Ok df' ->
        clean_and_convert_numerical df' = Err AttributeError).
Proof.
  split; [apply clean_column_names_fixed |].
  split; [| apply clean_and_convert_numerical_again].
  intros stage df df' Hin H. simpl in Hin.
  destruct Hin as [<- | [<- | [<- | [<- | [<- | []]]]]].
  - apply (text_stage_idempotent _ _ _ _ _ standardize_gender_stage
             gender_cell_fixed H).
  - apply (text_stage_idempotent _ _ _ _ _ standardize_state_stage
             state_cell_fixed H).
  - apply (text_stage_idempotent _ _ _ _ _ standardize_education_stage
             education_cell_fixed H).
  - apply (text_stage_idempotent _ _ _ _ _ standardize_vehicle_class_stage
             vehicle_cell_fixed H).
  - apply (handle_missing_values_fixed _ _ H).
Qed.

(* ================================================================== *)
(** * Missing columns *)

Lemma clean_and_convert_numerical_missing (l : string) (df : DataFrame) :
  In l [CLV; NOC] -> ~ In l (columns df) ->
  raises (clean_and_convert_numerical df).
Proof.
  intros Hin Hn. apply select_nil_iff in Hn.
  unfold clean_and_convert_numerical, getstr. fold CLV NOC.
  destruct Hin as [<- | [<- | []]].
  - rewrite (getcol_absent _ _ Hn). exists (KeyError CLV). reflexivity.
  - destruct (getcol CLV df) as [c |]; [| eexists; reflexivity]. cbn [bind].
    destruct (str_accessor c) as [clv |]; [| eexists; reflexivity].
    cbn [bind].
    destruct (getcol CLV (setcol CLV _ df)) as [c1 |];
      [| eexists; reflexivity].
    cbn [bind]. rewrite !(getcol_setcol_other _ _ _ _ CLV_NOC).
    rewrite (getcol_absent _ _ Hn). exists (KeyError NOC). reflexivity.
Qed.

Lemma handle_missing_values_missing (l : string) (df : DataFrame) :
  In l (categorical_cols ++ numerical_cols ++ [NOC])%list ->
  ~ In l (columns df) ->
  raises (handle_missing_values df).
Proof.
  intros Hin Hn. unfold handle_missing_values.
  apply in_app_or in Hin. destruct Hin as [Hin | Hin].
  - apply bind_raises. apply (for_each_missing _ _ _ _ Hin Hn).
  - destruct (for_each (fillna_text "Unknown") categorical_cols df)
      as [df1 |] eqn:E1; [| eexists; reflexivity].
    cbn [bind]. rewrite <- (for_each_columns _ _ _ _ E1) in Hn.
    apply in_app_or in Hin. destruct Hin as [Hin | Hin].
    + apply bind_raises. apply (for_each_missing _ _ _ _ Hin Hn).
    + destruct (for_each fillna_median numerical_cols df1)
        as [df2 |] eqn:E2; [| eexists; reflexivity].
      cbn [bind]. rewrite <- (for_each_columns _ _ _ _ E2) in Hn.
      destruct Hin as [<- | []].
      apply select_nil_iff in Hn. fold NOC.
      rewrite (getcol_absent _ _ Hn). eexists. reflexivity.
Qed.

(** C9, as the code has it.  Each of stages 2 to 7 raises on a frame
    that lacks a column the stage reads by label.  Stage 1 does not fail on
    a table whose labels are text: it returns a frame with the columns it
    was given.  On a table with positional labels, the empty table
    [pd.DataFrame()] among them, stage 1 raises [AttributeError]. *)
Theorem missing_column_raises :
  (forall stage refs l (df : DataFrame),
     In (stage, refs) referenced_columns ->
     In l refs ->
     ~ In l (columns df) ->
     raises (stage df))
  /\ (forall df, exists df',
        clean_column_names_of (TextTable df) = Ok df'
        /\ df' = clean_column_names df
        /\ map snd df' = map snd df)
  /\ (forall cols,
        clean_column_names_of (PositionalTable cols) = Err AttributeError).
Proof.
  split; [| split].
  - intros stage refs l df Hs Hl Hn. simpl in Hs.
    destruct Hs as [H | [H | [H | [H | [H | [H | []]]]]]];
      injection H as <- <-.
    + destruct Hl as [<- | []]. eexists.
      apply (text_stage_missing _ _ _ _ standardize_gender_stage Hn).
    + destruct Hl as [<- | []]. eexists.
      apply (text_stage_missing _ _ _ _ standardize_state_stage Hn).
    + destruct Hl as [<- | []]. eexists.
      apply (text_stage_missing _ _ _ _ standardize_education_stage Hn).
    + destruct Hl as [<- | []]. eexists.
      apply (text_stage_missing _ _ _ _ standardize_vehicle_class_stage Hn).
    + apply (clean_and_convert_numerical_missing l df Hl Hn).
    + apply (handle_missing_values_missing l df Hl Hn).
  - intros df. eexists. split; [reflexivity |]. split; [reflexivity |].
    rewrite clean_column_names_labels. unfold map_labels. rewrite map_map.
    apply map_ext. intros [n c]. reflexivity.
  - intros cols. reflexivity.
Qed.

(* ================================================================== *)
(** * The end-to-end example *)

(** C1, as the code has it.  On the one-row frame of the example, whatever
    the customer, policy type, claim amount, premium and income are, the
    pipeline returns the row with gender [F], state [CALIFORNIA],
    education [Bachelor], lifetime value the float64 of 897.23, 5 open
    complaints and the flag false; the vehicle class stays [luxury car],
    since the stage's leading character class is [L] or [u]. *)
Theorem end_to_end_example (customer policy_type : string) (tca mpa income : Q) :
  main_cleaning_pipeline (example_row customer policy_type tca mpa income)
  = Ok [("customer", ObjCol [Some customer]);
        ("state", ObjCol [Some "CALIFORNIA"]);
        ("gender", ObjCol [Some "F"]);
        ("education", ObjCol [Some "Bachelor"]);
        ("customer_lifetime_value", FloatCol [Some (to_float64 (89723 # 100))]);
        ("customer_income", FloatCol [Some (Finite income)]);
        ("monthly_premium_auto", FloatCol [Some (Finite mpa)]);
        ("number_of_open_complaints", IntCol [Some 5%Z]);
        ("policy_type", ObjCol [Some policy_type]);
        ("vehicle_class", ObjCol [Some "luxury car"]);
        ("total_claim_amount", FloatCol [Some (Finite tca)]);
        ("complaints_missing", BoolCol [false])].
Proof.
  vm_compute. reflexivity.
Qed.

(* ================================================================== *)
(** * Further properties of the stages *)

(** ** Stage 1: the cleaned labels *)

Lemma plain_label_chars (s : string) :
  string_forall label_char (plain_label s) = true.
Proof.
  unfold plain_label, replace_space, lower. fold space_char.
  induction s as [| c r IH]; simpl; [reflexivity |].
  rewrite IH, andb_true_r. clear.
  destruct c as [[] [] [] [] [] [] [] []]; reflexivity.
Qed.

(** X1.  Every label that [clean_column_names] returns is free of upper-case
    letters and of spaces, and is neither [st] nor [income]. *)
Theorem clean_column_names_labels_clean (df : DataFrame) (n : string) :
  In n (columns (clean_column_names df)) ->
  string_forall label_char n = true /\ n <> "st" /\ n <> "income".
Proof.
  rewrite clean_column_names_labels. unfold columns, map_labels.
  rewrite map_map. simpl. intros H. apply in_map_iff in H.
  destruct H as [[n0 c] [<- _]]. simpl.
  unfold clean_label, rename_label.
  destruct (String.eqb (plain_label n0) "st") eqn:E1;
    [repeat split; discriminate |].
  destruct (String.eqb (plain_label n0) "income") eqn:E2;
    [repeat split; discriminate |].
  apply String.eqb_neq in E1, E2.
  split; [apply plain_label_chars | split; assumption].
Qed.

(** ** Stages 2 and 4: the rules of the gender and education columns *)

Lemma starts_disjoint (v : string) :
  starts_in "Mm" v = true -> starts_in "Ff" v = false.
Proof.
  destruct v as [| c r]; simpl; [discriminate |].
  rewrite !orb_false_r, orb_true_iff, !Ascii.eqb_eq.
  intros [-> | ->]; reflexivity.
Qed.

Lemma first_char_in_weaken (set set' : list ascii) (v : string) :
  incl set set' -> first_char_in set v -> first_char_in set' v.
Proof.
  intros Hi [c [r [-> Hc]]]. exists c, r. split; [reflexivity | auto].
Qed.

Lemma gender_cell_rule (cell : option string) :
  gender_rule cell (option_map gender_cell cell).
Proof.
  destruct cell as [v |]; [| reflexivity].
  unfold gender_rule, option_map, gender_cell, assign.
  pose proof (starts_in_spec "Ff" v) as HF.
  pose proof (starts_in_spec "Mm" v) as HM.
  pose proof (starts_disjoint v) as HD.
  simpl list_ascii_of_string in HF, HM.
  split; [| split].
  - intros H. apply HF in H. rewrite H. reflexivity.
  - intros H. apply HM in H. rewrite (HD H), H. reflexivity.
  - intros Hn.
    destruct (starts_in "Ff" v) eqn:F.
    + exfalso. apply Hn.
      apply (first_char_in_weaken ["F"; "f"]%char);
        [intros x [<- | [<- | []]]; simpl; auto | apply HF; reflexivity].
    + destruct (starts_in "Mm" v) eqn:M; [| reflexivity].
      exfalso. apply Hn.
      apply (first_char_in_weaken ["M"; "m"]%char);
        [intros x [<- | [<- | []]]; simpl; auto | apply HM; reflexivity].
Qed.

Lemma education_cell_rule (cell : option string) :
  education_rule cell (option_map education_cell cell).
Proof.
  destruct cell as [v |]; [| reflexivity].
  unfold education_rule, option_map, education_cell, assign.
  pose proof (starts_in_spec "Bb" v) as HB.
  simpl list_ascii_of_string in HB.
  destruct (starts_in "Bb" v).
  - split; [reflexivity |]. intros Hn. exfalso. apply Hn, HB. reflexivity.
  - split; [| reflexivity]. intros H. apply HB in H. discriminate H.
Qed.

Lemma Forall2_map_rule {A B : Type} (R : A -> B -> Prop) (f : A -> B)
  (l : list A) :
  (forall a, R a (f a)) -> Forall2 R l (map f l).
Proof.
  intros H. induction l as [| a r IH]; simpl; constructor; auto.
Qed.

(** X2.  Whenever the gender stage returns, the [gender] column was text, and
    in the returned column a null stays null, a value beginning with [F]
    or [f] is [F], a value beginning with [M] or [m] is [M], and any other
    value is unchanged. *)
Theorem standardize_gender_rule (df df' : DataFrame) :
  standardize_gender df = Ok df' ->
  exists cells cells',
    getcol "gender" df = Ok (ObjCol cells)
    /\ getcol "gender" df' = Ok (ObjCol cells')
    /\ Forall2 gender_rule cells cells'.
Proof.
  intros H.
  destruct (text_stage_column _ _ _ _ _ standardize_gender_stage H)
    as [cells [Hc Hc']].
  exists cells, (map (option_map gender_cell) cells).
  split; [exact Hc |]. split; [exact Hc' |].
  apply Forall2_map_rule. apply gender_cell_rule.
Qed.

(** X3.  Whenever the education stage returns, the [education] column was
    text, and in the returned column a null stays null, a value beginning
    with [B] or [b] is [Bachelor], and any other value is unchanged. *)
Theorem standardize_education_rule (df df' : DataFrame) :
  standardize_education df = Ok df' ->
  exists cells cells',
    getcol "education" df = Ok (ObjCol cells)
    /\ getcol "education" df' = Ok (ObjCol cells')
    /\ Forall2 education_rule cells cells'.
Proof.
  intros H.
  destruct (text_stage_column _ _ _ _ _ standardize_education_stage H)
    as [cells [Hc Hc']].
  exists cells, (map (option_map education_cell) cells).
  split; [exact Hc |]. split; [exact Hc' |].
  apply Forall2_map_rule. apply education_cell_rule.
Qed.

(** ** Stage 3: no code survives *)

Lemma state_cell_not_code (s : string) :
  ~ In (state_cell s) state_codes /\ upper (state_cell s) = state_cell s.
Proof.
  unfold state_cell, replace_cell.
  destruct (lookup (upper s) state_mapping) as [v |] eqn:E.
  - apply lookup_in in E. apply (in_map snd) in E. simpl in E.
    destruct (state_names_stable v E) as [Hu Hl].
    split; [apply lookup_none; exact Hl | exact Hu].
  - split; [apply lookup_none; exact E | apply upper_fixed].
Qed.

(** X4.  Whenever the state stage returns, no cell of the returned [state]
    column is a key of the abbreviation map, and every cell is its own
    upper-case form. *)
Theorem standardize_state_no_code (df df' : DataFrame) :
  standardize_state df = Ok df' ->
  exists cells',
    getcol "state" df' = Ok (ObjCol cells')
    /\ forall v, In (Some v) cells' ->
                 ~ In v state_codes /\ upper v = v.
Proof.
  intros H.
  destruct (text_stage_column _ _ _ _ _ standardize_state_stage H)
    as [cells [_ Hc']].
  exists (map (option_map state_cell) cells). split; [exact Hc' |].
  intros v Hin. apply in_map_iff in Hin.
  destruct Hin as [[s |] [E _]]; [| discriminate E].
  injection E as <-. apply state_cell_not_code.
Qed.

(** ** Stages 2 to 5: when they return *)

(** X5.  Each of the four single-column normalizers returns a frame exactly
    when the frame has one column of the stage's label and that column is
    text. *)
Theorem single_column_stage_returns stage l (df : DataFrame) :
  In (stage, l) single_column_stages ->
  ((exists df', stage df = Ok df')
   <-> exists cells, select l df = [ObjCol cells]).
Proof.
  intros Hin. destruct (single_column_stages_text _ _ Hin) as [f Hf].
  specialize (Hf df). split.
  - intros [df' H]. destruct (getstr l df) as [cells | e] eqn:E;
      [| congruence].
    exists cells. apply getcol_ok_select, getstr_ok. exact E.
  - intros [cells H]. apply getcol_ok_select, getstr_ok in H.
    rewrite H in Hf. eexists. exact Hf.
Qed.

(** ** Frames that agree outside some labels *)

Lemma same_outside_refl (ls : list string) (df : DataFrame) :
  same_outside ls df df.
Proof.
  unfold same_outside. induction df; constructor; auto.
Qed.

Lemma same_outside_trans (ls : list string) (a b c : DataFrame) :
  same_outside ls a b -> same_outside ls b c -> same_outside ls a c.
Proof.
  unfold same_outside. intros H. revert c.
  induction H as [| p q r r' [Hn [Hr Hc]] _ IH]; intros c Hbc;
    inversion Hbc as [| q' s r'' t [Hn' [Hr' Hc']] Ht]; subst; constructor.
  - split; [congruence |]. split; [congruence |].
    intros Hout. transitivity (snd q); [apply Hc; exact Hout |].
    apply Hc'. intros Hin. apply Hout. rewrite Hn. exact Hin.
  - apply IH. exact Ht.
Qed.

Lemma same_outside_mono (ls ls' : list string) (a b : DataFrame) :
  incl ls ls' -> same_outside ls a b -> same_outside ls' a b.
Proof.
  unfold same_outside. intros Hi H.
  induction H as [| p q r r' [Hn [Hr Hc]] _ IH]; constructor; [| exact IH].
  split; [exact Hn |]. split; [exact Hr |].
  intros Hout. apply Hc. intros Hin. apply Hout, Hi, Hin.
Qed.

Lemma same_except_outside (l : string) (a b : DataFrame) :
  same_except l a b -> same_outside [l] a b.
Proof.
  unfold same_except, same_outside.
  induction 1 as [| p q r r' [Hn [Hr Hc]] _ IH]; constructor; [| exact IH].
  split; [exact Hn |]. split; [exact Hr |].
  intros Hout. apply Hc. intros E. apply Hout. left. symmetry. exact E.
Qed.

Lemma same_outside_columns (ls : list string) (a b : DataFrame) :
  same_outside ls a b -> columns b = columns a.
Proof.
  unfold columns. induction 1 as [| p q r r' [Hn _] _ IH]; simpl; congruence.
Qed.

Lemma same_outside_select (ls : list string) (l : string) (a b : DataFrame) :
  same_outside ls a b -> ~ In l ls -> select l b = select l a.
Proof.
  intros H Hout.
  induction H as [| [n c] [n' c'] r r' [Hn [_ Hc]] _ IH]; simpl in *;
    [reflexivity |].
  subst n'. destruct (String.eqb n l) eqn:E; [| exact IH].
  apply String.eqb_eq in E. subst n. rewrite (Hc Hout), IH. reflexivity.
Qed.

Lemma same_outside_count (ls : list string) (l : string) (a b : DataFrame) :
  same_outside ls a b ->
  List.length (select l b) = List.length (select l a).
Proof.
  intros H.
  induction H as [| [n c] [n' c'] r r' [Hn _] _ IH]; simpl in *;
    [reflexivity |].
  subst n'. destruct (String.eqb n l); simpl; congruence.
Qed.

Lemma same_outside_overwrite (ls : list string) (l : string) (c c0 : column)
  (df : DataFrame) :
  In l ls -> getcol l df = Ok c0 -> nrows c0 = nrows c ->
  same_outside ls df (overwrite l c df).
Proof.
  intros Hin Hc Hr.
  apply (same_outside_mono [l]);
    [intros x [<- | []]; exact Hin |].
  apply same_except_outside, same_except_overwrite.
  apply getcol_ok_select in Hc. rewrite Hc. intros c1 [<- | []]. exact Hr.
Qed.

(** ** Stage 6: frame, return condition and the values it yields *)

Lemma clean_and_convert_numerical_outside (df df' : DataFrame) :
  clean_and_convert_numerical df = Ok df' -> same_outside [CLV; NOC] df df'.
Proof.
  intros H.
  destruct (clean_and_convert_numerical_inv _ _ H) as [clv [noc [Hc Hn]]].
  destruct (clean_and_convert_numerical_columns _ _ _ _ Hc Hn H)
    as [ints [Hi [-> _]]].
  apply same_outside_trans
    with (overwrite CLV (FloatCol (map lifetime_cell clv)) df).
  - apply (same_outside_overwrite _ CLV _ (ObjCol clv)).
    + left. reflexivity.
    + exact Hc.
    + simpl. rewrite length_map. reflexivity.
  - apply (same_outside_overwrite _ NOC _ (ObjCol noc)).
    + right. left. reflexivity.
    + rewrite (getcol_overwrite_other _ _ _ _ CLV_NOC). exact Hn.
    + simpl. symmetry. apply (token_numbers_length _ _ Hi).
Qed.

(** X6.  Whenever the numeric coercer returns, the returned frame has the
    labels of the input in the same order and the same number of rows in
    every column, and every column other than [customer_lifetime_value]
    and [number_of_open_complaints] is unchanged. *)
Theorem clean_and_convert_numerical_frame (df df' : DataFrame) :
  clean_and_convert_numerical df = Ok df' ->
  same_outside ["customer_lifetime_value"; "number_of_open_complaints"] df df'
  /\ columns df' = columns df.
Proof.
  intros H. pose proof (clean_and_convert_numerical_outside _ _ H) as Hs.
  split; [exact Hs | apply (same_outside_columns _ _ _ Hs)].
Qed.

(** X7.  The numeric coercer returns a frame only when the frame has one
    [customer_lifetime_value] column and one [number_of_open_complaints]
    column and both are text.  On such a frame the only exception it can
    raise is the [TypeError] of the integer cast, and when every digit
    token of the complaints column has at most 15 digits it returns, with
    an integer complaints column: null stays null, a text cell with no
    slash-delimited digit token becomes null, and any other cell becomes
    the integer value of its leftmost token. *)
Theorem clean_and_convert_numerical_returns (df : DataFrame) :
  ((exists df', clean_and_convert_numerical df = Ok df') ->
   exists clv noc,
     select "customer_lifetime_value" df = [ObjCol clv]
     /\ select "number_of_open_complaints" df = [ObjCol noc])
  /\ (forall clv noc,
        select "customer_lifetime_value" df = [ObjCol clv] ->
        select "number_of_open_complaints" df = [ObjCol noc] ->
        (forall e, clean_and_convert_numerical df = Err e -> e = TypeError)
        /\ (short_tokens 15 noc = true ->
            exists df' ints,
              clean_and_convert_numerical df = Ok df'
              /\ getcol "number_of_open_complaints" df' = Ok (IntCol ints)
              /\ Forall2 complaints_rule noc ints)).
Proof.
  split.
  - intros [df' H].
    destruct (clean_and_convert_numerical_inv _ _ H) as [clv [noc [Hc Hn]]].
    exists clv, noc. split; apply getcol_ok_select; assumption.
  - intros clv noc Hc Hn. apply getcol_ok_select in Hc, Hn.
    pose proof (clean_and_convert_numerical_eq _ _ _ Hc Hn) as E.
    split.
    + intros e H. rewrite E in H.
      destruct (astype_Int64 (token_numbers noc)) as [ints | e0] eqn:A;
        cbn [bind] in H; [discriminate H |].
      injection H as <-. apply (astype_Int64_error _ _ A).
    + intros Hs. rewrite (astype_short_tokens noc Hs) in E. cbn [bind] in E.
      eexists. exists (map complaints_cell noc).
      split; [exact E |]. split; [| apply complaints_cell_rule].
      destruct (clean_and_convert_numerical_columns _ _ _ _ Hc Hn E)
        as [ints [Hi [_ [_ Hg]]]].
      rewrite (astype_short_tokens noc Hs) in Hi. injection Hi as <-.
      exact Hg.
Qed.

(** X8.  Whenever the numeric coercer returns, [customer_lifetime_value] is a
    float column and [number_of_open_complaints] an integer column, both
    as long as before, and no integer in the latter is negative. *)
Theorem clean_and_convert_numerical_values (df df' : DataFrame) :
  clean_and_convert_numerical df = Ok df' ->
  exists clv noc floats ints,
    getcol "customer_lifetime_value" df = Ok (ObjCol clv)
    /\ getcol "number_of_open_complaints" df = Ok (ObjCol noc)
    /\ getcol "customer_lifetime_value" df' = Ok (FloatCol floats)
    /\ getcol "number_of_open_complaints" df' = Ok (IntCol ints)
    /\ List.length floats = List.length clv
    /\ List.length ints = List.length noc
    /\ forall z, In (Some z) ints -> (0 <= z)%Z.
Proof.
  intros H.
  destruct (clean_and_convert_numerical_inv _ _ H) as [clv [noc [Hc Hn]]].
  destruct (clean_and_convert_numerical_columns _ _ _ _ Hc Hn H)
    as [ints [Hi [_ [Hf Hg]]]].
  exists clv, noc, (map lifetime_cell clv), ints.
  split; [exact Hc |]. split; [exact Hn |]. split; [exact Hf |].
  split; [exact Hg |]. split; [apply length_map |].
  split; [apply (token_numbers_length _ _ Hi) |].
  apply (token_numbers_nonneg _ _ Hi).
Qed.

(** ** Stage 7: what the filler leaves alone and what it guarantees *)

Lemma inb_select (l : string) (df : DataFrame) :
  inb l (columns df) = false <-> select l df = [].
Proof.
  unfold inb, columns. induction df as [| [n c] r IH]; simpl.
  - tauto.
  - rewrite String.eqb_sym. destruct (String.eqb n l); simpl.
    + split; discriminate.
    + exact IH.
Qed.

Lemma columns_app (a b : DataFrame) :
  columns (a ++ b)%list = (columns a ++ columns b)%list.
Proof.
  apply map_app.
Qed.

Lemma columns_setcol (l : string) (c : column) (df : DataFrame) :
  columns (setcol l c df)
  = if inb l (columns df) then columns df else (columns df ++ [l])%list.
Proof.
  unfold setcol. destruct (select l df) as [| c0 r] eqn:E.
  - rewrite (proj2 (inb_select l df) E). apply columns_app.
  - destruct (inb l (columns df)) eqn:I.
    + apply columns_overwrite.
    + apply inb_select in I. congruence.
Qed.

Lemma handle_missing_values_labels (df df' : DataFrame) :
  handle_missing_values df = Ok df' ->
  columns df'
  = if inb FLAG (columns df) then columns df else (columns df ++ [FLAG])%list.
Proof.
  intros H. apply handle_missing_values_steps in H.
  destruct H as [df1 [df2 [noc [H1 [H2 [Hn ->]]]]]].
  rewrite columns_setcol.
  rewrite (for_each_columns _ _ _ _ H2), (for_each_columns _ _ _ _ H1).
  reflexivity.
Qed.

Lemma handle_missing_values_select (df df' : DataFrame) (l : string) :
  handle_missing_values df = Ok df' ->
  ~ In l (categorical_cols ++ numerical_cols)%list -> l <> FLAG ->
  select l df' = select l df.
Proof.
  intros H Hout Hflag. apply handle_missing_values_steps in H.
  destruct H as [df1 [df2 [noc [H1 [H2 [Hn ->]]]]]].
  rewrite (select_setcol_other _ _ _ _ Hflag).
  rewrite (for_each_select _ _ _ _ _ H2), (for_each_select _ _ _ _ _ H1);
    [reflexivity | |]; intros Hin; apply Hout, in_or_app; auto.
Qed.

(** X9.  Whenever the filler returns, every column whose label is neither one
    of the ten filled labels nor [complaints_missing] is unchanged, the
    complaints column among them; the labels are those of the input, with
    [complaints_missing] added on the right when the input did not have
    it. *)
Theorem handle_missing_values_frame (df df' : DataFrame) :
  handle_missing_values df = Ok df' ->
  (forall l, ~ In l (categorical_cols ++ numerical_cols)%list ->
             l <> "complaints_missing" ->
             select l df' = select l df)
  /\ select "number_of_open_complaints" df'
     = select "number_of_open_complaints" df
  /\ columns df'
     = if inb "complaints_missing" (columns df)
       then columns df
       else (columns df ++ ["complaints_missing"])%list.
Proof.
  intros H. apply handle_missing_values_steps in H.
  destruct H as [df1 [df2 [noc [H1 [H2 [Hn ->]]]]]].
  assert (Hsel : forall l, ~ In l (categorical_cols ++ numerical_cols)%list ->
                           l <> FLAG ->
                           select l (setcol FLAG (BoolCol (isnull noc)) df2)
                           = select l df).
  { intros l Hout Hflag.
    rewrite (select_setcol_other _ _ _ _ Hflag).
    rewrite (for_each_select _ _ _ _ _ H2), (for_each_select _ _ _ _ _ H1);
      [reflexivity | |]; intros Hin; apply Hout, in_or_app; auto. }
  split; [exact Hsel |]. split.
  - apply Hsel; [| discriminate].
    intros Hin. apply in_app_or in Hin.
    destruct NOC_apart as [Hc [Hm _]]. destruct Hin; contradiction.
  - rewrite columns_setcol.
    rewrite (for_each_columns _ _ _ _ H2), (for_each_columns _ _ _ _ H1).
    reflexivity.
Qed.

Lemma keeps_values_refl (c : column) : keeps_values c c.
Proof.
  split; auto.
Qed.

Lemma fill_keeps {A : Type} (g : A -> value) (x : A) (cells : list (option A))
  (i : nat) (v : value) :
  nth_error (map (option_map g) cells) i = Some (Some v) ->
  nth_error (map (option_map g) (fill x cells)) i = Some (Some v).
Proof.
  unfold fill. rewrite !nth_error_map.
  destruct (nth_error cells i) as [[a |] |]; simpl; intros H;
    [exact H | discriminate H | discriminate H].
Qed.

Lemma fill_length {A : Type} (x : A) (cells : list (option A)) :
  List.length (fill x cells) = List.length cells.
Proof.
  apply length_map.
Qed.

Lemma fillna_text_keeps (v : string) (c c' : column) :
  fillna_text v c = Ok c' -> keeps_values c c'.
Proof.
  destruct c as [cells | cells | cells | cells]; simpl.
  - intros H. injection H as <-. split; [apply fill_length |].
    intros i x. apply fill_keeps.
  - destruct (has_null _); [discriminate |]. intros H. injection H as <-.
    apply keeps_values_refl.
  - destruct (has_null _); [discriminate |]. intros H. injection H as <-.
    apply keeps_values_refl.
  - destruct (has_null _); [discriminate |]. intros H. injection H as <-.
    apply keeps_values_refl.
Qed.

Lemma fillna_median_keeps (c c' : column) :
  fillna_median c = Ok c' -> keeps_values c c'.
Proof.
  destruct c as [cells | cells | cells | cells]; cbn [fillna_median].
  - discriminate.
  - intros H. injection H as <-.
    destruct (median cells) as [m |]; [| apply keeps_values_refl].
    split; [apply fill_length | intros i x; apply fill_keeps].
  - destruct (median _) as [m |].
    + destruct (has_null _).
      * destruct (integer_of m) as [z |]; [| discriminate].
        intros H. injection H as <-.
        split; [apply fill_length | intros i x; apply fill_keeps].
      * intros H. injection H as <-. apply keeps_values_refl.
    + intros H. injection H as <-. apply keeps_values_refl.
  - intros H. injection H as <-. apply keeps_values_refl.
Qed.

Lemma existsb_false {A : Type} (f : A -> bool) (l : list A) :
  (forall x, In x l -> f x = false) -> existsb f l = false.
Proof.
  induction l as [| a r IH]; simpl; intros H; [reflexivity |].
  rewrite (H a (or_introl eq_refl)), IH; [reflexivity |].
  intros x Hx. apply H. right. exact Hx.
Qed.

Lemma fillna_median_nulls (c c' : column) :
  fillna_median c = Ok c' -> has_null c' = false \/ has_finite c' = false.
Proof.
  destruct c as [cells | cells | cells | cells]; cbn [fillna_median].
  - discriminate.
  - intros H. injection H as <-.
    destruct (median cells) as [m |] eqn:M; cbn [fill_opt].
    + left. unfold has_null. simpl.
      rewrite has_null_no_null, no_null_fill. reflexivity.
    + right. cbn [has_finite]. apply existsb_false.
      intros [[q | n] |] Hx; try reflexivity.
      destruct (median_finite cells q Hx) as [m Hm]. congruence.
  - destruct (median (map (option_map float_of_Z) cells)) as [m |] eqn:M.
    + destruct (has_null (IntCol cells)) eqn:N.
      * destruct (integer_of m) as [z |]; [| discriminate].
        intros H. injection H as <-. left. unfold has_null. simpl.
        rewrite has_null_no_null, no_null_fill. reflexivity.
      * intros H. injection H as <-. left. exact N.
    + intros H. injection H as <-. right. cbn [has_finite].
      apply existsb_false. intros [z |] Hx; [| reflexivity].
      assert (Hf : In (Some (float_of_Z z)) (map (option_map float_of_Z) cells))
        by (apply in_map_iff; exists (Some z); split; [reflexivity | exact Hx]).
      destruct (median_finite _ _ Hf) as [m Hm]. congruence.
  - intros H. injection H as <-. left. apply has_null_bool.
Qed.

(** X10.  Whenever the filler returns, none of the six categorical columns has
    a null left, and each of the four numerical columns either has no
    null left or holds no finite value (nothing but nulls and
    infinities). *)
Theorem handle_missing_values_nulls (df df' : DataFrame) :
  handle_missing_values df = Ok df' ->
  (forall l, In l categorical_cols ->
     exists c', getcol l df' = Ok c' /\ has_null c' = false)
  /\ (forall l, In l numerical_cols ->
        exists c', getcol l df' = Ok c'
                   /\ (has_null c' = false \/ has_finite c' = false)).
Proof.
  intros H.
  destruct (handle_missing_values_columns _ _ H) as [Hcat [Hnum _]]. split.
  - intros l Hl. destruct (Hcat l Hl) as [c [c' [_ [Hf Hc']]]].
    exists c'. split; [exact Hc' | apply (fillna_text_result _ _ _ Hf)].
  - intros l Hl. destruct (Hnum l Hl) as [c [c' [_ [Hf Hc']]]].
    exists c'. split; [exact Hc' | apply (fillna_median_nulls _ _ Hf)].
Qed.

(** X11.  Whenever the filler returns, each of the ten filled columns is as
    long as before and every cell of it that was not null is unchanged:
    the filler writes into null cells only. *)
Theorem handle_missing_values_keeps_values (df df' : DataFrame) (l : string) :
  handle_missing_values df = Ok df' ->
  In l (categorical_cols ++ numerical_cols)%list ->
  exists c c',
    getcol l df = Ok c /\ getcol l df' = Ok c'
    /\ nrows c' = nrows c
    /\ forall i v, nth_error (cells_of c) i = Some (Some v) ->
                   nth_error (cells_of c') i = Some (Some v).
Proof.
  intros H Hl.
  destruct (handle_missing_values_columns _ _ H) as [Hcat [Hnum _]].
  apply in_app_or in Hl. destruct Hl as [Hl | Hl].
  - destruct (Hcat l Hl) as [c [c' [Hc [Hf Hc']]]].
    exists c, c'. split; [exact Hc |]. split; [exact Hc' |].
    apply (fillna_text_keeps _ _ _ Hf).
  - destruct (Hnum l Hl) as [c [c' [Hc [Hf Hc']]]].
    exists c, c'. split; [exact Hc |]. split; [exact Hc' |].
    apply (fillna_median_keeps _ _ Hf).
Qed.

(* ================================================================== *)
(** * Further properties of the pipeline *)

(** ** The frame of stages 2 to 6 *)

Lemma text_stage_outside stage l f (ls : list string) (df df' : DataFrame) :
  text_stage stage l f -> In l ls -> stage df = Ok df' ->
  same_outside ls df df'.
Proof.
  intros Hs Hin H.
  apply (same_outside_mono [l]); [intros x [<- | []]; exact Hin |].
  apply same_except_outside. apply (text_stage_frame _ _ _ _ _ Hs H).
Qed.

Lemma text_stage_reads stage l f (df df' : DataFrame) :
  text_stage stage l f -> stage df = Ok df' ->
  exists cells, select l df = [ObjCol cells].
Proof.
  intros Hs H.
  destruct (text_stage_column _ _ _ _ _ Hs H) as [cells [Hc _]].
  exists cells. apply getcol_ok_select. exact Hc.
Qed.

(** The intermediate frames of a run of stages 1 to 6. *)
Lemma stages_1_to_6_steps (df df6 : DataFrame) :
  stages_1_to_6 df = Ok df6 ->
  exists d1 d2 d3 d4,
    standardize_gender (clean_column_names df) = Ok d1
    /\ standardize_state d1 = Ok d2
    /\ standardize_education d2 = Ok d3
    /\ standardize_vehicle_class d3 = Ok d4
    /\ clean_and_convert_numerical d4 = Ok df6.
Proof.
  unfold stages_1_to_6. intros H. do 4 invert_bind H.
  exists x, x0, x1, x2. auto.
Qed.

Lemma stages_1_to_6_outside (df df6 : DataFrame) :
  stages_1_to_6 df = Ok df6 ->
  same_outside text_read_cols (clean_column_names df) df6.
Proof.
  intros H. apply stages_1_to_6_steps in H.
  destruct H as [d1 [d2 [d3 [d4 [H1 [H2 [H3 [H4 H5]]]]]]]].
  apply same_outside_trans with d1;
    [apply (text_stage_outside _ _ _ _ _ _ standardize_gender_stage);
     [simpl; auto | exact H1] |].
  apply same_outside_trans with d2;
    [apply (text_stage_outside _ _ _ _ _ _ standardize_state_stage);
     [simpl; auto | exact H2] |].
  apply same_outside_trans with d3;
    [apply (text_stage_outside _ _ _ _ _ _ standardize_education_stage);
     [simpl; auto | exact H3] |].
  apply same_outside_trans with d4;
    [apply (text_stage_outside _ _ _ _ _ _ standardize_vehicle_class_stage);
     [simpl; tauto | exact H4] |].
  apply (same_outside_mono [CLV; NOC]);
    [intros x [<- | [<- | []]]; simpl; tauto |].
  apply (clean_and_convert_numerical_outside _ _ H5).
Qed.

Lemma stages_1_to_6_reads (df df6 : DataFrame) (l : string) :
  stages_1_to_6 df = Ok df6 -> In l text_read_cols ->
  exists cells, select l (clean_column_names df) = [ObjCol cells].
Proof.
  intros H Hl. apply stages_1_to_6_steps in H.
  destruct H as [d1 [d2 [d3 [d4 [H1 [H2 [H3 [H4 H5]]]]]]]].
  pose proof (text_stage_frame _ _ _ _ _ standardize_gender_stage H1) as F1.
  pose proof (text_stage_frame _ _ _ _ _ standardize_state_stage H2) as F2.
  pose proof (text_stage_frame _ _ _ _ _ standardize_education_stage H3) as F3.
  pose proof (text_stage_frame _ _ _ _ _ standardize_vehicle_class_stage H4)
    as F4.
  destruct (clean_and_convert_numerical_inv _ _ H5) as [clv [noc [Hc Hn]]].
  apply getcol_ok_select in Hc, Hn.
  simpl in Hl. destruct Hl as [<- | [<- | [<- | [<- | [<- | [<- | []]]]]]].
  - apply (text_stage_reads _ _ _ _ _ standardize_gender_stage H1).
  - rewrite <- (same_except_select _ "state" _ _ F1) by discriminate.
    apply (text_stage_reads _ _ _ _ _ standardize_state_stage H2).
  - rewrite <- (same_except_select _ "education" _ _ F1) by discriminate.
    rewrite <- (same_except_select _ "education" _ _ F2) by discriminate.
    apply (text_stage_reads _ _ _ _ _ standardize_education_stage H3).
  - rewrite <- (same_except_select _ "vehicle_class" _ _ F1) by discriminate.
    rewrite <- (same_except_select _ "vehicle_class" _ _ F2) by discriminate.
    rewrite <- (same_except_select _ "vehicle_class" _ _ F3) by discriminate.
    apply (text_stage_reads _ _ _ _ _ standardize_vehicle_class_stage H4).
  - exists clv. fold CLV.
    rewrite <- (same_except_select _ CLV _ _ F1) by discriminate.
    rewrite <- (same_except_select _ CLV _ _ F2) by discriminate.
    rewrite <- (same_except_select _ CLV _ _ F3) by discriminate.
    rewrite <- (same_except_select _ CLV _ _ F4) by discriminate.
    exact Hc.
  - exists noc. fold NOC.
    rewrite <- (same_except_select _ NOC _ _ F1) by discriminate.
    rewrite <- (same_except_select _ NOC _ _ F2) by discriminate.
    rewrite <- (same_except_select _ NOC _ _ F3) by discriminate.
    rewrite <- (same_except_select _ NOC _ _ F4) by discriminate.
    exact Hn.
Qed.

(** ** What a run needs *)

(** X13.  The pipeline raises on every frame that, once its labels are cleaned,
    lacks one of the eleven columns the stages read. *)
Theorem pipeline_missing_column (df : DataFrame) (l : string) :
  In l required_cols ->
  ~ In l (columns (clean_column_names df)) ->
  raises (main_cleaning_pipeline df).
Proof.
  intros Hl Hn.
  destruct (main_cleaning_pipeline df) as [df' | e] eqn:E;
    [| exists e; reflexivity].
  exfalso. destruct (pipeline_steps _ _ E) as [df6 [H6 H7]].
  rewrite <- (same_outside_columns _ _ _ (stages_1_to_6_outside _ _ H6)) in Hn.
  destruct (handle_missing_values_missing l df6 Hl Hn) as [e He].
  congruence.
Qed.

(** X14.  The pipeline returns only on a frame in which, once the labels are
    cleaned, each of the six columns read through the text accessor
    occurs exactly once and is text. *)
Theorem pipeline_reads_text_once (df df' : DataFrame) (l : string) :
  main_cleaning_pipeline df = Ok df' ->
  In l text_read_cols ->
  exists cells, select l (clean_column_names df) = [ObjCol cells].
Proof.
  intros H Hl. destruct (pipeline_steps _ _ H) as [df6 [H6 _]].
  apply (stages_1_to_6_reads _ _ _ H6 Hl).
Qed.

(** X15.  Whenever the pipeline returns, the labels of the returned frame are
    the cleaned labels of the input, in order, with [complaints_missing]
    added on the right when it was not among them. *)
Theorem pipeline_labels (df df' : DataFrame) :
  main_cleaning_pipeline df = Ok df' ->
  columns df'
  = if inb "complaints_missing" (columns (clean_column_names df))
    then columns (clean_column_names df)
    else (columns (clean_column_names df) ++ ["complaints_missing"])%list.
Proof.
  intros H. destruct (pipeline_steps _ _ H) as [df6 [H6 H7]].
  rewrite (handle_missing_values_labels _ _ H7).
  rewrite (same_outside_columns _ _ _ (stages_1_to_6_outside _ _ H6)).
  reflexivity.
Qed.

(** ** When a run returns *)

Lemma is_text_col_ok (r : result column) :
  is_text_col r = true -> exists cells, r = Ok (ObjCol cells).
Proof.
  destruct r as [[cells | | |] |]; try discriminate. intros _. exists cells.
  reflexivity.
Qed.

Lemma text_stage_runs stage l f (df : DataFrame) :
  text_stage stage l f -> is_text_col (getcol l df) = true ->
  exists df', stage df = Ok df'.
Proof.
  intros Hs Ht. apply is_text_col_ok in Ht. destruct Ht as [cells Hc].
  specialize (Hs df). rewrite (proj2 (getstr_ok _ _ _) Hc) in Hs.
  eexists. exact Hs.
Qed.

Lemma text_stage_kinds stage l f (df df' : DataFrame) (l' : string) :
  text_stage stage l f -> stage df = Ok df' ->
  is_text_col (getcol l' df') = is_text_col (getcol l' df)
  /\ is_float_col (getcol l' df') = is_float_col (getcol l' df).
Proof.
  intros Hs H.
  destruct (text_stage_column _ _ _ _ _ Hs H) as [cells [Hc Hc']].
  destruct (string_dec l' l) as [-> | Hne].
  - rewrite Hc, Hc'. split; reflexivity.
  - unfold getcol.
    rewrite (same_except_select _ _ _ _ (text_stage_frame _ _ _ _ _ Hs H) Hne).
    split; reflexivity.
Qed.

Lemma ready_filler (d4 df6 : DataFrame) :
  (forall l, In l (text_read_cols ++ ["customer"; "policy_type"])%list ->
             is_text_col (getcol l d4) = true) ->
  (forall l, In l ["total_claim_amount"; "monthly_premium_auto";
                   "customer_income"] ->
             is_float_col (getcol l d4) = true) ->
  clean_and_convert_numerical d4 = Ok df6 ->
  filler_ready df6 = true.
Proof.
  intros Ht Hf H6.
  destruct (clean_and_convert_numerical_inv _ _ H6) as [clv [noc [Hc Hn]]].
  destruct (clean_and_convert_numerical_columns _ _ _ _ Hc Hn H6)
    as [ints [_ [_ [Hc6 Hn6]]]].
  pose proof (clean_and_convert_numerical_outside _ _ H6) as F.
  assert (Hsame : forall l, l <> CLV -> l <> NOC ->
                            getcol l df6 = getcol l d4).
  { intros l H1 H2. unfold getcol.
    rewrite (same_outside_select _ l _ _ F); [reflexivity |].
    intros [E | [E | []]]; congruence. }
  unfold filler_ready. rewrite !andb_true_iff, !forallb_forall.
  split; [split |].
  - intros l Hl. destruct (categorical_apart l Hl) as [Hnum [Hnoc _]].
    rewrite Hsame; [| intros ->; apply Hnum; simpl; tauto | exact Hnoc].
    apply Ht. simpl in Hl |- *. tauto.
  - intros l Hl. destruct (string_dec l CLV) as [-> | Hne].
    + rewrite Hc6. reflexivity.
    + destruct (numerical_apart l Hl) as [_ [Hnoc _]].
      rewrite (Hsame l Hne Hnoc). apply Hf.
      simpl in Hl |- *. unfold CLV in Hne.
      destruct Hl as [E | [E | [E | [E | []]]]]; auto;
        symmetry in E; contradiction.
  - fold NOC. rewrite Hn6. reflexivity.
Qed.

(** X16.  The pipeline returns a frame on every input in which, once the labels
    are cleaned, the six text-read columns, [customer] and [policy_type]
    are text columns, the three amounts are float columns, and every
    digit token of the complaints column has at most 15 digits. *)
Theorem pipeline_returns (df : DataFrame) (noc : list (option string)) :
  pipeline_ready df = true ->
  getcol "number_of_open_complaints" (clean_column_names df)
  = Ok (ObjCol noc) ->
  short_tokens 15 noc = true ->
  exists df', main_cleaning_pipeline df = Ok df'.
Proof.
  unfold pipeline_ready. rewrite andb_true_iff, !forallb_forall.
  intros [Ht Hf] Hnoc Hshort.
  destruct (text_stage_runs _ _ _ (clean_column_names df)
              standardize_gender_stage) as [d1 H1];
    [apply Ht; simpl; tauto |].
  pose proof (fun l => text_stage_kinds _ _ _ _ _ l standardize_gender_stage H1)
    as K1.
  destruct (text_stage_runs _ _ _ d1 standardize_state_stage) as [d2 H2];
    [rewrite (proj1 (K1 _)); apply Ht; simpl; tauto |].
  pose proof (fun l => text_stage_kinds _ _ _ _ _ l standardize_state_stage H2)
    as K2.
  destruct (text_stage_runs _ _ _ d2 standardize_education_stage) as [d3 H3];
    [rewrite (proj1 (K2 _)), (proj1 (K1 _)); apply Ht; simpl; tauto |].
  pose proof (fun l =>
                text_stage_kinds _ _ _ _ _ l standardize_education_stage H3)
    as K3.
  destruct (text_stage_runs _ _ _ d3 standardize_vehicle_class_stage)
    as [d4 H4];
    [rewrite (proj1 (K3 _)), (proj1 (K2 _)), (proj1 (K1 _)); apply Ht;
     simpl; tauto |].
  pose proof (fun l =>
                text_stage_kinds _ _ _ _ _ l standardize_vehicle_class_stage H4)
    as K4.
  assert (Ht4 : forall l,
             In l (text_read_cols ++ ["customer"; "policy_type"])%list ->
             is_text_col (getcol l d4) = true).
  { intros l Hl.
    rewrite (proj1 (K4 _)), (proj1 (K3 _)), (proj1 (K2 _)), (proj1 (K1 _)).
    apply Ht, Hl. }
  assert (Hf4 : forall l,
             In l ["total_claim_amount"; "monthly_premium_auto";
                   "customer_income"] ->
             is_float_col (getcol l d4) = true).
  { intros l Hl.
    rewrite (proj2 (K4 _)), (proj2 (K3 _)), (proj2 (K2 _)), (proj2 (K1 _)).
    apply Hf, Hl. }
  destruct (is_text_col_ok _ (Ht4 CLV ltac:(simpl; tauto))) as [clv Hc].
  assert (Hn : getcol NOC d4 = Ok (ObjCol noc)).
  { rewrite <- Hnoc. unfold getcol. fold NOC.
    rewrite (same_except_select _ NOC _ _
               (text_stage_frame _ _ _ _ _ standardize_vehicle_class_stage H4))
      by discriminate.
    rewrite (same_except_select _ NOC _ _
               (text_stage_frame _ _ _ _ _ standardize_education_stage H3))
      by discriminate.
    rewrite (same_except_select _ NOC _ _
               (text_stage_frame _ _ _ _ _ standardize_state_stage H2))
      by discriminate.
    rewrite (same_except_select _ NOC _ _
               (text_stage_frame _ _ _ _ _ standardize_gender_stage H1))
      by discriminate.
    reflexivity. }
  pose proof (clean_and_convert_numerical_eq _ _ _ Hc Hn) as H6.
  rewrite (astype_short_tokens noc Hshort) in H6. cbn [bind] in H6.
  destruct (handle_missing_values_ok _ (ready_filler _ _ Ht4 Hf4 H6))
    as [df' H7].
  exists df'. unfold main_cleaning_pipeline.
  rewrite H1. cbn [bind]. rewrite H2. cbn [bind]. rewrite H3. cbn [bind].
  rewrite H4. cbn [bind]. rewrite H6. cbn [bind]. exact H7.
Qed.

(** ** Running the pipeline on its own output *)

Lemma clean_column_names_id (df : DataFrame) :
  (forall n, In n (columns df) -> clean_label n = n) ->
  clean_column_names df = df.
Proof.
  rewrite clean_column_names_labels. unfold map_labels, columns.
  induction df as [| [n c] r IH]; simpl; intros H; [reflexivity |].
  rewrite (H n (or_introl eq_refl)), IH by (intros; apply H; right; assumption).
  reflexivity.
Qed.

Lemma clean_labels_fixed (df : DataFrame) (n : string) :
  In n (columns (clean_column_names df)) -> clean_label n = n.
Proof.
  rewrite clean_column_names_labels. unfold columns, map_labels.
  rewrite map_map. simpl. intros H. apply in_map_iff in H.
  destruct H as [[n0 c] [<- _]]. apply clean_label_fixed.
Qed.

(** X17.  The pipeline cannot be run on a frame it returned: the labels are
    already clean, and the numeric coercer finds the lifetime value no
    longer text and raises. *)
Theorem pipeline_not_rerunnable (df df' : DataFrame) :
  main_cleaning_pipeline df = Ok df' ->
  clean_column_names df' = df' /\ raises (main_cleaning_pipeline df').
Proof.
  intros H.
  assert (Hid : clean_column_names df' = df').
  { apply clean_column_names_id. intros n Hn.
    destruct (pipeline_steps _ _ H) as [df6 [H6 H7]].
    rewrite (handle_missing_values_labels _ _ H7) in Hn.
    rewrite (same_outside_columns _ _ _ (stages_1_to_6_outside _ _ H6)) in Hn.
    destruct (inb FLAG (columns (clean_column_names df))).
    - apply (clean_labels_fixed df n Hn).
    - apply in_app_or in Hn. destruct Hn as [Hn | [<- | []]].
      + apply (clean_labels_fixed df n Hn).
      + reflexivity. }
  split; [exact Hid |].
  assert (Hfloat : exists cells, select CLV df' = [FloatCol cells]).
  { destruct (pipeline_steps _ _ H) as [df6 [H6 H7]].
    destruct (stages_1_to_6_steps _ _ H6) as [d1 [d2 [d3 [d4 [_ [_ [_ [_ H5]]]]]]]].
    destruct (clean_and_convert_numerical_inv _ _ H5) as [clv [noc [Hc Hn]]].
    destruct (clean_and_convert_numerical_columns _ _ _ _ Hc Hn H5)
      as [ints [_ [_ [Hc6 _]]]].
    destruct (handle_missing_values_columns _ _ H7) as [_ [Hnum _]].
    destruct (Hnum CLV ltac:(simpl; tauto)) as [c [c' [Hc0 [Hf Hc']]]].
    rewrite Hc6 in Hc0. injection Hc0 as <-. simpl in Hf. injection Hf as <-.
    eexists. apply getcol_ok_select. exact Hc'. }
  destruct Hfloat as [cells Hfl].
  unfold main_cleaning_pipeline. rewrite Hid.
  destruct (standardize_gender df') as [d1 |] eqn:E1;
    [| eexists; reflexivity]. cbn [bind].
  destruct (standardize_state d1) as [d2 |] eqn:E2;
    [| eexists; reflexivity]. cbn [bind].
  destruct (standardize_education d2) as [d3 |] eqn:E3;
    [| eexists; reflexivity]. cbn [bind].
  destruct (standardize_vehicle_class d3) as [d4 |] eqn:E4;
    [| eexists; reflexivity]. cbn [bind].
  pose proof (text_stage_frame _ _ _ _ _ standardize_gender_stage E1) as F1.
  pose proof (text_stage_frame _ _ _ _ _ standardize_state_stage E2) as F2.
  pose proof (text_stage_frame _ _ _ _ _ standardize_education_stage E3) as F3.
  pose proof (text_stage_frame _ _ _ _ _ standardize_vehicle_class_stage E4)
    as F4.
  rewrite <- (same_except_select _ CLV _ _ F1) in Hfl by discriminate.
  rewrite <- (same_except_select _ CLV _ _ F2) in Hfl by discriminate.
  rewrite <- (same_except_select _ CLV _ _ F3) in Hfl by discriminate.
  rewrite <- (same_except_select _ CLV _ _ F4) in Hfl by discriminate.
  apply getcol_ok_select in Hfl.
  unfold clean_and_convert_numerical, getstr. fold CLV. rewrite Hfl.
  exists AttributeError. reflexivity.
Qed.

(** ** The columns of the returned frame *)

Lemma stages_1_to_6_text (df df6 : DataFrame) l f :
  stages_1_to_6 df = Ok df6 -> In (l, f) normalizers ->
  exists cells,
    select l (clean_column_names df) = [ObjCol cells]
    /\ select l df6 = [ObjCol (map (option_map f) cells)].
Proof.
  intros H Hl. apply stages_1_to_6_steps in H.
  destruct H as [d1 [d2 [d3 [d4 [H1 [H2 [H3 [H4 H5]]]]]]]].
  pose proof (text_stage_frame _ _ _ _ _ standardize_gender_stage H1) as F1.
  pose proof (text_stage_frame _ _ _ _ _ standardize_state_stage H2) as F2.
  pose proof (text_stage_frame _ _ _ _ _ standardize_education_stage H3) as F3.
  pose proof (text_stage_frame _ _ _ _ _ standardize_vehicle_class_stage H4)
    as F4.
  pose proof (clean_and_convert_numerical_outside _ _ H5) as F5.
  assert (N5 : forall x, x <> CLV -> x <> NOC -> ~ In x [CLV; NOC])
    by (intros x A B [E | [E | []]]; congruence).
  simpl in Hl. destruct Hl as [E | [E | [E | [E | []]]]]; injection E as <- <-.
  - destruct (text_stage_column _ _ _ _ _ standardize_gender_stage H1)
      as [cells [Hc Hc']].
    apply getcol_ok_select in Hc, Hc'. exists cells. split; [exact Hc |].
    rewrite (same_outside_select _ _ _ _ F5) by (apply N5; discriminate).
    rewrite (same_except_select _ "gender" _ _ F4) by discriminate.
    rewrite (same_except_select _ "gender" _ _ F3) by discriminate.
    rewrite (same_except_select _ "gender" _ _ F2) by discriminate.
    exact Hc'.
  - destruct (text_stage_column _ _ _ _ _ standardize_state_stage H2)
      as [cells [Hc Hc']].
    apply getcol_ok_select in Hc, Hc'. exists cells. split.
    + rewrite <- (same_except_select _ "state" _ _ F1) by discriminate.
      exact Hc.
    + rewrite (same_outside_select _ _ _ _ F5) by (apply N5; discriminate).
      rewrite (same_except_select _ "state" _ _ F4) by discriminate.
      rewrite (same_except_select _ "state" _ _ F3) by discriminate.
      exact Hc'.
  - destruct (text_stage_column _ _ _ _ _ standardize_education_stage H3)
      as [cells [Hc Hc']].
    apply getcol_ok_select in Hc, Hc'. exists cells. split.
    + rewrite <- (same_except_select _ "education" _ _ F1) by discriminate.
      rewrite <- (same_except_select _ "education" _ _ F2) by discriminate.
      exact Hc.
    + rewrite (same_outside_select _ _ _ _ F5) by (apply N5; discriminate).
      rewrite (same_except_select _ "education" _ _ F4) by discriminate.
      exact Hc'.
  - destruct (text_stage_column _ _ _ _ _ standardize_vehicle_class_stage H4)
      as [cells [Hc Hc']].
    apply getcol_ok_select in Hc, Hc'. exists cells. split.
    + rewrite <- (same_except_select _ "vehicle_class" _ _ F1) by discriminate.
      rewrite <- (same_except_select _ "vehicle_class" _ _ F2) by discriminate.
      rewrite <- (same_except_select _ "vehicle_class" _ _ F3) by discriminate.
      exact Hc.
    + rewrite (same_outside_select _ _ _ _ F5) by (apply N5; discriminate).
      exact Hc'.
Qed.

(** X18.  Whenever the pipeline returns, each of the gender, state, education
    and vehicle-class columns of the returned frame is the column of the
    cleaned input with the stage's cell function applied to every
    non-null cell and [Unknown] put in every null cell. *)
Theorem pipeline_text_columns (df df' : DataFrame) l f :
  main_cleaning_pipeline df = Ok df' ->
  In (l, f) normalizers ->
  exists cells,
    select l (clean_column_names df) = [ObjCol cells]
    /\ getcol l df' = Ok (ObjCol (fill "Unknown" (map (option_map f) cells))).
Proof.
  intros H Hl. destruct (pipeline_steps _ _ H) as [df6 [H6 H7]].
  destruct (stages_1_to_6_text _ _ _ _ H6 Hl) as [cells [Hc Hc6]].
  exists cells. split; [exact Hc |].
  destruct (handle_missing_values_columns _ _ H7) as [Hcat _].
  assert (Hin : In l categorical_cols).
  { simpl in Hl. destruct Hl as [E | [E | [E | [E | []]]]];
      injection E as <- _; simpl; tauto. }
  destruct (Hcat l Hin) as [c [c' [Hc0 [Hf Hc']]]].
  apply getcol_ok_select in Hc6. rewrite Hc6 in Hc0. injection Hc0 as <-.
  simpl in Hf. injection Hf as <-. exact Hc'.
Qed.

Lemma median_odd (cells : list (option float)) (m : float) :
  Nat.odd (List.length (dropna cells)) = true ->
  median cells = Some m -> In (Some m) cells.
Proof.
  unfold median. rewrite length_sort_values. intros Hodd H.
  assert (Hn : List.length (dropna cells) <> 0)
    by (intros E; rewrite E in Hodd; discriminate Hodd).
  assert (Hlt : List.length (dropna cells) / 2 < List.length (dropna cells))
    by (apply Nat.div_lt; lia).
  destruct (List.length (dropna cells)) as [| n] eqn:L; [contradiction |].
  rewrite Hodd in H. injection H as <-.
  apply in_dropna, sort_values_in, nth_In.
  rewrite length_sort_values, L. exact Hlt.
Qed.

(** X12.  Whenever the filler returns, every null cell of a numerical float
    column that comes out filled holds the median of the column's
    non-null cells, and that median is one of the column's own values
    when the number of non-null cells is odd. *)
Theorem filler_fills_with_median (df df' : DataFrame) (l : string)
  (cells : list (option float)) :
  handle_missing_values df = Ok df' ->
  In l numerical_cols ->
  getcol l df = Ok (FloatCol cells) ->
  exists cells',
    getcol l df' = Ok (FloatCol cells')
    /\ forall i x,
         nth_error cells i = Some None ->
         nth_error cells' i = Some (Some x) ->
         median cells = Some x
         /\ (Nat.odd (List.length (dropna cells)) = true ->
             In (Some x) cells).
Proof.
  intros H Hl Hc.
  destruct (handle_missing_values_columns _ _ H) as [_ [Hnum _]].
  destruct (Hnum l Hl) as [c [c' [Hc0 [Hf Hc']]]].
  rewrite Hc in Hc0. injection Hc0 as <-. simpl in Hf. injection Hf as <-.
  exists (fill_opt (median cells) cells). split; [exact Hc' |].
  intros i x Hi Hx.
  destruct (median cells) as [m |] eqn:M; cbn [fill_opt] in Hx.
  - unfold fill in Hx. rewrite nth_error_map, Hi in Hx. simpl in Hx.
    injection Hx as <-. split; [reflexivity |].
    intros Hodd. apply (median_odd cells m Hodd M).
  - rewrite Hi in Hx. discriminate Hx.
Qed.

(** X19.  Whenever the pipeline returns, the lifetime-value column of the
    returned frame holds the floats parsed from the cleaned input, with
    their median in the null cells; the complaints column holds the
    Int64 cast of the digit tokens of the cleaned input, nulls kept, which
    are the integer values of the leftmost tokens when no token has more
    than 15 digits. *)
Theorem pipeline_numeric_columns (df df' : DataFrame) :
  main_cleaning_pipeline df = Ok df' ->
  exists clv noc ints,
    select "customer_lifetime_value" (clean_column_names df) = [ObjCol clv]
    /\ select "number_of_open_complaints" (clean_column_names df)
       = [ObjCol noc]
    /\ getcol "customer_lifetime_value" df'
       = Ok (FloatCol (fill_opt (median (map lifetime_cell clv))
                         (map lifetime_cell clv)))
    /\ astype_Int64 (token_numbers noc) = Ok ints
    /\ getcol "number_of_open_complaints" df' = Ok (IntCol ints)
    /\ (short_tokens 15 noc = true -> Forall2 complaints_rule noc ints).
Proof.
  intros H. destruct (pipeline_steps _ _ H) as [df6 [H6 H7]].
  destruct (stages_1_to_6_steps _ _ H6)
    as [d1 [d2 [d3 [d4 [H1 [H2 [H3 [H4 H5]]]]]]]].
  pose proof (text_stage_frame _ _ _ _ _ standardize_gender_stage H1) as F1.
  pose proof (text_stage_frame _ _ _ _ _ standardize_state_stage H2) as F2.
  pose proof (text_stage_frame _ _ _ _ _ standardize_education_stage H3) as F3.
  pose proof (text_stage_frame _ _ _ _ _ standardize_vehicle_class_stage H4)
    as F4.
  destruct (clean_and_convert_numerical_inv _ _ H5) as [clv [noc [Hc Hn]]].
  destruct (clean_and_convert_numerical_columns _ _ _ _ Hc Hn H5)
    as [ints [Hi [_ [Hc6 Hn6]]]].
  exists clv, noc, ints. fold CLV NOC.
  split; [| split; [| split; [| split; [exact Hi | split]]]].
  - rewrite <- (same_except_select _ CLV _ _ F1) by discriminate.
    rewrite <- (same_except_select _ CLV _ _ F2) by discriminate.
    rewrite <- (same_except_select _ CLV _ _ F3) by discriminate.
    rewrite <- (same_except_select _ CLV _ _ F4) by discriminate.
    apply getcol_ok_select. exact Hc.
  - rewrite <- (same_except_select _ NOC _ _ F1) by discriminate.
    rewrite <- (same_except_select _ NOC _ _ F2) by discriminate.
    rewrite <- (same_except_select _ NOC _ _ F3) by discriminate.
    rewrite <- (same_except_select _ NOC _ _ F4) by discriminate.
    apply getcol_ok_select. exact Hn.
  - destruct (handle_missing_values_columns _ _ H7) as [_ [Hnum _]].
    destruct (Hnum CLV ltac:(simpl; tauto)) as [c [c' [Hc0 [Hf Hc']]]].
    rewrite Hc6 in Hc0. injection Hc0 as <-. simpl in Hf.
    injection Hf as <-. exact Hc'.
  - destruct (handle_missing_values_columns _ _ H7)
      as [_ [_ [col [Hcol [Hcol' _]]]]].
    rewrite Hn6 in Hcol. injection Hcol as <-. exact Hcol'.
  - intros Hs. rewrite (astype_short_tokens noc Hs) in Hi.
    injection Hi as <-. apply complaints_cell_rule.
Qed.

(** X20.  Whenever the pipeline returns, every column whose cleaned label is
    neither one of the eleven the stages read nor [complaints_missing]
    comes out as it went in. *)
Theorem pipeline_untouched_columns (df df' : DataFrame) (l : string) :
  main_cleaning_pipeline df = Ok df' ->
  ~ In l required_cols -> l <> "complaints_missing" ->
  select l df' = select l (clean_column_names df).
Proof.
  intros H Hout Hflag. destruct (pipeline_steps _ _ H) as [df6 [H6 H7]].
  rewrite (handle_missing_values_select _ _ l H7);
    [| intros Hin; apply Hout; unfold required_cols;
       apply in_app_or in Hin; apply in_or_app;
       destruct Hin; [left | right; apply in_or_app; left]; assumption
     | exact Hflag].
  apply (same_outside_select _ _ _ _ (stages_1_to_6_outside _ _ H6)).
  intros Hin. apply Hout. unfold required_cols. simpl in Hin |- *. tauto.
Qed.

End Pipeline.

(* ================================================================== *)
(** * The definitions and the theorems on sample frames *)

Example median_of_three_and_a_null :
  fill_opt (median [Some (Finite 10000); Some (Finite 20000); None;
                    Some (Finite 30000)])
    [Some (Finite 10000); Some (Finite 20000); None; Some (Finite 30000)]
  = [Some (Finite 10000); Some (Finite 20000); Some (Finite 20000);
     Some (Finite 30000)].
Proof. reflexivity. Qed.

Example median_of_an_even_number :
  median [Some (Finite 1); None; Some (Finite 4)] = Some (Finite (5 # 2)).
Proof. vm_compute. reflexivity. Qed.

Example median_of_opposite_infinities :
  median [Some (Inf false); Some (Inf true)] = None.
Proof. reflexivity. Qed.

Example whole_number_beyond_int64 :
  astype_Int64
    (to_numeric_col (ObjCol [Some "99999999999999999999"; Some "5"]))
  = Err TypeError.
Proof. vm_compute. reflexivity. Qed.

Example extract_middle_token : extract "1/5/00" = Some "5".
Proof. reflexivity. Qed.

Example extract_no_token : extract "bogus" = None.
Proof. reflexivity. Qed.

Example sports_is_a_word :
  contains_word "Sports" "Sports Car" = true
  /\ contains_word "Sports" "Sportscar" = false
  /\ contains_word "Sports" "sports car" = false.
Proof. repeat split. Qed.

Example clean_column_names_raw :
  columns (clean_column_names raw_frame)
  = ["customer"; "state"; "gender"; "education"; "customer_lifetime_value";
     "customer_income"; "monthly_premium_auto"; "number_of_open_complaints";
     "policy_type"; "vehicle_class"; "total_claim_amount"].
Proof. reflexivity. Qed.

Lemma single_column_stage_frame_witness :
  let df := clean_column_names raw_frame in
  let df' := the_frame (standardize_state df) in
  same_except "state" df df'
  /\ columns df' = columns df
  /\ (forall l', l' <> "state" -> select l' df' = select l' df)
  /\ (forall l' c, l' <> "state" ->
        (getcol l' df' = Ok c <-> getcol l' df = Ok c)).
Proof.
  apply (single_column_stage_frame standardize_state "state").
  - simpl. right. left. reflexivity.
  - vm_compute. reflexivity.
Defined.

Lemma vehicle_class_rule_witness :
  exists df' cells',
    standardize_vehicle_class vehicle_sample = Ok df'
    /\ getcol "vehicle_class" df' = Ok (ObjCol cells')
    /\ Forall2 (vehicle_rule ["L"; "u"]%char)
         [Some "Luxury SUV"; Some "Sports Car"; Some "upscale";
          Some "luxury car"; Some "Upscale"; None] cells'.
Proof.
  apply (vehicle_class_rule vehicle_sample). reflexivity.
Defined.

(** C2 as claimed fails: values beginning with a lower-case [l] or an
    upper-case [U] are in the claimed class, and the stage keeps them. *)
Lemma vehicle_class_rule_counterexample :
  first_char_in ["L"; "l"; "U"; "u"]%char "luxury car"
  /\ first_char_in ["L"; "l"; "U"; "u"]%char "Upscale"
  /\ standardize_vehicle_class vehicle_sample
     = Ok [("customer",
              ObjCol [Some "A"; Some "B"; Some "C"; Some "D"; Some "E"; None]);
           ("vehicle_class",
              ObjCol [Some "Luxury"; Some "Luxury"; Some "Luxury";
                      Some "luxury car"; Some "Upscale"; None])].
Proof.
  split; [| split].
  - exists "l"%char, "uxury car". simpl. auto.
  - exists "U"%char, "pscale". simpl. auto.
  - reflexivity.
Qed.

Lemma state_normalizer_rule_witness :
  let df := clean_column_names raw_frame in
  exists df' cells',
    standardize_state df = Ok df'
    /\ getcol "state" df' = Ok (ObjCol cells')
    /\ Forall2 state_rule
         [Some "Washington"; Some "az"; Some "Cali"; None] cells'.
Proof.
  apply (proj2 state_normalizer_rule (clean_column_names raw_frame)).
  reflexivity.
Defined.

Lemma numeric_coercion_raises_on_overflow_witness :
  clean_and_convert_numerical overflow_sample = Err TypeError.
Proof.
  apply (numeric_coercion_raises_on_overflow overflow_sample
           [Some "897.23%"; Some "12.5"]
           [Some "1/99999999999999999999/00"; Some "1/5/00"]
           "1/99999999999999999999/00" "99999999999999999999").
  - reflexivity.
  - reflexivity.
  - simpl. left. reflexivity.
  - reflexivity.
  - simpl. lia.
  - vm_compute. discriminate.
Defined.

Lemma lifetime_value_strips_every_percent_witness :
  exists clv clv',
    getcol "customer_lifetime_value" numeric_sample = Ok (ObjCol clv)
    /\ getcol "customer_lifetime_value"
         (the_frame (clean_and_convert_numerical numeric_sample))
       = Ok (FloatCol clv')
    /\ Forall2 lifetime_rule clv clv'.
Proof.
  apply (lifetime_value_strips_every_percent numeric_sample).
  vm_compute. reflexivity.
Defined.

(** C5 as claimed fails: with one percent sign removed the text [12.5%%]
    would not parse, yet the stage turns it into 12.5. *)
Lemma lifetime_value_two_percents_counterexample :
  to_numeric "12.5%" = None
  /\ clean_and_convert_numerical numeric_sample
     = Ok [("customer_lifetime_value",
              FloatCol [Some (Finite (25 # 2)); Some (Finite (89723 # 100)); None; None;
                        None; Some (Finite (-300 # 1))]);
           ("number_of_open_complaints",
              IntCol [Some 5%Z; None; None; None; Some 7%Z; Some 12%Z])].
Proof.
  split; reflexivity.
Qed.

Lemma filler_replaces_nulls_witness :
  exists df',
    handle_missing_values coerced_frame = Ok df'
    /\ (forall l cells,
          In l categorical_cols ->
          getcol l coerced_frame = Ok (ObjCol cells) ->
          getcol l df' = Ok (ObjCol (fill "Unknown" cells))
          /\ no_null (fill "Unknown" cells) = true)
    /\ (forall l cells,
          In l numerical_cols ->
          getcol l coerced_frame = Ok (FloatCol cells) ->
          getcol l df' = Ok (FloatCol (fill_opt (median cells) cells))
          /\ (forall q, In (Some (Finite q)) cells ->
              no_null (fill_opt (median cells) cells) = true)
          /\ (dropna cells <> [] ->
              ~ (In (Some (Inf false)) cells /\ In (Some (Inf true)) cells) ->
              no_null (fill_opt (median cells) cells) = true)).
Proof.
  apply (filler_replaces_nulls coerced_frame). vm_compute. reflexivity.
Defined.

(** C7 as claimed fails: a numerical column without any non-null cell has
    no median, and the filler returns it with its nulls. *)
Lemma filler_all_null_counterexample :
  handle_missing_values no_income_frame
  = Ok [("customer", ObjCol [Some "RB50392"; Some "Unknown"]);
        ("state", ObjCol [Some "WASHINGTON"; Some "ARIZONA"]);
        ("gender", ObjCol [Some "Unknown"; Some "F"]);
        ("education", ObjCol [Some "Master"; Some "Bachelor"]);
        ("customer_lifetime_value", FloatCol [Some (Finite 7000); Some (Finite 7000)]);
        ("customer_income", FloatCol [None; None]);
        ("monthly_premium_auto", FloatCol [Some (Finite 94); Some (Finite 108)]);
        ("number_of_open_complaints", IntCol [Some 0%Z; None]);
        ("policy_type", ObjCol [Some "Personal Auto"; Some "Corporate Auto"]);
        ("vehicle_class", ObjCol [Some "Luxury"; Some "SUV"]);
        ("total_claim_amount", FloatCol [Some (Finite 2); Some (Finite 1131)]);
        ("complaints_missing", BoolCol [false; true])].
Proof.
  vm_compute. reflexivity.
Qed.

Lemma complaints_flag_matches_nulls_witness :
  let df' := the_frame (main_cleaning_pipeline raw_frame) in
  exists df6 ints flags,
    stages_1_to_6 raw_frame = Ok df6
    /\ getcol "number_of_open_complaints" df6 = Ok (IntCol ints)
    /\ getcol "number_of_open_complaints" df' = Ok (IntCol ints)
    /\ In "complaints_missing" (columns df')
    /\ (forall c, In ("complaints_missing", c) df' -> c = BoolCol flags)
    /\ List.length flags = List.length ints
    /\ forall i, nth_error flags i = Some true <-> nth_error ints i = Some None.
Proof.
  apply (complaints_flag_matches_nulls raw_frame). vm_compute. reflexivity.
Defined.

Lemma stages_applied_twice_witness :
  let df' := the_frame (handle_missing_values coerced_frame) in
  let nf' := the_frame (clean_and_convert_numerical numeric_sample) in
  handle_missing_values df' = Ok df'
  /\ clean_and_convert_numerical nf' = Err AttributeError.
Proof.
  split.
  - apply (proj1 (proj2 stages_applied_twice) handle_missing_values
             coerced_frame).
    + simpl. do 4 right. left. reflexivity.
    + vm_compute. reflexivity.
  - apply (proj2 (proj2 stages_applied_twice) numeric_sample).
    vm_compute. reflexivity.
Defined.

(** C3 as claimed fails for the numeric coercer: on a frame with two text
    columns it returns a frame, and on that frame it raises. *)
Lemma coercion_twice_counterexample :
  clean_and_convert_numerical numeric_sample
  = Ok [("customer_lifetime_value",
           FloatCol [Some (Finite (25 # 2)); Some (Finite (89723 # 100)); None; None; None;
                     Some (Finite (-300 # 1))]);
        ("number_of_open_complaints",
           IntCol [Some 5%Z; None; None; None; Some 7%Z; Some 12%Z])]
  /\ bind (clean_and_convert_numerical numeric_sample)
       clean_and_convert_numerical
     = Err AttributeError.
Proof.
  split; reflexivity.
Qed.

Lemma missing_column_raises_witness :
  raises (handle_missing_values
            (the_frame (standardize_vehicle_class vehicle_sample))).
Proof.
  apply (proj1 missing_column_raises handle_missing_values
           (categorical_cols ++ numerical_cols
              ++ ["number_of_open_complaints"])%list
           "monthly_premium_auto").
  - simpl. do 5 right. left. reflexivity.
  - simpl. do 7 right. left. reflexivity.
  - apply inb_false. vm_compute. reflexivity.
Defined.

(** C9 as claimed fails: stage 1 raises on a table built without names,
    [pd.DataFrame([[1]])], whose one label is the position 0. *)
Lemma column_names_positional_counterexample :
  clean_column_names_of (PositionalTable [IntCol [Some 1%Z]])
  = Err AttributeError
  /\ ~ (exists df',
          clean_column_names_of (PositionalTable [IntCol [Some 1%Z]])
          = Ok df').
Proof.
  split; [reflexivity | intros [df' H]; discriminate H].
Qed.

Example main_cleaning_pipeline_of_positional :
  main_cleaning_pipeline_of (PositionalTable []) = Err AttributeError.
Proof. reflexivity. Qed.

Example main_cleaning_pipeline_of_text :
  main_cleaning_pipeline_of (TextTable raw_frame)
  = main_cleaning_pipeline raw_frame.
Proof. reflexivity. Qed.

(** C1 as claimed fails: the example's output has [Luxury] as vehicle
    class, and the pipeline returns [luxury car]. *)
Lemma end_to_end_example_counterexample :
  bind (main_cleaning_pipeline
          (example_row "QZ44356" "Personal Auto" 1131%Q 94%Q 48767%Q))
       (getcol "vehicle_class")
  = Ok (ObjCol [Some "luxury car"])
  /\ Ok (ObjCol [Some "luxury car"]) <> Ok (ObjCol [Some "Luxury"]).
Proof.
  split; [vm_compute; reflexivity | discriminate].
Qed.

Lemma clean_column_names_labels_clean_witness :
  string_forall label_char "customer_lifetime_value" = true
  /\ "customer_lifetime_value" <> "st"
  /\ "customer_lifetime_value" <> "income".
Proof.
  apply (clean_column_names_labels_clean raw_frame).
  simpl. do 4 right. left. reflexivity.
Defined.

Lemma standardize_gender_rule_witness :
  exists cells cells',
    getcol "gender" (clean_column_names raw_frame) = Ok (ObjCol cells)
    /\ getcol "gender" (the_frame (standardize_gender
                                    (clean_column_names raw_frame)))
       = Ok (ObjCol cells')
    /\ Forall2 gender_rule cells cells'.
Proof.
  apply (standardize_gender_rule (clean_column_names raw_frame)).
  vm_compute. reflexivity.
Defined.

Lemma standardize_education_rule_witness :
  exists cells cells',
    getcol "education" (clean_column_names raw_frame) = Ok (ObjCol cells)
    /\ getcol "education" (the_frame (standardize_education
                                       (clean_column_names raw_frame)))
       = Ok (ObjCol cells')
    /\ Forall2 education_rule cells cells'.
Proof.
  apply (standardize_education_rule (clean_column_names raw_frame)).
  vm_compute. reflexivity.
Defined.

Lemma standardize_state_no_code_witness :
  exists cells',
    getcol "state" (the_frame (standardize_state
                                 (clean_column_names raw_frame)))
    = Ok (ObjCol cells')
    /\ forall v, In (Some v) cells' ->
                 ~ In v state_codes /\ upper v = v.
Proof.
  apply (standardize_state_no_code (clean_column_names raw_frame)).
  vm_compute. reflexivity.
Defined.

Lemma single_column_stage_returns_witness :
  (exists df', standardize_vehicle_class vehicle_sample = Ok df')
  <-> exists cells, select "vehicle_class" vehicle_sample = [ObjCol cells].
Proof.
  apply (single_column_stage_returns standardize_vehicle_class).
  simpl. do 3 right. left. reflexivity.
Defined.

Lemma clean_and_convert_numerical_frame_witness :
  let df' := the_frame (clean_and_convert_numerical numeric_sample) in
  same_outside ["customer_lifetime_value"; "number_of_open_complaints"]
    numeric_sample df'
  /\ columns df' = columns numeric_sample.
Proof.
  apply (clean_and_convert_numerical_frame numeric_sample).
  vm_compute. reflexivity.
Defined.

Lemma clean_and_convert_numerical_values_witness :
  exists clv noc floats ints,
    getcol "customer_lifetime_value" numeric_sample = Ok (ObjCol clv)
    /\ getcol "number_of_open_complaints" numeric_sample = Ok (ObjCol noc)
    /\ getcol "customer_lifetime_value"
         (the_frame (clean_and_convert_numerical numeric_sample))
       = Ok (FloatCol floats)
    /\ getcol "number_of_open_complaints"
         (the_frame (clean_and_convert_numerical numeric_sample))
       = Ok (IntCol ints)
    /\ List.length floats = List.length clv
    /\ List.length ints = List.length noc
    /\ forall z, In (Some z) ints -> (0 <= z)%Z.
Proof.
  apply (clean_and_convert_numerical_values numeric_sample).
  vm_compute. reflexivity.
Defined.

Lemma handle_missing_values_frame_witness :
  let df' := the_frame (handle_missing_values coerced_frame) in
  (forall l, ~ In l (categorical_cols ++ numerical_cols)%list ->
             l <> "complaints_missing" ->
             select l df' = select l coerced_frame)
  /\ select "number_of_open_complaints" df'
     = select "number_of_open_complaints" coerced_frame
  /\ columns df'
     = if inb "complaints_missing" (columns coerced_frame)
       then columns coerced_frame
       else (columns coerced_frame ++ ["complaints_missing"])%list.
Proof.
  apply (handle_missing_values_frame coerced_frame). vm_compute. reflexivity.
Defined.

Lemma handle_missing_values_keeps_values_witness :
  exists c c',
    getcol "customer_income" coerced_frame = Ok c
    /\ getcol "customer_income"
         (the_frame (handle_missing_values coerced_frame)) = Ok c'
    /\ nrows c' = nrows c
    /\ forall i v, nth_error (cells_of c) i = Some (Some v) ->
                   nth_error (cells_of c') i = Some (Some v).
Proof.
  apply (handle_missing_values_keeps_values coerced_frame).
  - vm_compute. reflexivity.
  - simpl. do 8 right. left. reflexivity.
Defined.

Lemma pipeline_missing_column_witness :
  raises (main_cleaning_pipeline numeric_sample).
Proof.
  apply (pipeline_missing_column numeric_sample "policy_type").
  - simpl. do 4 right. left. reflexivity.
  - apply inb_false. vm_compute. reflexivity.
Defined.

Lemma pipeline_reads_text_once_witness :
  exists cells,
    select "number_of_open_complaints" (clean_column_names raw_frame)
    = [ObjCol cells].
Proof.
  apply (pipeline_reads_text_once raw_frame
           (the_frame (main_cleaning_pipeline raw_frame))).
  - vm_compute. reflexivity.
  - simpl. do 5 right. left. reflexivity.
Defined.

Lemma pipeline_labels_witness :
  columns (the_frame (main_cleaning_pipeline raw_frame))
  = if inb "complaints_missing" (columns (clean_column_names raw_frame))
    then columns (clean_column_names raw_frame)
    else (columns (clean_column_names raw_frame)
            ++ ["complaints_missing"])%list.
Proof.
  apply (pipeline_labels raw_frame). vm_compute. reflexivity.
Defined.

Lemma pipeline_returns_witness :
  exists df', main_cleaning_pipeline raw_frame = Ok df'.
Proof.
  apply (pipeline_returns raw_frame
           [Some "1/0/00"; Some "bogus"; None; Some "1/2/00"]).
  - vm_compute. reflexivity.
  - vm_compute. reflexivity.
  - vm_compute. reflexivity.
Defined.

Lemma pipeline_not_rerunnable_witness :
  let df' := the_frame (main_cleaning_pipeline raw_frame) in
  clean_column_names df' = df' /\ raises (main_cleaning_pipeline df').
Proof.
  apply (pipeline_not_rerunnable raw_frame). vm_compute. reflexivity.
Defined.

Lemma pipeline_text_columns_witness :
  exists cells,
    select "gender" (clean_column_names raw_frame) = [ObjCol cells]
    /\ getcol "gender" (the_frame (main_cleaning_pipeline raw_frame))
       = Ok (ObjCol (fill "Unknown" (map (option_map gender_cell) cells))).
Proof.
  apply (pipeline_text_columns raw_frame).
  - vm_compute. reflexivity.
  - simpl. left. reflexivity.
Defined.

Lemma pipeline_untouched_columns_witness :
  select "number_of_policies" (the_frame (main_cleaning_pipeline wide_frame))
  = select "number_of_policies" (clean_column_names wide_frame).
Proof.
  apply (pipeline_untouched_columns wide_frame).
  - vm_compute. reflexivity.
  - apply inb_false. vm_compute. reflexivity.
  - discriminate.
Defined.

Lemma clean_and_convert_numerical_returns_witness :
  (forall e, clean_and_convert_numerical numeric_sample = Err e ->
             e = TypeError)
  /\ (short_tokens 15 sample_noc = true ->
      exists df' ints,
        clean_and_convert_numerical numeric_sample = Ok df'
        /\ getcol "number_of_open_complaints" df' = Ok (IntCol ints)
        /\ Forall2 complaints_rule sample_noc ints).
Proof.
  apply (proj2 (clean_and_convert_numerical_returns numeric_sample)
           sample_clv sample_noc); reflexivity.
Defined.

Lemma handle_missing_values_nulls_witness :
  let df' := the_frame (handle_missing_values coerced_frame) in
  (forall l, In l categorical_cols ->
     exists c', getcol l df' = Ok c' /\ has_null c' = false)
  /\ (forall l, In l numerical_cols ->
        exists c', getcol l df' = Ok c'
                   /\ (has_null c' = false \/ has_finite c' = false)).
Proof.
  apply (handle_missing_values_nulls coerced_frame). vm_compute. reflexivity.
Defined.

Lemma pipeline_numeric_columns_witness :
  let df' := the_frame (main_cleaning_pipeline raw_frame) in
  exists clv noc ints,
    select "customer_lifetime_value" (clean_column_names raw_frame)
    = [ObjCol clv]
    /\ select "number_of_open_complaints" (clean_column_names raw_frame)
       = [ObjCol noc]
    /\ getcol "customer_lifetime_value" df'
       = Ok (FloatCol (fill_opt (median (map lifetime_cell clv))
                         (map lifetime_cell clv)))
    /\ astype_Int64 (token_numbers noc) = Ok ints
    /\ getcol "number_of_open_complaints" df' = Ok (IntCol ints)
    /\ (short_tokens 15 noc = true -> Forall2 complaints_rule noc ints).
Proof.
  apply (pipeline_numeric_columns raw_frame). vm_compute. reflexivity.
Defined.

Lemma filler_fills_with_median_witness :
  exists cells',
    getcol "customer_income"
      (the_frame (handle_missing_values coerced_frame))
    = Ok (FloatCol cells')
    /\ forall i x,
         nth_error [Some (Finite 0); None; Some (Finite 48767);
                    Some (Finite 36357)] i = Some None ->
         nth_error cells' i = Some (Some x) ->
         median [Some (Finite 0); None; Some (Finite 48767);
                 Some (Finite 36357)] = Some x
         /\ (Nat.odd (List.length
                        (dropna [Some (Finite 0); None; Some (Finite 48767);
                                 Some (Finite 36357)])) = true ->
             In (Some x) [Some (Finite 0); None; Some (Finite 48767);
                          Some (Finite 36357)]).
Proof.
  apply (filler_fills_with_median coerced_frame).
  - vm_compute. reflexivity.
  - simpl. do 2 right. left. reflexivity.
  - vm_compute. reflexivity.
Defined.
